(** * SmartFormsGPT: the claim decision engine, its rules and validators

    A shallow embedding of [logic/rules.py], [logic/decision_engine.py],
    [schemas/base_claim.py] and [utils/validators.py], followed by the
    properties of the adjudication pipeline.

    Conventions of the embedding:
    - a Python [float] is a binary64 value, here Rocq's primitive [float];
      comparisons against the integer literals of the source (1000, 5000,
      100000, 1000000) are comparisons against the same value as a float,
      which is what Python does since all of them are exactly representable;
    - a Python [str] is a [string] whose characters are code points below
      256, so that [len] is [String.length];
    - a naive [datetime] is the number of microseconds elapsed since
      0001-01-01T00:00:00 in the proleptic Gregorian calendar;
    - objects passed by reference (the claim records) live in a heap that
      is part of the state threaded through every engine operation;
    - calls to the logger are not modelled. *)

From Stdlib Require Import ZArith String Ascii List Floats Uint63 Lia Bool.
From stdpp Require Import gmap strings pretty.

Set Warnings "-inexact-float".
Local Open Scope Z_scope.

(** ** Python strings *)

Module PyStr.

(** [str.isspace] (and the class [\s] of [re]) on code points below 256. *)
Definition isspace (a : ascii) : bool :=
  let n := nat_of_ascii a in
  (Nat.leb 9 n && Nat.leb n 13) || (Nat.leb 28 n && Nat.leb n 32)
  || Nat.eqb n 133 || Nat.eqb n 160.

(** The class [\d] of [re] on code points below 256. *)
Definition isdigit (a : ascii) : bool :=
  let n := nat_of_ascii a in Nat.leb 48 n && Nat.leb n 57.

Fixpoint lstrip (s : string) : string :=
  match s with
  | String a s' => if isspace a then lstrip s' else s
  | EmptyString => EmptyString
  end.

Fixpoint rstrip (s : string) : string :=
  match s with
  | String a s' =>
      match rstrip s' with
      | EmptyString => if isspace a then EmptyString else String a EmptyString
      | r => String a r
      end
  | EmptyString => EmptyString
  end.

(** [s.strip()] *)
Definition strip (s : string) : string := rstrip (lstrip s).

(** Truth value of a string: non-empty. *)
Definition truthy (s : string) : bool :=
  match s with EmptyString => false | _ => true end.

Fixpoint filter (p : ascii -> bool) (s : string) : string :=
  match s with
  | String a s' => if p a then String a (filter p s') else filter p s'
  | EmptyString => EmptyString
  end.

Fixpoint forallb (p : ascii -> bool) (s : string) : bool :=
  match s with
  | String a s' => p a && forallb p s'
  | EmptyString => true
  end.

Fixpoint chars (s : string) : list ascii :=
  match s with
  | String a s' => a :: chars s'
  | EmptyString => []
  end.

(** [sub in s] *)
Definition contains (sub s : string) : Prop :=
  exists pre post : string, s = pre +:+ sub +:+ post.

(** Decimal rendering of a non-negative integer on at least [w] digits
    (the [%0wd] of the date formats). *)
Definition zero_pad (w : nat) (n : Z) : string :=
  let d := pretty (Z.to_N n) in
  String.concat "" (repeat "0"%string (w - String.length d)%nat) +:+ d.

End PyStr.

(** ** Naive datetimes *)

Module PyDatetime.

Definition datetime := Z.

Definition US_PER_DAY : Z := 86400 * 1000000.

(** [timedelta(days=d)] *)
Definition timedelta_days (d : Z) : Z := d * US_PER_DAY.

(** Proleptic Gregorian ordinal of the day, 0001-01-01 being day 1. *)
Definition toordinal (t : datetime) : Z := t / US_PER_DAY + 1.

Definition is_leap (y : Z) : bool :=
  (y mod 4 =? 0) && (negb (y mod 100 =? 0) || (y mod 400 =? 0)).

Definition days_in_month (y m : Z) : Z :=
  if m =? 2 then (if is_leap y then 29 else 28)
  else if (m =? 4) || (m =? 6) || (m =? 9) || (m =? 11) then 30 else 31.

(** Days of the year before the first day of month [m], in a common year. *)
Definition days_before_month (m : Z) : Z :=
  nth (Z.to_nat m) [0; 0; 31; 59; 90; 120; 151; 181; 212; 243; 273; 304; 334] 0.

Definition days_before_year (y : Z) : Z :=
  let p := y - 1 in p * 365 + p / 4 - p / 100 + p / 400.

(** [(year, month, day)] of an ordinal, as [datetime._ord2ymd] computes it. *)
Definition ord2ymd (n0 : Z) : Z * Z * Z :=
  let n := n0 - 1 in
  let n400 := n / 146097 in let n := n mod 146097 in
  let n100 := n / 36524 in let n := n mod 36524 in
  let n4 := n / 1461 in let n := n mod 1461 in
  let n1 := n / 365 in let n := n mod 365 in
  let year := n400 * 400 + 1 + n100 * 100 + n4 * 4 + n1 in
  if (n1 =? 4) || (n100 =? 4) then (year - 1, 12, 31)
  else
    let leapyear := (n1 =? 3) && (negb (n4 =? 24) || (n100 =? 3)) in
    let month := Z.shiftr (n + 50) 5 in
    let preceding :=
      days_before_month month + (if (2 <? month) && leapyear then 1 else 0) in
    if n <? preceding then
      let month' := month - 1 in
      let preceding' :=
        preceding - (nth (Z.to_nat month')
                         [0; 31; 28; 31; 30; 31; 30; 31; 31; 30; 31; 30; 31] 0
                     + (if (month' =? 2) && leapyear then 1 else 0)) in
      (year, month', n - preceding' + 1)
    else (year, month, n - preceding + 1).

Definition ymd2ord (y m d : Z) : Z :=
  days_before_year y + days_before_month m
  + (if (2 <? m) && is_leap y then 1 else 0) + d.

Definition year (t : datetime) : Z := fst (fst (ord2ymd (toordinal t))).
Definition month (t : datetime) : Z := snd (fst (ord2ymd (toordinal t))).
Definition day (t : datetime) : Z := snd (ord2ymd (toordinal t)).

(** Microseconds elapsed since midnight. *)
Definition time_of_day (t : datetime) : Z := t mod US_PER_DAY.

(** [datetime(y, m, d, ...)] from its calendar fields; a [ValueError] is
    [None]. *)
Definition make (y m d tod : Z) : option datetime :=
  if (1 <=? y) && (y <=? 9999) && (1 <=? m) && (m <=? 12)
     && (1 <=? d) && (d <=? days_in_month y m)
  then Some ((ymd2ord y m d - 1) * US_PER_DAY + tod)
  else None.

(** [t.replace(year=y)]: same month, day and time in year [y]. *)
Definition replace_year (t : datetime) (y : Z) : option datetime :=
  make y (month t) (day t) (time_of_day t).

(** [t.date()], as the ordinal of the day. *)
Definition date (t : datetime) : Z := toordinal t.

(** [str(d)] for a date: [YYYY-MM-DD]. *)
Definition date_str (ordinal : Z) : string :=
  let '(y, m, d) := ord2ymd ordinal in
  PyStr.zero_pad 4 y +:+ "-" +:+ PyStr.zero_pad 2 m +:+ "-" +:+ PyStr.zero_pad 2 d.

(** 1970-01-01T00:00:00 *)
Definition UNIX_EPOCH : datetime := 719162 * US_PER_DAY.

End PyDatetime.

Import PyDatetime.

(** ** Python floats *)

Module PyFloat.

Local Open Scope float_scope.

(** Truth value of a float: [x != 0.0] (a NaN is true). *)
Definition truthy (x : float) : bool := negb (x =? 0).

(** Nearest integer to [a / b] for [b > 0], ties going to the even one. *)
Definition div_half_even (a b : Z) : Z :=
  let q := (a / b)%Z in
  let r := (a mod b)%Z in
  if (2 * r <? b)%Z then q
  else if (b <? 2 * r)%Z then (q + 1)%Z
  else if Z.even q then q else (q + 1)%Z.

(** [round(x, 2)]: the double nearest to the exact value of [x] rounded
    half-even to two decimals.  Zeros, infinities, NaN and integral values
    round to themselves.  The quotient below is that double as long as the
    scaled integer is exactly representable, i.e. for magnitudes below
    2^46, which covers every value the schema rounds (at most 1000000). *)
Definition round2 (x : float) : float :=
  match Prim2SF x with
  | S754_finite s m e =>
      if (0 <=? e)%Z then x
      else
        let n := div_half_even (100 * Z.pos m) (2 ^ (- e)) in
        let r := of_uint63 (Uint63.of_Z n) / 100 in
        if s then - r else r
  | _ => x
  end.

End PyFloat.

(** ** schemas/base_claim.py *)

Inductive ClaimStatus :=
  | DRAFT | SUBMITTED | UNDER_REVIEW | APPROVED | REJECTED | PENDING_INFO.

Inductive ClaimType :=
  | MEDICAL | DENTAL | VISION | PRESCRIPTION | HOSPITAL | OTHER.

#[global] Instance ClaimStatus_eq_dec : EqDecision ClaimStatus.
Proof. solve_decision. Defined.

(** [ClaimStatus.value] *)
Definition status_value (s : ClaimStatus) : string :=
  match s with
  | DRAFT => "draft"
  | SUBMITTED => "submitted"
  | UNDER_REVIEW => "under_review"
  | APPROVED => "approved"
  | REJECTED => "rejected"
  | PENDING_INFO => "pending_info"
  end.

Record BaseClaim := mkBaseClaim {
  claim_id : option string;
  claim_type : ClaimType;
  status : ClaimStatus;
  patient_name : string;
  patient_id : string;
  date_of_birth : datetime;
  service_date : datetime;
  provider_name : string;
  provider_id : option string;
  total_amount : float;
  currency : string;
  description : option string;
  diagnosis_codes : option (list string);
  procedure_codes : option (list string);
  created_at : datetime;
  updated_at : datetime;
  submitted_at : option datetime
}.

Module Schema.

Local Open Scope float_scope.

(** The outcome of validating one field: the value to store, or the
    message of the error raised. *)
Inductive validated (A : Type) :=
  | Valid (v : A)
  | Invalid (msg : string).
Arguments Valid {A} v.
Arguments Invalid {A} msg.

(** [BaseClaim.validate_amount] *)
Definition validate_amount (v : float) : validated float :=
  if v <=? 0 then Invalid "Claim amount must be positive"
  else if 1000000 <? v then Invalid "Claim amount exceeds maximum limit"
  else Valid (PyFloat.round2 v).

(** The field [total_amount]: the constraint [gt=0] of its declaration,
    then the validator above. *)
Definition field_total_amount (v : float) : validated float :=
  if 0 <? v then validate_amount v
  else Invalid "ensure this value is greater than 0".

(** [BaseClaim.validate_service_date], [now] being the reading of the
    clock. *)
Definition validate_service_date (now v : datetime) : validated datetime :=
  if (now <? v)%Z then Invalid "Service date cannot be in the future"
  else Valid v.

(** The constraints [min_length] and [max_length] of a string field. *)
Definition field_str (min_length max_length : nat) (v : string) : validated string :=
  if (String.length v <? min_length)%nat then
    Invalid ("ensure this value has at least " +:+ pretty min_length +:+ " characters")
  else if (max_length <? String.length v)%nat then
    Invalid ("ensure this value has at most " +:+ pretty max_length +:+ " characters")
  else Valid v.

Definition errors_of {A} (r : validated A) : list string :=
  match r with Valid _ => [] | Invalid msg => [msg] end.

Definition value_or {A} (r : validated A) (d : A) : A :=
  match r with Valid v => v | Invalid _ => d end.

(** Creation of a record from the values given for its fields: every
    constrained field is validated, and the record is built from the
    validated values when no validator has complained; otherwise the
    errors are reported together and no record exists. *)
Definition create (now : datetime) (raw : BaseClaim) : list string + BaseClaim :=
  let name := field_str 1 200 (patient_name raw) in
  let date := validate_service_date now (service_date raw) in
  let amount := field_total_amount (total_amount raw) in
  let descr :=
    match description raw with
    | Some d => match field_str 0 1000 d with
                | Valid d' => Valid (Some d')
                | Invalid msg => Invalid msg
                end
    | None => Valid None
    end in
  match errors_of name ++ errors_of date ++ errors_of amount ++ errors_of descr with
  | [] =>
      inr {| claim_id := claim_id raw;
             claim_type := claim_type raw;
             status := status raw;
             patient_name := value_or name (patient_name raw);
             patient_id := patient_id raw;
             date_of_birth := date_of_birth raw;
             service_date := value_or date (service_date raw);
             provider_name := provider_name raw;
             provider_id := provider_id raw;
             total_amount := value_or amount (total_amount raw);
             currency := currency raw;
             description := value_or descr (description raw);
             diagnosis_codes := diagnosis_codes raw;
             procedure_codes := procedure_codes raw;
             created_at := created_at raw;
             updated_at := updated_at raw;
             submitted_at := submitted_at raw |}
  | errs => inl errs
  end.

End Schema.

(** ** What the engine takes from the Python runtime *)

(** Rendering of floats and the system clock are the runtime's:
    - [float_str x] is [str(x)], as an f-string interpolates a float;
    - [float_pct x] is [format(x, ".2%")];
    - [clock_us n] is the time of the [n]-th reading of the clock, in
      microseconds since 1970-01-01T00:00:00 UTC. *)
Class PyRuntime := {
  float_str : float -> string;
  float_pct : float -> string;
  clock_us : nat -> N
}.

(** ** The state of the program *)

(** A reference to a claim object. *)
Definition ref := nat.

(** The result of an evaluation: status, reasons, confidence. *)
Definition Decision : Type := ClaimStatus * list string * float.

(** [heap] holds the claim objects; [processed_claims] is the ledger of the
    engine's [ClaimRules] instance; [decision_history] is the engine's
    attribute of that name; [clock_reads] counts the readings of the clock
    made so far. *)
Record World := mkWorld {
  heap : ref -> BaseClaim;
  processed_claims : gset string;
  decision_history : list Decision;
  clock_reads : nat
}.

(** Computations that read and update the state. *)
Definition M (A : Type) : Type := World -> A * World.

Definition ret {A} (a : A) : M A := fun w => (a, w).

Definition bind {A B} (m : M A) (k : A -> M B) : M B :=
  fun w => let (a, w') := m w in k a w'.

Notation "x <- m ;; k" := (bind m (fun x => k))
  (at level 100, m at next level, right associativity).

(** Reading the object a reference points to. *)
Definition load (r : ref) : M BaseClaim := fun w => (heap w r, w).

(** [self.processed_claims] *)
Definition get_processed_claims : M (gset string) :=
  fun w => (processed_claims w, w).

(** [self.processed_claims.add(key)] *)
Definition add_processed_claim (key : string) : M unit :=
  fun w => (tt, {| heap := heap w;
                   processed_claims := {[key]} ∪ processed_claims w;
                   decision_history := decision_history w;
                   clock_reads := clock_reads w |}).

(** [datetime.utcnow()] *)
Definition utcnow `{PyRuntime} : M datetime :=
  fun w => (UNIX_EPOCH + Z.of_N (clock_us (clock_reads w)),
            {| heap := heap w;
               processed_claims := processed_claims w;
               decision_history := decision_history w;
               clock_reads := S (clock_reads w) |}).

(** ** logic/rules.py *)

Module ClaimRules.

Local Open Scope float_scope.

Definition MAX_CLAIM_AMOUNT : float := 100000.
Definition AUTO_APPROVE_THRESHOLD : float := 1000.
Definition MAX_SERVICE_AGE_DAYS : Z := 365.
Definition MIN_DOCUMENTATION_SCORE : float := 0.5.

(** [all(required_fields)]; a datetime is always true. *)
Definition all_required_fields (c : BaseClaim) : bool :=
  PyStr.truthy (patient_name c) && PyStr.truthy (patient_id c) && true
  && PyStr.truthy (provider_name c) && PyFloat.truthy (total_amount c).

Definition validate_basic_info (claim : ref) : M bool :=
  c <- load claim ;;
  if negb (all_required_fields c) then ret false
  else if (String.length (PyStr.strip (patient_name c)) <? 2)%nat then ret false
  else ret true.

Definition check_amount_limit (claim : ref) : M bool :=
  c <- load claim ;;
  if MAX_CLAIM_AMOUNT <? total_amount c then ret false
  else if total_amount c <=? 0 then ret false
  else ret true.

Definition check_service_date `{PyRuntime} (claim : ref) : M bool :=
  now <- utcnow ;;
  let max_age := (now - timedelta_days MAX_SERVICE_AGE_DAYS)%Z in
  c <- load claim ;;
  if (now <? service_date c)%Z then ret false
  else if (service_date c <? max_age)%Z then ret false
  else ret true.

(** The key under which a claim is recorded. *)
Definition claim_key `{PyRuntime} (c : BaseClaim) : string :=
  patient_id c +:+ "_" +:+ date_str (date (service_date c))
  +:+ "_" +:+ float_str (total_amount c).

Definition check_duplicate `{PyRuntime} (claim : ref) : M bool :=
  c <- load claim ;;
  let key := claim_key c in
  seen <- get_processed_claims ;;
  if decide (key ∈ seen) then ret true
  else _ <- add_processed_claim key ;; ret false.

(** Truth value and length tests of the optional fields. *)
Definition has_description (c : BaseClaim) : bool :=
  match description c with
  | Some d => PyStr.truthy d && (10 <? String.length d)%nat
  | None => false
  end.

Definition has_codes (codes : option (list string)) : bool :=
  match codes with
  | Some l => match l with [] => false | _ => (0 <? length l)%nat end
  | None => false
  end.

Definition has_provider_id (c : BaseClaim) : bool :=
  match provider_id c with
  | Some p => PyStr.truthy p
  | None => false
  end.

(** [len(codes or [])] *)
Definition len_or_empty (codes : option (list string)) : nat :=
  match codes with
  | Some l => length l
  | None => 0
  end.

Definition check_documentation (claim : ref) : M float :=
  c <- load claim ;;
  let score := 0.0 in
  let max_score := 5.0 in
  let score := if has_description c then score + 1.0 else score in
  let score := if has_codes (diagnosis_codes c) then score + 1.5 else score in
  let score := if has_codes (procedure_codes c) then score + 1.5 else score in
  let score := if has_provider_id c then score + 0.5 else score in
  let score :=
    if 5000 <? total_amount c then
      if (0 <? len_or_empty (diagnosis_codes c))%nat
         && (0 <? len_or_empty (procedure_codes c))%nat
      then score + 0.5 else score
    else score + 0.5 in
  let normalized_score := score / max_score in
  ret normalized_score.

Definition requires_manual_review `{PyRuntime} (claim : ref) : M bool :=
  c <- load claim ;;
  if AUTO_APPROVE_THRESHOLD <? total_amount c then ret true
  else
    doc <- check_documentation claim ;;
    if doc <? MIN_DOCUMENTATION_SCORE then ret true
    else
      dup <- check_duplicate claim ;;
      if dup then ret true else ret false.

End ClaimRules.

(** ** logic/decision_engine.py *)

Module DecisionEngine.

Import ClaimRules.
Local Open Scope float_scope.

Definition evaluate_claim `{PyRuntime} (claim : ref) : M Decision :=
  let reasons : list string := [] in
  let confidence := 1.0 in
  ok <- validate_basic_info claim ;;
  if negb ok then
    let reasons := reasons ++ ["Missing or invalid basic information"%string] in
    ret (PENDING_INFO, reasons, 0.0)
  else
  ok <- check_amount_limit claim ;;
  if negb ok then
    c <- load claim ;;
    let reasons :=
      reasons ++ ["Claim amount $" +:+ float_str (total_amount c)
                  +:+ " exceeds policy limit"] in
    ret (REJECTED, reasons, 1.0)
  else
  ok <- check_service_date claim ;;
  if negb ok then
    let reasons := reasons ++ ["Service date is outside acceptable range"%string] in
    ret (REJECTED, reasons, 1.0)
  else
  dup <- check_duplicate claim ;;
  let '(reasons, confidence) :=
    if dup then (reasons ++ ["Potential duplicate claim detected"%string],
                 confidence * 0.7)
    else (reasons, confidence) in
  doc_score <- check_documentation claim ;;
  if doc_score <? 0.5 then
    let reasons := reasons ++ ["Insufficient documentation provided"%string] in
    ret (PENDING_INFO, reasons, doc_score)
  else
  let confidence := confidence * doc_score in
  c <- load claim ;;
  if (total_amount c <? 1000) && (0.8 <? confidence) then
    let reasons := reasons ++ ["Auto-approved: All criteria met"%string] in
    ret (APPROVED, reasons, confidence)
  else
    let reasons := reasons ++ ["Requires manual review"%string] in
    ret (UNDER_REVIEW, reasons, confidence).

(** One entry of [results["details"]]. *)
Record Detail := mkDetail {
  d_claim_id : option string;
  d_status : ClaimStatus;
  d_reasons : list string;
  d_confidence : float
}.

(** The dictionary [results] of [process_batch], by key. *)
Record BatchResults := mkBatchResults {
  total : nat;
  approved : nat;
  rejected : nat;
  under_review : nat;
  pending_info : nat;
  details : list Detail
}.

(** The counters after a result of status [st]. *)
Definition update_counters (st : ClaimStatus) (r : BatchResults) : BatchResults :=
  if decide (st = APPROVED) then
    {| total := total r; approved := approved r + 1; rejected := rejected r;
       under_review := under_review r; pending_info := pending_info r;
       details := details r |}
  else if decide (st = REJECTED) then
    {| total := total r; approved := approved r; rejected := rejected r + 1;
       under_review := under_review r; pending_info := pending_info r;
       details := details r |}
  else if decide (st = UNDER_REVIEW) then
    {| total := total r; approved := approved r; rejected := rejected r;
       under_review := under_review r + 1; pending_info := pending_info r;
       details := details r |}
  else if decide (st = PENDING_INFO) then
    {| total := total r; approved := approved r; rejected := rejected r;
       under_review := under_review r; pending_info := pending_info r + 1;
       details := details r |}
  else r.

(** [results["details"].append(d)] *)
Definition append_detail (d : Detail) (r : BatchResults) : BatchResults :=
  {| total := total r; approved := approved r; rejected := rejected r;
     under_review := under_review r; pending_info := pending_info r;
     details := details r ++ [d] |}.

(** The body of the loop of [process_batch], over the claims left. *)
Fixpoint process_batch_loop `{PyRuntime} (claims : list ref) (results : BatchResults)
  : M BatchResults :=
  match claims with
  | [] => ret results
  | claim :: rest =>
      decision <- evaluate_claim claim ;;
      let '(st, reasons, confidence) := decision in
      c <- load claim ;;
      let results :=
        append_detail {| d_claim_id := claim_id c; d_status := st;
                         d_reasons := reasons; d_confidence := confidence |}
                      results in
      let results := update_counters st results in
      process_batch_loop rest results
  end.

Definition process_batch `{PyRuntime} (claims : list ref) : M BatchResults :=
  let results :=
    {| total := length claims; approved := 0; rejected := 0;
       under_review := 0; pending_info := 0; details := [] |} in
  process_batch_loop claims results.

(** [s.upper()] on the characters of the status names. *)
Definition upper_char (a : ascii) : ascii :=
  let n := nat_of_ascii a in
  if Nat.leb 97 n && Nat.leb n 122 then ascii_of_nat (n - 32) else a.

Fixpoint upper (s : string) : string :=
  match s with
  | String a s' => String (upper_char a) (upper s')
  | EmptyString => EmptyString
  end.

(** The loop over [enumerate(reasons, 1)], from number [i] on. *)
Fixpoint explanation_loop (i : nat) (reasons : list string) (explanation : string)
  : string :=
  match reasons with
  | [] => explanation
  | reason :: rest =>
      explanation_loop (S i) rest
        (explanation +:+ (pretty i +:+ ". " +:+ reason +:+ "
"))
  end.

(** The text rendered for a decision. *)
Definition render `{PyRuntime} (decision : Decision) : string :=
  let '(st, reasons, confidence) := decision in
  let explanation := "Claim Decision: " +:+ upper (status_value st) +:+ "
" in
  let explanation :=
    explanation +:+ ("Confidence Score: " +:+ float_pct confidence +:+ "

") in
  let explanation := explanation +:+ "Reasons:
" in
  explanation_loop 1 reasons explanation.

Definition get_decision_explanation `{PyRuntime} (claim : ref) : M string :=
  decision <- evaluate_claim claim ;;
  ret (render decision).

End DecisionEngine.

(** ** utils/validators.py *)

Module ClaimValidator.

(** [int(d)] for a character; [None] is the [ValueError]. *)
Definition int_of_char (a : ascii) : option Z :=
  if PyStr.isdigit a then Some (Z.of_nat (nat_of_ascii a) - 48) else None.

(** [digits_of(n)] for a string [n]. *)
Fixpoint digits_of_str (s : string) : option (list Z) :=
  match s with
  | String a s' =>
      match int_of_char a, digits_of_str s' with
      | Some d, Some ds => Some (d :: ds)
      | _, _ => None
      end
  | EmptyString => Some []
  end.

(** [digits_of(n)] for a non-negative integer [n]: the digits of [str(n)]. *)
Definition digits_of_int (n : Z) : list Z :=
  default [] (digits_of_str (pretty (Z.to_N n))).

(** [l[0::2]] *)
Fixpoint every_other {A} (l : list A) : list A :=
  match l with
  | x :: _ :: rest => x :: every_other rest
  | [x] => [x]
  | [] => []
  end.

Definition sum (l : list Z) : Z := fold_left Z.add l 0.

Definition _luhn_check (number : string) : option bool :=
  match digits_of_str number with
  | Some digits =>
      let odd_digits := every_other (rev digits) in
      let even_digits := every_other (tail (rev digits)) in
      let checksum := sum odd_digits in
      let checksum :=
        fold_left (fun checksum d => checksum + sum (digits_of_int (d * 2)))
                  even_digits checksum in
      Some (checksum mod 10 =? 0)
  | None => None
  end.

(** The characters [re.sub(r'[\s\-]', '', npi)] removes. *)
Definition space_or_hyphen (a : ascii) : bool :=
  PyStr.isspace a || Ascii.eqb a "-".

(** [re.match(r'^\d{10}$', s)] on a string without line breaks. *)
Definition ten_digits (s : string) : bool :=
  Nat.eqb (String.length s) 10 && PyStr.forallb PyStr.isdigit s.

(** [None] stands for an exception escaping the validator. *)
Definition validate_provider_npi (npi : string) : option (bool * option string) :=
  if negb (PyStr.truthy npi) then Some (true, None)
  else
    let cleaned_npi := PyStr.filter (fun a => negb (space_or_hyphen a)) npi in
    if negb (ten_digits cleaned_npi) then
      Some (false, Some "NPI must be exactly 10 digits"%string)
    else
      match _luhn_check cleaned_npi with
      | Some ok =>
          if negb ok then Some (false, Some "Invalid NPI checksum"%string)
          else Some (true, None)
      | None => None
      end.

(** [None] stands for the [ValueError] of [replace]. *)
Definition validate_date_range `{PyRuntime} (start_date end_date : datetime)
  : M (option (bool * option string)) :=
  if end_date <? start_date then
    ret (Some (false, Some "Start date must be before end date"%string))
  else
    t1 <- utcnow ;;
    t2 <- utcnow ;;
    match replace_year t1 (year t2 - 10) with
    | None => ret None
    | Some max_age =>
        if start_date <? max_age then
          ret (Some (false, Some "Date is too far in the past"%string))
        else
          t3 <- utcnow ;;
          if t3 <? end_date then
            ret (Some (false, Some "Date cannot be in the future"%string))
          else ret (Some (true, None))
    end.

End ClaimValidator.

(** ** Readings of the rules on a claim record

    What each rule computes from the fields of the record a reference
    points to, the ledger and the reading of the clock; the rules above are
    shown to compute exactly these. *)

Module Reading.

Import ClaimRules.
Local Open Scope float_scope.

Definition basic_info_ok (c : BaseClaim) : bool :=
  all_required_fields c && negb (String.length (PyStr.strip (patient_name c)) <? 2)%nat.

Definition amount_ok (c : BaseClaim) : bool :=
  negb (MAX_CLAIM_AMOUNT <? total_amount c) && negb (total_amount c <=? 0).

Definition service_date_ok (now : datetime) (c : BaseClaim) : bool :=
  negb (now <? service_date c)%Z
  && negb (service_date c <? now - timedelta_days MAX_SERVICE_AGE_DAYS)%Z.

(** The five terms of the documentation score. *)
Definition description_points (c : BaseClaim) : float :=
  if has_description c then 1.0 else 0.
Definition diagnosis_points (c : BaseClaim) : float :=
  if has_codes (diagnosis_codes c) then 1.5 else 0.
Definition procedure_points (c : BaseClaim) : float :=
  if has_codes (procedure_codes c) then 1.5 else 0.
Definition provider_points (c : BaseClaim) : float :=
  if has_provider_id c then 0.5 else 0.
Definition amount_points (c : BaseClaim) : float :=
  if 5000 <? total_amount c then
    if has_codes (diagnosis_codes c) && has_codes (procedure_codes c) then 0.5 else 0
  else 0.5.

Definition documentation_score (c : BaseClaim) : float :=
  (description_points c + diagnosis_points c + procedure_points c
   + provider_points c + amount_points c) / 5.0.

(** The reading of the clock the next call of [utcnow] returns. *)
Definition now_at `{PyRuntime} (w : World) : datetime :=
  (UNIX_EPOCH + Z.of_N (clock_us (clock_reads w)))%Z.

(** The state after one reading of the clock. *)
Definition tick (w : World) : World :=
  {| heap := heap w; processed_claims := processed_claims w;
     decision_history := decision_history w; clock_reads := S (clock_reads w) |}.

(** The state after [key] has been recorded in the ledger. *)
Definition record_key (key : string) (w : World) : World :=
  {| heap := heap w; processed_claims := {[key]} ∪ processed_claims w;
     decision_history := decision_history w; clock_reads := clock_reads w |}.

End Reading.

(** ** The decision pipeline as the specification words it

    Steps 1 to 7 of the specification, over the outcomes of the five rules:
    [basic], [amount] and [date] are the results of the three leading checks, [dup]
    that of the duplicate check, [doc_score] the documentation score;
    [amount_text] is the rendering of the amount and [amt] the amount. *)

Module Pipeline.

Local Open Scope float_scope.

Definition duplicate_reasons (dup : bool) : list string :=
  if dup then ["Potential duplicate claim detected"%string] else [].

Definition duplicate_confidence (dup : bool) : float :=
  if dup then 1.0 * 0.7 else 1.0.

Definition amount_reason (amount_text : string) : string :=
  "Claim amount $" +:+ amount_text +:+ " exceeds policy limit".

Definition decide_claim (amount_text : string) (amt : float)
    (basic amount date dup : bool) (doc_score : float) : Decision :=
  if negb basic then
    (PENDING_INFO, ["Missing or invalid basic information"%string], 0.0)
  else if negb amount then
    (REJECTED, [amount_reason amount_text], 1.0)
  else if negb date then
    (REJECTED, ["Service date is outside acceptable range"%string], 1.0)
  else if doc_score <? 0.5 then
    (PENDING_INFO,
     duplicate_reasons dup ++ ["Insufficient documentation provided"%string],
     doc_score)
  else if (amt <? 1000) && (0.8 <? duplicate_confidence dup * doc_score) then
    (APPROVED,
     duplicate_reasons dup ++ ["Auto-approved: All criteria met"%string],
     duplicate_confidence dup * doc_score)
  else
    (UNDER_REVIEW,
     duplicate_reasons dup ++ ["Requires manual review"%string],
     duplicate_confidence dup * doc_score).

(** The values the variable [confidence] holds in turn, followed by the
    confidence returned. *)
Definition confidence_steps (basic amount date dup : bool) (doc_score : float)
  : list float :=
  if negb basic then [1.0; 0.0]
  else if negb amount then [1.0; 1.0]
  else if negb date then [1.0; 1.0]
  else if doc_score <? 0.5 then [1.0; duplicate_confidence dup; doc_score]
  else [1.0; duplicate_confidence dup; duplicate_confidence dup * doc_score;
        duplicate_confidence dup * doc_score].

(** No element of the list exceeds the one before it. *)
Fixpoint never_increases (l : list float) : bool :=
  match l with
  | x :: (y :: _) as rest => (y <=? x) && never_increases rest
  | _ => true
  end.

Definition status_of (d : Decision) : ClaimStatus := fst (fst d).
Definition reasons_of (d : Decision) : list string := snd (fst d).
Definition confidence_of (d : Decision) : float := snd d.

End Pipeline.

Import Reading.

(** ** The documentation score as the specification words it

    The four items a claim is given points for, read off the fields of the
    record: a description of more than 10 characters, at least one code of
    a kind, a provider identifier that is there (a field that holds the
    empty string holds no identifier). *)

Module Scoring.

Local Open Scope float_scope.

Definition described (c : BaseClaim) : bool :=
  match description c with
  | Some text => (10 <? String.length text)%nat
  | None => false
  end.

Definition coded (codes : option (list string)) : bool :=
  match codes with
  | Some (_ :: _) => true
  | _ => false
  end.

Definition identified (c : BaseClaim) : bool :=
  match provider_id c with
  | Some EmptyString => false
  | Some _ => true
  | None => false
  end.

(** The points [d], [g], [p] and [v] of the specification. *)
Definition d (c : BaseClaim) : float := if described c then 1.0 else 0.
Definition g (c : BaseClaim) : float := if coded (diagnosis_codes c) then 1.5 else 0.
Definition p (c : BaseClaim) : float := if coded (procedure_codes c) then 1.5 else 0.
Definition v (c : BaseClaim) : float := if identified c then 0.5 else 0.

End Scoring.

(** ** What an evaluation returns and leaves behind *)

Module Outcome.

Import ClaimRules DecisionEngine Pipeline.

(** The state an evaluation of [claim] leaves: untouched when a check of
    the record stops it, one reading of the clock later when the date is
    checked, and with the key of the claim in the ledger when the
    duplicate check is reached. *)
Definition state_after `{PyRuntime} (claim : ref) (w : World) : World :=
  let c := heap w claim in
  if negb (basic_info_ok c) then w
  else if negb (amount_ok c) then w
  else if negb (service_date_ok (now_at w) c) then tick w
  else if decide (claim_key c ∈ processed_claims w) then tick w
  else record_key (claim_key c) (tick w).

(** The decision an evaluation of [claim] returns. *)
Definition decision_of `{PyRuntime} (claim : ref) (w : World) : Decision :=
  let c := heap w claim in
  decide_claim (float_str (total_amount c)) (total_amount c)
    (basic_info_ok c) (amount_ok c) (service_date_ok (now_at w) c)
    (bool_decide (claim_key c ∈ processed_claims w))
    (documentation_score c).

(** The values of [confidence] along an evaluation of [claim]. *)
Definition confidence_steps_of `{PyRuntime} (claim : ref) (w : World) : list float :=
  let c := heap w claim in
  confidence_steps (basic_info_ok c) (amount_ok c)
    (service_date_ok (now_at w) c)
    (bool_decide (claim_key c ∈ processed_claims w))
    (documentation_score c).

(** The entry of [details] for [claim], evaluated in state [w]. *)
Definition detail_of `{PyRuntime} (claim : ref) (w : World) : Detail :=
  let '(st, reasons, confidence) := decision_of claim w in
  {| d_claim_id := claim_id (heap w claim); d_status := st;
     d_reasons := reasons; d_confidence := confidence |}.

(** The entries for [claims] evaluated in turn from state [w], and the
    state left. *)
Fixpoint batch_details `{PyRuntime} (claims : list ref) (w : World)
  : list Detail * World :=
  match claims with
  | [] => ([], w)
  | claim :: rest =>
      let (ds, w') := batch_details rest (state_after claim w) in
      (detail_of claim w :: ds, w')
  end.

(** How many entries have status [st]. *)
Definition count_status (st : ClaimStatus) (ds : list Detail) : nat :=
  length (List.filter (fun d => bool_decide (d_status d = st)) ds).

(** The counters and details [r] with the entries [ds] taken into account. *)
Definition tally (r : BatchResults) (ds : list Detail) : BatchResults :=
  {| total := total r;
     approved := approved r + count_status APPROVED ds;
     rejected := rejected r + count_status REJECTED ds;
     under_review := under_review r + count_status UNDER_REVIEW ds;
     pending_info := pending_info r + count_status PENDING_INFO ds;
     details := details r ++ ds |}.

(** The state [evaluate_claim] leaves after being called on each of
    [claims] in turn, from state [w]. *)
Definition evaluate_each `{PyRuntime} (claims : list ref) (w : World) : World :=
  fold_left (fun w claim => snd (evaluate_claim claim w)) claims w.

(** A claim the pipeline approves when its key is new: valid basic
    information, an amount within the limit and below 1000, a service
    date acceptable at every reading of the clock, and complete
    documentation. *)
Definition approvable `{PyRuntime} (c : BaseClaim) : Prop :=
  basic_info_ok c = true
  /\ amount_ok c = true
  /\ (forall n, service_date_ok (UNIX_EPOCH + Z.of_N (clock_us n)) c = true)
  /\ has_description c = true
  /\ has_codes (diagnosis_codes c) = true
  /\ has_codes (procedure_codes c) = true
  /\ has_provider_id c = true
  /\ (total_amount c <? 1000)%float = true.

(** [evaluate_claim] on the object behind [claim], put in an entry. *)
Definition entry_of `{PyRuntime} (claim : ref) (w : World) : Detail :=
  let '(st, reasons, confidence) := fst (evaluate_claim claim w) in
  {| d_claim_id := claim_id (heap w claim); d_status := st;
     d_reasons := reasons; d_confidence := confidence |}.





(** The reason an evaluation gives when the duplicate check fires. *)
Definition DUPLICATE_REASON : string := "Potential duplicate claim detected".

End Outcome.

(** ** Example runtime, records and states

    Concrete inputs, used to exercise the properties below. *)

Module Examples.

Local Open Scope float_scope.

(** [datetime(y, m, d, h)] *)
Definition at_hour (y m d h : Z) : datetime :=
  ((ymd2ord y m d - 1) * US_PER_DAY + h * 3600 * 1000000)%Z.

(** A rendering of floats that agrees with [str] on the integral values of
    magnitude below 10^16, which are the only amounts of the examples. *)
Definition str_integral (x : float) : string :=
  match Prim2SF x with
  | S754_zero s => if s then "-0.0" else "0.0"
  | S754_infinity s => if s then "-inf" else "inf"
  | S754_nan => "nan"
  | S754_finite s m e =>
      (if s then "-" else "")
      +:+ (if (0 <=? e)%Z then pretty (Z.pos m * 2 ^ e)%Z +:+ ".0"
           else if (Z.pos m mod 2 ^ (- e) =? 0)%Z
                then pretty (Z.pos m / 2 ^ (- e))%Z +:+ ".0"
                else pretty (Z.pos m) +:+ "*2**" +:+ pretty e)
  end.

(** A clock that stands still at [t]. *)
Definition frozen_at (t : datetime) : PyRuntime :=
  {| float_str := str_integral;
     float_pct := fun x => str_integral (x * 100) +:+ "%";
     clock_us := fun _ => Z.to_N (t - UNIX_EPOCH) |}.

(** The clock of the examples stands at 2024-03-15T12:00:00. *)
Definition noon_2024_03_15 : PyRuntime := frozen_at (at_hour 2024 3 15 12).

(** A clock standing at 2024-02-29T12:00:00. *)
Definition noon_2024_02_29 : PyRuntime := frozen_at (at_hour 2024 2 29 12).

(** The complete claim of the test fixtures, for a patient and an amount. *)
Definition complete_claim (cid pid : string) (amount : float) : BaseClaim :=
  {| claim_id := Some cid;
     claim_type := MEDICAL;
     status := DRAFT;
     patient_name := "John Doe";
     patient_id := pid;
     date_of_birth := at_hour 1980 1 1 0;
     service_date := at_hour 2024 3 5 12;
     provider_name := "Test Hospital";
     provider_id := Some "1234567893"%string;
     total_amount := amount;
     currency := "USD";
     description := Some "Medical consultation"%string;
     diagnosis_codes := Some ["A00.1"%string];
     procedure_codes := Some ["99213"%string];
     created_at := at_hour 2024 3 15 12;
     updated_at := at_hour 2024 3 15 12;
     submitted_at := None |}.

Definition valid_claim : BaseClaim :=
  complete_claim "CLM-TEST-001" "PAT-123456" 500.

(** The same claim with another amount. *)
Definition with_amount (amount : float) (c : BaseClaim) : BaseClaim :=
  {| claim_id := claim_id c; claim_type := claim_type c; status := status c;
     patient_name := patient_name c; patient_id := patient_id c;
     date_of_birth := date_of_birth c; service_date := service_date c;
     provider_name := provider_name c; provider_id := provider_id c;
     total_amount := amount; currency := currency c;
     description := description c; diagnosis_codes := diagnosis_codes c;
     procedure_codes := procedure_codes c; created_at := created_at c;
     updated_at := updated_at c; submitted_at := submitted_at c |}.

(** The same claim with another patient name. *)
Definition with_patient_name (name : string) (c : BaseClaim) : BaseClaim :=
  {| claim_id := claim_id c; claim_type := claim_type c; status := status c;
     patient_name := name; patient_id := patient_id c;
     date_of_birth := date_of_birth c; service_date := service_date c;
     provider_name := provider_name c; provider_id := provider_id c;
     total_amount := total_amount c; currency := currency c;
     description := description c; diagnosis_codes := diagnosis_codes c;
     procedure_codes := procedure_codes c; created_at := created_at c;
     updated_at := updated_at c; submitted_at := submitted_at c |}.

(** The same claim with another service date. *)
Definition with_service_date (t : datetime) (c : BaseClaim) : BaseClaim :=
  {| claim_id := claim_id c; claim_type := claim_type c; status := status c;
     patient_name := patient_name c; patient_id := patient_id c;
     date_of_birth := date_of_birth c; service_date := t;
     provider_name := provider_name c; provider_id := provider_id c;
     total_amount := total_amount c; currency := currency c;
     description := description c; diagnosis_codes := diagnosis_codes c;
     procedure_codes := procedure_codes c; created_at := created_at c;
     updated_at := updated_at c; submitted_at := submitted_at c |}.

(** The same claim without description, codes and provider identifier. *)
Definition undocumented (c : BaseClaim) : BaseClaim :=
  {| claim_id := claim_id c; claim_type := claim_type c; status := status c;
     patient_name := patient_name c; patient_id := patient_id c;
     date_of_birth := date_of_birth c; service_date := service_date c;
     provider_name := provider_name c; provider_id := None;
     total_amount := total_amount c; currency := currency c;
     description := None; diagnosis_codes := Some [];
     procedure_codes := Some []; created_at := created_at c;
     updated_at := updated_at c; submitted_at := submitted_at c |}.

(** A fresh engine over a heap holding [objs] at references 0, 1, ... *)
Definition fresh_world (objs : list BaseClaim) : World :=
  {| heap := fun r => nth r objs valid_claim;
     processed_claims := ∅;
     decision_history := [];
     clock_reads := 0 |}.

(** The five claims of the batch scenario. *)
Definition batch_claims : list BaseClaim :=
  [ complete_claim "CLM-TEST-000" "PAT-000000" 500;
    complete_claim "CLM-TEST-001" "PAT-000001" 600;
    complete_claim "CLM-TEST-002" "PAT-000002" 700;
    complete_claim "CLM-TEST-003" "PAT-000003" 800;
    complete_claim "CLM-TEST-004" "PAT-000004" 900 ].

End Examples.

Import Outcome.

(** ** The Luhn checksum, position by position *)

Module LuhnSpec.

Import ClaimValidator.

(** What the loop of [_luhn_check] adds for a doubled digit [d]:
    [sum(digits_of(d * 2))]. *)
Definition doubled (d : Z) : Z := sum (digits_of_int (d * 2)).

(** The checksum [_luhn_check] computes from the digits of the number. *)
Definition checksum (digits : list Z) : Z :=
  fold_left (fun checksum d => checksum + doubled d)
    (every_other (tail (rev digits))) (sum (every_other (rev digits))).

(** The checksum read from the right: the digits at even distance from the
    last one count as they are, the others doubled; [dbl] tells whether the
    first digit of the list is a doubled one. *)
Fixpoint weighted (dbl : bool) (l : list Z) : Z :=
  match l with
  | [] => 0
  | d :: rest => (if dbl then doubled d else d) + weighted (negb dbl) rest
  end.

(** The character of a digit. *)
Definition digit_char (d : Z) : ascii := ascii_of_nat (Z.to_nat (48 + d)).

Definition is_digit (d : Z) : Prop := 0 <= d <= 9.

(** The characters [validate_provider_npi] keeps: all but white space and
    hyphens. *)
Definition kept (a : ascii) : bool := negb (space_or_hyphen a).

End LuhnSpec.

(** ** schemas/custom_claim.py *)

Module CustomClaim.

Import Schema.
Local Open Scope float_scope.

(** [FormExtraction.validate_confidence] *)
Definition validate_confidence (v : float) : validated float :=
  if v <? 0.5 then
    Invalid "Extraction confidence too low for automatic processing"
  else Valid v.

(** The field [extraction_confidence]: the constraints [ge=0] and [le=1] of
    its declaration, then the validator above. *)
Definition field_extraction_confidence (v : float) : validated float :=
  if negb (0 <=? v) then
    Invalid "ensure this value is greater than or equal to 0"
  else if negb (v <=? 1) then
    Invalid "ensure this value is less than or equal to 1"
  else validate_confidence v.

End CustomClaim.

(** ** Regular expressions, as the validators use them *)

Module Regex.

Section Alphabet.

Context {A : Type}.

(** Patterns over the characters [A]: no string, the empty string, one
    character of a class, concatenation, alternative, repetition. *)
Inductive re :=
  | Void
  | Eps
  | Class (p : A -> bool)
  | Cat (r s : re)
  | Alt (r s : re)
  | Star (r : re).

Fixpoint nullable (r : re) : bool :=
  match r with
  | Void => false
  | Eps => true
  | Class _ => false
  | Cat r s => nullable r && nullable s
  | Alt r s => nullable r || nullable s
  | Star _ => true
  end.

(** What is left of [r] to match after the character [a]. *)
Fixpoint deriv (a : A) (r : re) : re :=
  match r with
  | Void => Void
  | Eps => Void
  | Class p => if p a then Eps else Void
  | Cat r s =>
      if nullable r then Alt (Cat (deriv a r) s) (deriv a s)
      else Cat (deriv a r) s
  | Alt r s => Alt (deriv a r) (deriv a s)
  | Star r => Cat (deriv a r) (Star r)
  end.

(** Whether [r] matches the whole of [s]. *)
Fixpoint matches (r : re) (s : list A) : bool :=
  match s with
  | [] => nullable r
  | a :: s' => matches (deriv a r) s'
  end.

(** The strings of a pattern. *)
Inductive lang : re -> list A -> Prop :=
  | lang_eps : lang Eps []
  | lang_class p a : p a = true -> lang (Class p) [a]
  | lang_cat r s x y : lang r x -> lang s y -> lang (Cat r s) (x ++ y)
  | lang_alt_l r s x : lang r x -> lang (Alt r s) x
  | lang_alt_r r s x : lang s x -> lang (Alt r s) x
  | lang_star_nil r : lang (Star r) []
  | lang_star_cons r x y : lang r x -> lang (Star r) y -> lang (Star r) (x ++ y).

(** [r+], [r?], [r{n}], [r{0,n}], [r{m,n}] and [r{n,}] *)
Definition Plus (r : re) : re := Cat r (Star r).
Definition Opt (r : re) : re := Alt Eps r.

Fixpoint Repeat (n : nat) (r : re) : re :=
  match n with
  | O => Eps
  | S n' => Cat r (Repeat n' r)
  end.

Fixpoint Upto (n : nat) (r : re) : re :=
  match n with
  | O => Eps
  | S n' => Opt (Cat r (Upto n' r))
  end.

Definition Between (m n : nat) (r : re) : re := Cat (Repeat m r) (Upto (n - m) r).
Definition AtLeast (n : nat) (r : re) : re := Cat (Repeat n r) (Star r).

End Alphabet.

Arguments re A : clear implicits.

(** The string without its last character, when that is a line feed. *)
Definition before_final_newline {A} (is_newline : A -> bool) (s : list A)
  : option (list A) :=
  match rev s with
  | a :: rest => if is_newline a then Some (rev rest) else None
  | [] => None
  end.

(** [re.match(r'^R$', s)]: [R] takes the whole string, or all of it but a
    line feed that ends it. *)
Definition match_anchored {A} (is_newline : A -> bool) (r : re A) (s : list A)
  : bool :=
  matches r s
  || match before_final_newline is_newline s with
     | Some s' => matches r s'
     | None => false
     end.

End Regex.

(** ** Text as code points *)

Module PyText.

(** The code points of a string. *)
Definition code_points (s : string) : list N := map N_of_ascii (PyStr.chars s).

(** [c.upper()] for a code point below 256: one or two code points. *)
Definition upper_point (c : N) : list N :=
  if ((97 <=? c) && (c <=? 122))%N then [c - 32]%N
  else if (c =? 181)%N then [924%N]
  else if (c =? 223)%N then [83%N; 83%N]
  else if ((224 <=? c) && (c <=? 254) && negb (c =? 247))%N then [c - 32]%N
  else if (c =? 255)%N then [376%N]
  else [c].

(** [s.upper()] *)
Definition upper (s : list N) : list N := flat_map upper_point s.

Definition LINE_FEED : N := 10.

Definition is_newline (c : N) : bool := (c =? LINE_FEED)%N.
Definition is_digit (c : N) : bool := ((48 <=? c) && (c <=? 57))%N.
Definition is_upper (c : N) : bool := ((65 <=? c) && (c <=? 90))%N.
Definition is_lower (c : N) : bool := ((97 <=? c) && (c <=? 122))%N.
Definition is_char (a : ascii) (c : N) : bool := (c =? N_of_ascii a)%N.

(** [body] is [s], or [s] without the line feed that ends it. *)
Definition up_to_newline (body s : list N) : Prop :=
  s = body \/ s = body ++ [LINE_FEED].

End PyText.

(** ** utils/validators.py, the validators of formats *)

Module Formats.

Import Regex PyText.

(** [[A-Z0-9\-]] *)
Definition id_char (c : N) : bool := is_upper c || is_digit c || is_char "-" c.

(** [[A-Z0-9\-]+] *)
Definition PATIENT_ID : re N := Plus (Class id_char).

Definition validate_patient_id (patient_id : string) : bool * option string :=
  if negb (PyStr.truthy patient_id)
     || Nat.eqb (String.length (PyStr.strip patient_id)) 0
  then (false, Some "Patient ID cannot be empty"%string)
  else if (String.length patient_id <? 6)%nat || (20 <? String.length patient_id)%nat
  then (false, Some "Patient ID must be between 6 and 20 characters"%string)
  else if negb (match_anchored is_newline PATIENT_ID (upper (code_points patient_id)))
  then (false, Some "Patient ID must contain only letters, numbers, and hyphens"%string)
  else (true, None).

(** [[A-Z]\d{2}(?:\.\d{1,4})?] *)
Definition ICD10 : re N :=
  Cat (Class is_upper)
    (Cat (Repeat 2 (Class is_digit))
       (Opt (Cat (Class (is_char ".")) (Between 1 4 (Class is_digit))))).

Definition validate_diagnosis_code (code : string) : bool * option string :=
  if negb (PyStr.truthy code)
  then (false, Some "Diagnosis code cannot be empty"%string)
  else if negb (match_anchored is_newline ICD10 (upper (code_points code)))
  then (false, Some "Invalid ICD-10 code format (e.g., A00, A00.1, A00.12)"%string)
  else (true, None).

(** [\d{5}] *)
Definition CPT : re N := Repeat 5 (Class is_digit).

Definition validate_procedure_code (code : string) : bool * option string :=
  if negb (PyStr.truthy code)
  then (false, Some "Procedure code cannot be empty"%string)
  else if negb (match_anchored is_newline CPT (code_points code))
  then (false, Some "CPT code must be exactly 5 digits"%string)
  else (true, None).

(** A bound given as an integer or as a float. *)
Inductive number :=
  | Int (z : Z)
  | Float (x : float).

(** The value of a bound in comparisons with a float; an integer bound is
    taken between 0 and 2^53, where it is a float exactly. *)
Definition number_value (n : number) : float :=
  match n with
  | Int z => of_uint63 (Uint63.of_Z z)
  | Float x => x
  end.

(** [str(n)] *)
Definition number_str `{PyRuntime} (n : number) : string :=
  match n with
  | Int z => pretty z
  | Float x => float_str x
  end.

(** [validate_amount(amount, min_amount, max_amount)]; [!=] on floats is
    the negation of [==]. *)
Definition validate_amount `{PyRuntime} (amount : float) (min_amount max_amount : number)
  : bool * option string :=
  if (amount <? number_value min_amount)%float
  then (false, Some ("Amount must be at least $" +:+ number_str min_amount))
  else if (number_value max_amount <? amount)%float
  then (false, Some ("Amount cannot exceed $" +:+ number_str max_amount))
  else if negb (PyFloat.round2 amount =? amount)%float
  then (false, Some "Amount can have at most 2 decimal places"%string)
  else (true, None).

(** The defaults of [min_amount] and [max_amount]. *)
Definition DEFAULT_MIN_AMOUNT : number := Float 0.01.
Definition DEFAULT_MAX_AMOUNT : number := Int 1000000.






End Formats.

(** ** utils/helpers.py, the helpers on text *)

Module Helpers.

Import Regex.

Definition LINE_FEED : ascii := "010".

Definition is_newline (a : ascii) : bool := Ascii.eqb a LINE_FEED.

(** The class of one character. *)
Definition is_char (c : ascii) (a : ascii) : bool := Ascii.eqb a c.

(** [[a-zA-Z]] *)
Definition isalpha (a : ascii) : bool :=
  let n := nat_of_ascii a in
  (Nat.leb 65 n && Nat.leb n 90) || (Nat.leb 97 n && Nat.leb n 122).

(** [[a-zA-Z0-9]] *)
Definition isalnum (a : ascii) : bool := isalpha a || PyStr.isdigit a.

(** [[a-zA-Z0-9._%+-]] *)
Definition local_char (a : ascii) : bool :=
  isalnum a || is_char "." a || is_char "_" a || is_char "%" a || is_char "+" a || is_char "-" a.

(** [[a-zA-Z0-9.-]] *)
Definition domain_char (a : ascii) : bool := isalnum a || is_char "." a || is_char "-" a.

(** [[a-zA-Z0-9._%+-]+@[a-zA-Z0-9.-]+\.[a-zA-Z]{2,}] *)
Definition EMAIL : re ascii :=
  Cat (Plus (Class local_char))
    (Cat (Class (is_char "@"))
       (Cat (Plus (Class domain_char))
          (Cat (Class (is_char ".")) (AtLeast 2 (Class isalpha))))).

Definition validate_email (email : string) : bool :=
  match_anchored is_newline EMAIL (PyStr.chars email).

(** [[\s\-\(\)\.]] *)
Definition phone_separator (a : ascii) : bool :=
  PyStr.isspace a || is_char "-" a || is_char "(" a || is_char ")" a || is_char "." a.

(** [\+?\d{10,15}] *)
Definition PHONE : re ascii :=
  Cat (Opt (Class (is_char "+"))) (Between 10 15 (Class PyStr.isdigit)).

Definition validate_phone (phone : string) : bool :=
  let cleaned := PyStr.filter (fun a => negb (phone_separator a)) phone in
  match_anchored is_newline PHONE (PyStr.chars cleaned).

(** [re.sub(r'<[^>]+>', '', text)]: from a [<] that is followed by another
    character than [>], everything is dropped up to the next [>], when
    there is one. *)
Fixpoint remove_tags (text : string) : string :=
  match text with
  | EmptyString => EmptyString
  | String a rest =>
      if negb (Ascii.eqb a "<") then String a (remove_tags rest)
      else
        match rest with
        | EmptyString => String a (remove_tags rest)
        | String b inside =>
            if Ascii.eqb b ">" then String a (remove_tags rest)
            else
              (fix close (t : string) : string :=
                 match t with
                 | EmptyString => String a (remove_tags rest)
                 | String c t' =>
                     if Ascii.eqb c ">" then remove_tags t' else close t'
                 end) inside
        end
  end.

(** [re.sub(r'\s+', ' ', text)]; [in_run] tells that the character before
    was white space, for which the space has been written already. *)
Fixpoint collapse_spaces (in_run : bool) (text : string) : string :=
  match text with
  | EmptyString => EmptyString
  | String a rest =>
      if PyStr.isspace a then
        if in_run then collapse_spaces true rest
        else String " " (collapse_spaces true rest)
      else String a (collapse_spaces false rest)
  end.

Definition sanitize_text (text : string) : string :=
  let text := remove_tags text in
  let text := collapse_spaces false text in
  PyStr.strip text.

End Helpers.

(** What the properties of the helpers are stated with. *)
Module TextSpec.

(** [c in s] for a character. *)
Fixpoint mentions (c : ascii) (s : string) : bool :=
  match s with
  | EmptyString => false
  | String a s' => Ascii.eqb a c || mentions c s'
  end.

Definition starts_with (p : ascii -> bool) (s : string) : bool :=
  match s with
  | String a _ => p a
  | EmptyString => false
  end.

Fixpoint ends_with (p : ascii -> bool) (s : string) : bool :=
  match s with
  | EmptyString => false
  | String a EmptyString => p a
  | String _ s' => ends_with p s'
  end.

(** The rest of [s] after its first [>]. *)
Fixpoint after_close (s : string) : option string :=
  match s with
  | EmptyString => None
  | String a s' => if Ascii.eqb a ">" then Some s' else after_close s'
  end.

(** Every [<] of [s] is followed at once by [>], or by no [>] at all: no
    part of [s] is a tag. *)
Fixpoint tagless (s : string) : bool :=
  match s with
  | EmptyString => true
  | String a s' =>
      (negb (Ascii.eqb a "<") || starts_with (Helpers.is_char ">") s'
       || negb (mentions ">" s'))
      && tagless s'
  end.

(** The white space of [s] is made of spaces, no two of them in a row. *)
Fixpoint single_spaced (s : string) : bool :=
  match s with
  | EmptyString => true
  | String a s' =>
      (negb (PyStr.isspace a)
       || (Ascii.eqb a " " && negb (starts_with PyStr.isspace s')))
      && single_spaced s'
  end.

End TextSpec.

(** ** The heading of an explanation as its reader sees it *)

Module Explanation.

(** The name a status is printed with. *)
Definition status_name (st : ClaimStatus) : string :=
  match st with
  | DRAFT => "DRAFT"
  | SUBMITTED => "SUBMITTED"
  | UNDER_REVIEW => "UNDER_REVIEW"
  | APPROVED => "APPROVED"
  | REJECTED => "REJECTED"
  | PENDING_INFO => "PENDING_INFO"
  end.

End Explanation.

(** ** utils/helpers.py, [merge_dicts] *)

Module Dicts.

Section Values.

(** The values that are not dictionaries. *)
Context {A : Type}.

(** A value, and a dictionary as its items in the order of insertion. *)
Inductive value :=
  | Leaf (x : A)
  | Dict (d : dict)
with dict :=
  | Empty
  | Item (key : string) (v : value) (rest : dict).

Fixpoint keys (d : dict) : list string :=
  match d with
  | Empty => []
  | Item key _ rest => key :: keys rest
  end.

(** [d.get(key)] *)
Fixpoint get (key : string) (d : dict) : option value :=
  match d with
  | Empty => None
  | Item k v rest => if String.eqb k key then Some v else get key rest
  end.

(** [d[key] = v]: the value of a key that is there is replaced where it
    stands, a new key comes last. *)
Fixpoint set (key : string) (v : value) (d : dict) : dict :=
  match d with
  | Empty => Item key v Empty
  | Item k x rest =>
      if String.eqb k key then Item k v rest else Item k x (set key v rest)
  end.

(** [merge_dicts(dict1, dict2)]; along the loop over the items of [dict2],
    the first argument is [result]. *)
Fixpoint merge_dicts (dict1 dict2 : dict) {struct dict2} : dict :=
  match dict2 with
  | Empty => dict1
  | Item key v rest =>
      let result :=
        match get key dict1, v with
        | Some (Dict a), Dict b => set key (Dict (merge_dicts a b)) dict1
        | _, _ => set key v dict1
        end in
      merge_dicts result rest
  end.

(** [key in l] *)
Definition mem (key : string) (l : list string) : bool :=
  existsb (String.eqb key) l.

End Values.

Arguments value A : clear implicits.
Arguments dict A : clear implicits.

End Dicts.

(** * Properties *)

Section Strings.

Lemma append_assoc (a b c : string) : (a +:+ b) +:+ c = a +:+ b +:+ c.
Proof.
  induction a as [|x a IH]; [reflexivity|].
  change (String x ((a +:+ b) +:+ c) = String x (a +:+ b +:+ c)).
  f_equal. exact IH.
Qed.

Lemma contains_middle (pre sub post : string) :
  PyStr.contains sub (pre +:+ sub +:+ post).
Proof. exists pre, post. reflexivity. Qed.

Lemma contains_after (p sub s : string) :
  PyStr.contains sub s -> PyStr.contains sub (p +:+ s).
Proof.
  intros (pre & post & ->). exists (p +:+ pre), post.
  now rewrite append_assoc.
Qed.

Lemma amount_reason_exceeds (t : string) :
  PyStr.contains "exceeds" (Pipeline.amount_reason t).
Proof.
  unfold Pipeline.amount_reason.
  do 2 apply contains_after.
  exact (contains_middle " " "exceeds" " policy limit").
Qed.

Lemma amount_reason_amount (t : string) :
  PyStr.contains t (Pipeline.amount_reason t).
Proof. unfold Pipeline.amount_reason. apply contains_middle. Qed.

End Strings.

Section Floats.

(** Comparing in the other order gives the opposite answer. *)
Lemma SFcompare_swap (a b : spec_float) :
  SFcompare b a = option_map CompOpp (SFcompare a b).
Proof.
  destruct a as [sa|sa| |sa ma ea], b as [sb|sb| |sb mb eb];
    try reflexivity;
    try (destruct sa; reflexivity);
    try (destruct sb; reflexivity);
    try (destruct sa, sb; reflexivity).
  cbn [SFcompare option_map].
  destruct sa, sb; try reflexivity;
    rewrite (Z.compare_antisym ea eb);
    destruct (ea ?= eb)%Z; cbn [CompOpp]; try reflexivity;
    rewrite (Pos.compare_cont_antisym ma mb Eq); reflexivity.
Qed.

(** [x <= y] excludes [y < x]. *)
Lemma leb_not_gtb (x y : float) :
  (x <=? y)%float = true -> (y <? x)%float = false.
Proof.
  rewrite FloatAxioms.leb_spec, FloatAxioms.ltb_spec. unfold SFleb, SFltb.
  rewrite (SFcompare_swap (Prim2SF x) (Prim2SF y)).
  destruct (SFcompare (Prim2SF x) (Prim2SF y)) as [[ | | ]|];
    cbn [option_map CompOpp]; congruence.
Qed.

End Floats.

Section Rules.

Context `{PyRuntime}.
Import ClaimRules.

Lemma validate_basic_info_run claim w :
  validate_basic_info claim w = (basic_info_ok (heap w claim), w).
Proof.
  unfold validate_basic_info, basic_info_ok, bind, load, ret.
  destruct (all_required_fields _); simpl; [|reflexivity].
  destruct (_ <? _)%nat; reflexivity.
Qed.

Lemma check_amount_limit_run claim w :
  check_amount_limit claim w = (amount_ok (heap w claim), w).
Proof.
  unfold check_amount_limit, amount_ok, bind, load, ret.
  destruct (_ <? _)%float; simpl; [reflexivity|].
  destruct (_ <=? _)%float; reflexivity.
Qed.

Lemma check_service_date_run claim w :
  check_service_date claim w = (service_date_ok (now_at w) (heap w claim), tick w).
Proof.
  unfold check_service_date, service_date_ok, bind, load, ret, utcnow, now_at, tick.
  simpl.
  destruct (_ <? service_date _)%Z; simpl; [reflexivity|].
  destruct (service_date _ <? _)%Z; reflexivity.
Qed.

Lemma check_duplicate_run claim w :
  check_duplicate claim w =
  if decide (claim_key (heap w claim) ∈ processed_claims w) then (true, w)
  else (false, record_key (claim_key (heap w claim)) w).
Proof.
  unfold check_duplicate, bind, load, ret, get_processed_claims, add_processed_claim.
  destruct (decide _); reflexivity.
Qed.

Lemma has_codes_len codes : (0 <? len_or_empty codes)%nat = has_codes codes.
Proof. destruct codes as [[|x l]|]; reflexivity. Qed.

Lemma check_documentation_run claim w :
  check_documentation claim w = (documentation_score (heap w claim), w).
Proof.
  unfold check_documentation, documentation_score, bind, load, ret.
  unfold description_points, diagnosis_points, procedure_points,
    provider_points, amount_points.
  rewrite !has_codes_len.
  destruct (has_description _), (has_codes (diagnosis_codes _)),
    (has_codes (procedure_codes _)), (has_provider_id _),
    (5000 <? total_amount _)%float; reflexivity.
Qed.

End Rules.

Section Engine.

Context `{PyRuntime}.
Import ClaimRules DecisionEngine Pipeline.

Lemma evaluate_claim_run claim w :
  evaluate_claim claim w = (decision_of claim w, state_after claim w).
Proof.
  unfold evaluate_claim, decision_of, state_after, decide_claim, bind.
  rewrite validate_basic_info_run.
  destruct (basic_info_ok _); cbn [negb]; cbv beta iota; [|reflexivity].
  rewrite check_amount_limit_run.
  destruct (amount_ok _); cbn [negb]; cbv beta iota; [|reflexivity].
  rewrite check_service_date_run.
  destruct (service_date_ok _ _); cbn [negb]; cbv beta iota; [|reflexivity].
  rewrite check_duplicate_run.
  change (heap (tick w)) with (heap w).
  change (processed_claims (tick w)) with (processed_claims w).
  destruct (decide _) as [Hin|Hin].
  - rewrite (bool_decide_eq_true_2 _ Hin).
    rewrite check_documentation_run.
    change (heap (tick w)) with (heap w).
    destruct (_ <? 0.5)%float; [reflexivity|].
    unfold load, ret.
    change (heap (tick w)) with (heap w).
    destruct (_ && _); reflexivity.
  - rewrite (bool_decide_eq_false_2 _ Hin).
    rewrite check_documentation_run.
    change (heap (record_key _ (tick w))) with (heap w).
    destruct (_ <? 0.5)%float; [reflexivity|].
    unfold load, ret.
    change (heap (record_key _ (tick w))) with (heap w).
    destruct (_ && _); reflexivity.
Qed.

(** The decision alone, and the state alone. *)
Lemma evaluate_claim_decision claim w :
  fst (evaluate_claim claim w) = decision_of claim w.
Proof. now rewrite evaluate_claim_run. Qed.

Lemma evaluate_claim_state claim w :
  snd (evaluate_claim claim w) = state_after claim w.
Proof. now rewrite evaluate_claim_run. Qed.

(** C1: [evaluate_claim] is the ordered, short-circuiting pipeline of the
    specification over the outcomes of the five rules, each rule being
    run in the state the pipeline reaches it in; the reason of an amount
    rejection contains the amount; and a claim over the amount limit whose
    documentation score is below 0.5 is rejected for its amount as soon as
    its basic information is valid (the only earlier step), never flagged
    for documentation. *)
Theorem evaluate_claim_pipeline claim w :
  fst (evaluate_claim claim w)
  = decide_claim (float_str (total_amount (heap w claim)))
      (total_amount (heap w claim))
      (fst (validate_basic_info claim w))
      (fst (check_amount_limit claim w))
      (fst (check_service_date claim w))
      (fst (check_duplicate claim (snd (check_service_date claim w))))
      (fst (check_documentation claim w))
  /\ PyStr.contains (float_str (total_amount (heap w claim)))
       (amount_reason (float_str (total_amount (heap w claim))))
  /\ ((MAX_CLAIM_AMOUNT <? total_amount (heap w claim))%float = true ->
      (fst (check_documentation claim w) <? 0.5)%float = true ->
      fst (evaluate_claim claim w)
      = if fst (validate_basic_info claim w)
        then (REJECTED,
              [amount_reason (float_str (total_amount (heap w claim)))],
              1.0%float)
        else (PENDING_INFO,
              ["Missing or invalid basic information"%string], 0.0%float)).
Proof.
  rewrite evaluate_claim_decision, validate_basic_info_run,
    check_amount_limit_run, check_service_date_run, check_duplicate_run,
    check_documentation_run.
  cbn [fst snd].
  change (heap (tick w)) with (heap w).
  change (processed_claims (tick w)) with (processed_claims w).
  assert (Hdup :
    fst (if decide (claim_key (heap w claim) ∈ processed_claims w)
         then (true, tick w)
         else (false, record_key (claim_key (heap w claim)) (tick w)))
    = bool_decide (claim_key (heap w claim) ∈ processed_claims w)).
  { destruct (decide _) as [Hin|Hin]; cbn [fst];
      [now rewrite bool_decide_eq_true_2 | now rewrite bool_decide_eq_false_2]. }
  rewrite Hdup.
  split; [reflexivity|].
  split; [apply amount_reason_amount|].
  intros Hover _.
  unfold decision_of, decide_claim, amount_ok.
  rewrite Hover.
  destruct (basic_info_ok _); reflexivity.
Qed.

(** C2, as amended: a claim whose basic information is valid and whose
    amount exceeds the maximum is rejected with confidence 1.0 and a
    single reason, which contains the word [exceeds]. *)
Theorem over_limit_rejected claim w :
  fst (validate_basic_info claim w) = true ->
  (MAX_CLAIM_AMOUNT <? total_amount (heap w claim))%float = true ->
  exists reason,
    fst (evaluate_claim claim w) = (REJECTED, [reason], 1.0%float)
    /\ PyStr.contains "exceeds" reason.
Proof.
  rewrite validate_basic_info_run. cbn [fst]. intros Hbasic Hover.
  exists (amount_reason (float_str (total_amount (heap w claim)))).
  split; [|apply amount_reason_exceeds].
  rewrite evaluate_claim_decision.
  unfold decision_of, decide_claim, amount_ok.
  now rewrite Hbasic, Hover.
Qed.

(** C10: an evaluation leaves every claim object as it was, the claim it
    is given included (so the status of the record is not written), and
    leaves the history of the engine as it was; of the program's state it
    changes the ledger only, by recording at most the key of the claim.
    (The count of clock readings is the environment's, not the
    program's.) *)
Theorem evaluate_claim_frame claim w :
  heap (snd (evaluate_claim claim w)) = heap w
  /\ status (heap (snd (evaluate_claim claim w)) claim) = status (heap w claim)
  /\ decision_history (snd (evaluate_claim claim w)) = decision_history w
  /\ (processed_claims (snd (evaluate_claim claim w)) = processed_claims w
      \/ processed_claims (snd (evaluate_claim claim w))
         = {[claim_key (heap w claim)]} ∪ processed_claims w).
Proof.
  rewrite evaluate_claim_state. unfold state_after.
  destruct (basic_info_ok _); cbn [negb]; [|tauto].
  destruct (amount_ok _); cbn [negb]; [|tauto].
  destruct (service_date_ok _ _); cbn [negb]; [|cbn; tauto].
  destruct (decide _); cbn; tauto.
Qed.

(** The documentation score is one of eleven values between 0 and 1. *)
Lemma documentation_score_range c :
  (0 <=? documentation_score c)%float = true
  /\ (documentation_score c <=? 1)%float = true.
Proof.
  unfold documentation_score, description_points, diagnosis_points,
    procedure_points, provider_points, amount_points.
  destruct (has_description c), (has_codes (diagnosis_codes c)),
    (has_codes (procedure_codes c)), (has_provider_id c),
    (5000 <? total_amount c)%float; split; reflexivity.
Qed.

(** C7: the confidence an evaluation returns lies in [0, 1].  The values
    the variable [confidence] takes along the pipeline, followed by the
    value returned, start at 1.0 and never increase, the last of them
    being the confidence of the decision; the factors applied are 0.7 and
    the documentation score, both in [0, 1]. *)
Theorem confidence_bounds claim w :
  ((0 <=? confidence_of (fst (evaluate_claim claim w)))%float = true
   /\ (confidence_of (fst (evaluate_claim claim w)) <=? 1)%float = true)
  /\ ((0 <=? 0.7)%float = true /\ (0.7 <=? 1)%float = true)
  /\ ((0 <=? fst (check_documentation claim w))%float = true
      /\ (fst (check_documentation claim w) <=? 1)%float = true)
  /\ head (confidence_steps_of claim w) = Some 1.0%float
  /\ last (confidence_steps_of claim w)
     = Some (confidence_of (fst (evaluate_claim claim w)))
  /\ never_increases (confidence_steps_of claim w) = true.
Proof.
  rewrite evaluate_claim_decision, check_documentation_run. cbn [fst].
  unfold confidence_steps_of, decision_of, decide_claim, confidence_steps,
    confidence_of, duplicate_confidence.
  unfold documentation_score, description_points, diagnosis_points,
    procedure_points, provider_points, amount_points.
  destruct (basic_info_ok _), (amount_ok _), (service_date_ok _ _),
    (bool_decide _);
    destruct (has_description _), (has_codes (diagnosis_codes _)),
      (has_codes (procedure_codes _)), (has_provider_id _),
      (5000 <? total_amount _)%float;
    cbn [negb];
    try (repeat split; reflexivity);
    destruct (total_amount _ <? 1000)%float; repeat split; reflexivity.
Qed.

Lemma described_has_description c : has_description c = Scoring.described c.
Proof.
  unfold has_description, Scoring.described.
  destruct (description c) as [[|a text]|]; reflexivity.
Qed.

Lemma coded_has_codes codes : has_codes codes = Scoring.coded codes.
Proof. destruct codes as [[|code rest]|]; reflexivity. Qed.

Lemma identified_has_provider_id c : has_provider_id c = Scoring.identified c.
Proof.
  unfold has_provider_id, Scoring.identified.
  destruct (provider_id c) as [[|a text]|]; reflexivity.
Qed.

(** C4: the documentation score is [(d + g + p + v + b) / 5.0], with [d]
    being 1.0 for a description of more than 10 characters, [g] and [p]
    1.5 for at least one diagnosis code and one procedure code, [v] 0.5
    for a provider identifier, and [b] being 0.5 when the amount is at
    most 5000 and, above 5000, 0.5 only with both kinds of codes.  A claim
    of 600 with none of them scores 0.1; its evaluation returns
    [PENDING_INFO] when its service date is accepted, and [REJECTED] when
    its basic information is valid and its service date is refused: the
    date is looked at before the documentation. *)
Theorem documentation_score_formula claim w :
  (exists b : float,
      fst (check_documentation claim w)
      = ((Scoring.d (heap w claim) + Scoring.g (heap w claim)
          + Scoring.p (heap w claim) + Scoring.v (heap w claim)
          + b) / 5.0)%float
      /\ ((total_amount (heap w claim) <=? 5000)%float = true -> b = 0.5%float)
      /\ ((5000 <? total_amount (heap w claim))%float = true ->
          b = if Scoring.coded (diagnosis_codes (heap w claim))
                 && Scoring.coded (procedure_codes (heap w claim))
              then 0.5%float else 0%float))
  /\ (total_amount (heap w claim) = 600%float ->
      Scoring.described (heap w claim) = false ->
      Scoring.coded (diagnosis_codes (heap w claim)) = false ->
      Scoring.coded (procedure_codes (heap w claim)) = false ->
      Scoring.identified (heap w claim) = false ->
      fst (check_documentation claim w) = 0.1%float
      /\ (fst (check_service_date claim w) = true ->
          status_of (fst (evaluate_claim claim w)) = PENDING_INFO)
      /\ (fst (validate_basic_info claim w) = true ->
          fst (check_service_date claim w) = false ->
          status_of (fst (evaluate_claim claim w)) = REJECTED)).
Proof.
  rewrite check_documentation_run, check_service_date_run,
    validate_basic_info_run, evaluate_claim_decision. cbn [fst].
  unfold Scoring.d, Scoring.g, Scoring.p, Scoring.v.
  rewrite <- !coded_has_codes, <- described_has_description,
    <- identified_has_provider_id.
  split.
  - exists (amount_points (heap w claim)).
    split; [reflexivity|]. unfold amount_points. split.
    + intros Hle. now rewrite (leb_not_gtb _ _ Hle).
    + intros Hgt. now rewrite Hgt.
  - intros Hamt Hd Hg Hp Hv.
    assert (Hscore : documentation_score (heap w claim) = 0.1%float).
    { unfold documentation_score, description_points, diagnosis_points,
        procedure_points, provider_points, amount_points.
      rewrite Hamt, Hd, Hg, Hp, Hv. reflexivity. }
    split; [exact Hscore|].
    unfold decision_of, decide_claim, status_of, amount_ok.
    rewrite Hscore, Hamt. split.
    + intros Hdate. rewrite Hdate.
      destruct (basic_info_ok _), (bool_decide _); reflexivity.
    + intros Hbasic Hdate. rewrite Hbasic, Hdate. reflexivity.
Qed.

Lemma state_after_heap claim w : heap (state_after claim w) = heap w.
Proof.
  unfold state_after.
  destruct (basic_info_ok _); cbn [negb]; [|reflexivity].
  destruct (amount_ok _); cbn [negb]; [|reflexivity].
  destruct (service_date_ok _ _); cbn [negb]; [|reflexivity].
  destruct (decide _); reflexivity.
Qed.

Lemma count_status_cons st d ds :
  count_status st (d :: ds)
  = ((if bool_decide (d_status d = st) then 1 else 0) + count_status st ds)%nat.
Proof.
  unfold count_status. cbn [List.filter].
  destruct (bool_decide _); reflexivity.
Qed.

Lemma tally_step r d ds :
  tally (update_counters (d_status d) (append_detail d r)) ds = tally r (d :: ds).
Proof.
  unfold tally. rewrite !count_status_cons.
  destruct d as [cid st rs cf]. cbn [d_status].
  unfold update_counters, append_detail.
  destruct st; repeat (case_decide; try congruence);
    cbn [total approved rejected under_review pending_info details];
    rewrite <- app_assoc; cbn [app];
    repeat match goal with
           | |- context [bool_decide (?a = ?b)] =>
               first [ rewrite (bool_decide_eq_true_2 (a = b)) by reflexivity
                     | rewrite (bool_decide_eq_false_2 (a = b)) by discriminate ]
           end;
    f_equal; lia.
Qed.

Lemma process_batch_loop_run claims : forall r w,
  process_batch_loop claims r w
  = (tally r (fst (batch_details claims w)), snd (batch_details claims w)).
Proof.
  induction claims as [|claim rest IH]; intros r w.
  - cbn. unfold ret, tally. destruct r; cbn. f_equal. f_equal; try lia.
    now rewrite app_nil_r.
  - cbn [process_batch_loop batch_details]. unfold bind.
    rewrite evaluate_claim_run.
    unfold load.
    destruct (batch_details rest (state_after claim w)) as [ds w'] eqn:Hrest.
    cbn [fst snd].
    unfold detail_of.
    destruct (decision_of claim w) as [[st rs] cf] eqn:Hd.
    rewrite IH, Hrest. cbn [fst snd].
    f_equal. rewrite state_after_heap.
    exact (tally_step r (mkDetail (claim_id (heap w claim)) st rs cf) ds).
Qed.

Lemma process_batch_run claims w :
  process_batch claims w
  = ({| total := length claims;
        approved := count_status APPROVED (fst (batch_details claims w));
        rejected := count_status REJECTED (fst (batch_details claims w));
        under_review := count_status UNDER_REVIEW (fst (batch_details claims w));
        pending_info := count_status PENDING_INFO (fst (batch_details claims w));
        details := fst (batch_details claims w) |},
     snd (batch_details claims w)).
Proof. unfold process_batch. now rewrite process_batch_loop_run. Qed.

Lemma batch_details_length claims : forall w,
  length (fst (batch_details claims w)) = length claims.
Proof.
  induction claims as [|claim rest IH]; intros w; [reflexivity|].
  cbn [batch_details]. specialize (IH (state_after claim w)).
  destruct (batch_details rest _). cbn [fst length] in *. now rewrite IH.
Qed.

(** The state in which the [i]-th claim of a batch is evaluated is the one
    the batch of the claims before it leaves. *)
Lemma batch_details_lookup claims : forall w i claim,
  claims !! i = Some claim ->
  fst (batch_details claims w) !! i
  = Some (detail_of claim (snd (batch_details (take i claims) w))).
Proof.
  induction claims as [|c rest IH]; intros w i claim Hi; [discriminate|].
  destruct i as [|i].
  - injection Hi as ->. cbn [batch_details take].
    destruct (batch_details rest _). reflexivity.
  - cbn [take batch_details]. cbn in Hi.
    specialize (IH (state_after c w) i claim Hi).
    destruct (batch_details rest _) as [ds w1].
    destruct (batch_details (take i rest) _) as [ds2 w2].
    exact IH.
Qed.

Lemma decision_status claim w :
  status_of (decision_of claim w) = APPROVED
  \/ status_of (decision_of claim w) = REJECTED
  \/ status_of (decision_of claim w) = UNDER_REVIEW
  \/ status_of (decision_of claim w) = PENDING_INFO.
Proof.
  unfold decision_of, decide_claim, status_of.
  destruct (basic_info_ok _); cbn [negb]; [|cbn; tauto].
  destruct (amount_ok _); cbn [negb]; [|cbn; tauto].
  destruct (service_date_ok _ _); cbn [negb]; [|cbn; tauto].
  destruct (_ <? 0.5)%float; [cbn; tauto|].
  destruct (_ && _); cbn; tauto.
Qed.

Lemma detail_of_status claim w :
  d_status (detail_of claim w) = status_of (decision_of claim w).
Proof.
  unfold detail_of, status_of. now destruct (decision_of claim w) as [[st rs] cf].
Qed.

Lemma batch_details_counts claims : forall w,
  (count_status APPROVED (fst (batch_details claims w))
   + count_status REJECTED (fst (batch_details claims w))
   + count_status UNDER_REVIEW (fst (batch_details claims w))
   + count_status PENDING_INFO (fst (batch_details claims w)))%nat
  = length claims.
Proof.
  induction claims as [|claim rest IH]; intros w; [reflexivity|].
  cbn [batch_details]. specialize (IH (state_after claim w)).
  destruct (batch_details rest _) as [ds w']. cbn [fst] in *.
  rewrite !count_status_cons, detail_of_status. cbn [length].
  destruct (decision_status claim w) as [-> | [-> | [-> | ->]]];
    repeat match goal with
           | |- context [bool_decide (?a = ?b)] =>
               first [ rewrite (bool_decide_eq_true_2 (a = b)) by reflexivity
                     | rewrite (bool_decide_eq_false_2 (a = b)) by discriminate ]
           end; lia.
Qed.


Lemma entry_of_detail claim w : entry_of claim w = detail_of claim w.
Proof. unfold entry_of, detail_of. now rewrite evaluate_claim_decision. Qed.

Lemma approvable_decision claim w :
  approvable (heap w claim) ->
  claim_key (heap w claim) ∉ processed_claims w ->
  decision_of claim w
  = (APPROVED, ["Auto-approved: All criteria met"%string], 1.0%float)
  /\ state_after claim w = record_key (claim_key (heap w claim)) (tick w).
Proof.
  intros (Hb & Ha & Hd & Hdesc & Hdx & Hpx & Hprov & Hlow) Hfresh.
  unfold decision_of, state_after, decide_claim, now_at.
  rewrite Hb, Ha, Hd. cbn [negb].
  rewrite (bool_decide_eq_false_2 _ Hfresh).
  destruct (decide _) as [Hin|_]; [contradiction|].
  assert (Hscore : documentation_score (heap w claim) = 1.0%float).
  { unfold documentation_score, description_points, diagnosis_points,
      procedure_points, provider_points, amount_points.
    rewrite Hdesc, Hdx, Hpx, Hprov.
    destruct (5000 <? _)%float; reflexivity. }
  rewrite Hscore, Hlow. split; reflexivity.
Qed.

Lemma approvable_batch claims : forall w,
  Forall (fun claim => approvable (heap w claim)) claims ->
  NoDup (map (fun claim => claim_key (heap w claim)) claims) ->
  Forall (fun claim => claim_key (heap w claim) ∉ processed_claims w) claims ->
  count_status APPROVED (fst (batch_details claims w)) = length claims.
Proof.
  induction claims as [|claim rest IH]; intros w Hok Hnodup Hfresh; [reflexivity|].
  apply Forall_cons in Hok as [Hok1 Hok].
  apply Forall_cons in Hfresh as [Hfresh1 Hfresh].
  cbn [map] in Hnodup. apply NoDup_cons in Hnodup as [Hnotin Hnodup].
  destruct (approvable_decision claim w Hok1 Hfresh1) as [Hdec Hstate].
  cbn [batch_details].
  specialize (IH (state_after claim w)).
  rewrite Hstate in *.
  change (heap (record_key (claim_key (heap w claim)) (tick w))) with (heap w) in IH.
  destruct (batch_details rest _) as [ds w']. cbn [fst] in *.
  rewrite count_status_cons, detail_of_status, Hdec.
  cbn [status_of fst]. rewrite bool_decide_eq_true_2 by reflexivity.
  cbn [length]. f_equal. apply IH; [assumption|assumption|].
  apply Forall_forall. intros r Hr. cbn [processed_claims record_key tick].
  rewrite Forall_forall in Hfresh. specialize (Hfresh r Hr).
  assert (claim_key (heap w r) ≠ claim_key (heap w claim)).
  { intros Heq. apply Hnotin. rewrite <- Heq.
    apply list_elem_of_fmap. exists r. split; [reflexivity|assumption]. }
  intros [Hk%elem_of_singleton | Hk]%elem_of_union; contradiction.
Qed.

Lemma batch_details_state claims : forall w,
  snd (batch_details claims w) = evaluate_each claims w.
Proof.
  induction claims as [|claim rest IH]; intros w; [reflexivity|].
  cbn [batch_details evaluate_each fold_left].
  rewrite evaluate_claim_state.
  specialize (IH (state_after claim w)).
  destruct (batch_details rest (state_after claim w)). exact IH.
Qed.

(** C6: [process_batch] reports the number of claims as [total], and one
    entry per claim in [details], in the order of the input: the [i]-th
    entry holds the identifier of the [i]-th claim with the status,
    reasons and confidence [evaluate_claim] returns for it in the state
    that evaluating the claims before it, one after the other, has left;
    the batch leaves the state that evaluating all of them leaves.  Each
    of the four counters is the number of entries with its status, and
    they add up to [total].  A batch of claims that are complete, valid
    and below 1000, with keys that are new and distinct, is approved
    entirely. *)
Theorem process_batch_summary claims w :
  total (fst (process_batch claims w)) = length claims
  /\ length (details (fst (process_batch claims w))) = length claims
  /\ (forall i claim,
        claims !! i = Some claim ->
        details (fst (process_batch claims w)) !! i
        = Some (entry_of claim (evaluate_each (take i claims) w)))
  /\ snd (process_batch claims w) = evaluate_each claims w
  /\ approved (fst (process_batch claims w))
     = count_status APPROVED (details (fst (process_batch claims w)))
  /\ rejected (fst (process_batch claims w))
     = count_status REJECTED (details (fst (process_batch claims w)))
  /\ under_review (fst (process_batch claims w))
     = count_status UNDER_REVIEW (details (fst (process_batch claims w)))
  /\ pending_info (fst (process_batch claims w))
     = count_status PENDING_INFO (details (fst (process_batch claims w)))
  /\ (approved (fst (process_batch claims w))
      + rejected (fst (process_batch claims w))
      + under_review (fst (process_batch claims w))
      + pending_info (fst (process_batch claims w)))%nat
     = total (fst (process_batch claims w))
  /\ (Forall (fun claim => approvable (heap w claim)) claims ->
      NoDup (map (fun claim => claim_key (heap w claim)) claims) ->
      Forall (fun claim => claim_key (heap w claim) ∉ processed_claims w) claims ->
      approved (fst (process_batch claims w)) = length claims).
Proof.
  rewrite process_batch_run.
  cbn [fst snd total approved rejected under_review pending_info details].
  repeat apply conj; try reflexivity.
  - apply batch_details_length.
  - intros i claim Hi. rewrite <- batch_details_state, entry_of_detail.
    now apply batch_details_lookup.
  - apply batch_details_state.
  - apply batch_details_counts.
  - apply approvable_batch.
Qed.

Lemma state_after_ledger claim w :
  processed_claims w ⊆ processed_claims (state_after claim w).
Proof.
  unfold state_after.
  destruct (basic_info_ok _); cbn [negb]; [|reflexivity].
  destruct (amount_ok _); cbn [negb]; [|reflexivity].
  destruct (service_date_ok _ _); cbn [negb]; [|reflexivity].
  destruct (decide _); [reflexivity|].
  cbn [processed_claims record_key tick]. apply union_subseteq_r.
Qed.



Lemma batch_details_ledger claims : forall w,
  processed_claims w ⊆ processed_claims (snd (batch_details claims w)).
Proof.
  induction claims as [|claim rest IH]; intros w; [reflexivity|].
  cbn [batch_details]. specialize (IH (state_after claim w)).
  destruct (batch_details rest _) as [ds w']. cbn [snd] in *.
  etransitivity; [apply state_after_ledger | exact IH].
Qed.

Lemma get_decision_explanation_run claim w :
  get_decision_explanation claim w
  = (render (decision_of claim w), state_after claim w).
Proof.
  unfold get_decision_explanation, bind, ret. now rewrite evaluate_claim_run.
Qed.




End Engine.

Section Construction.

Import Schema.

Lemma errors_then_none_created {A} (before after : list string) (msg : string)
    (ok : A) :
  exists errs,
    match before ++ [msg] ++ after with
    | [] => inr ok
    | e :: es => inl (e :: es)
    end = inl errs.
Proof. destruct before; cbn; eauto. Qed.

(** The part of fail-fast creation that holds: no record is created from a
    total amount that is not positive or exceeds 1000000, nor from a service
    date later than the reading of the clock. *)
Lemma create_fails_fast (now : datetime) (raw : BaseClaim) :
  (total_amount raw <=? 0)%float = true
  \/ (1000000 <? total_amount raw)%float = true
  \/ (now <? service_date raw) = true ->
  exists errs, create now raw = inl errs.
Proof.
  intros Hbad. unfold create.
  assert (Hcase :
    (exists msg, field_total_amount (total_amount raw) = Invalid msg)
    \/ (exists msg, validate_service_date now (service_date raw) = Invalid msg)).
  { destruct Hbad as [Hle | [Hgt | Hfuture]].
    - left. unfold field_total_amount. rewrite (leb_not_gtb _ _ Hle). eauto.
    - left. unfold field_total_amount, validate_amount. rewrite Hgt.
      destruct (0 <? _)%float; [destruct (_ <=? 0)%float|]; eauto.
    - right. unfold validate_service_date. rewrite Hfuture. eauto. }
  destruct Hcase as [[msg Hmsg] | [msg Hmsg]]; rewrite Hmsg; cbn [errors_of].
  - rewrite (app_assoc (errors_of _) (errors_of _)).
    apply errors_then_none_created.
  - apply errors_then_none_created.
Qed.

End Construction.

Section Scenarios.

Import ClaimRules DecisionEngine Pipeline Examples.

(** An over-limit claim without documentation, evaluated by a fresh
    engine, is rejected for its amount. *)
Lemma evaluate_claim_pipeline_witness :
  fst (evaluate_claim (H := noon_2024_03_15) 0%nat
         (fresh_world [undocumented (with_amount 150000 valid_claim)]))
  = (REJECTED, ["Claim amount $150000.0 exceeds policy limit"%string], 1.0%float).
Proof.
  destruct (evaluate_claim_pipeline (H := noon_2024_03_15) 0%nat
              (fresh_world [undocumented (with_amount 150000 valid_claim)]))
    as (_ & _ & Hrej).
  rewrite Hrej; [reflexivity | reflexivity | reflexivity].
Defined.

(** C2 fails as stated: a claim of 150000 with an empty patient name is
    over the limit, yet it is not rejected; the pipeline stops at the check
    of the basic information. *)
Lemma over_limit_not_rejected :
  (MAX_CLAIM_AMOUNT
   <? total_amount (with_patient_name "" (with_amount 150000 valid_claim)))%float
  = true
  /\ fst (evaluate_claim (H := noon_2024_03_15) 0%nat
            (fresh_world [with_patient_name "" (with_amount 150000 valid_claim)]))
     = (PENDING_INFO, ["Missing or invalid basic information"%string], 0.0%float).
Proof. split; reflexivity. Qed.

Lemma over_limit_rejected_witness :
  exists reason,
    fst (evaluate_claim (H := noon_2024_03_15) 0%nat
           (fresh_world [with_amount 150000 valid_claim]))
    = (REJECTED, [reason], 1.0%float)
    /\ PyStr.contains "exceeds" reason.
Proof.
  apply (over_limit_rejected (H := noon_2024_03_15) 0%nat
           (fresh_world [with_amount 150000 valid_claim]));
    reflexivity.
Defined.

(** A claim of 600 without description, codes and provider identifier. *)
Lemma documentation_score_formula_witness :
  fst (check_documentation 0%nat
         (fresh_world [undocumented (with_amount 600 valid_claim)]))
  = 0.1%float
  /\ status_of (fst (evaluate_claim (H := noon_2024_03_15) 0%nat
                       (fresh_world [undocumented (with_amount 600 valid_claim)])))
     = PENDING_INFO.
Proof.
  destruct (documentation_score_formula (H := noon_2024_03_15) 0%nat
              (fresh_world [undocumented (with_amount 600 valid_claim)]))
    as (_ & Hscenario).
  destruct Hscenario as (Hscore & Hpending & _); try reflexivity.
  split; [exact Hscore | apply Hpending; reflexivity].
Defined.

(** C4 fails as stated: a claim of 600 without description, codes and
    provider identifier, whose service date is 400 days before the clock,
    scores 0.1 and is rejected, not left pending: the pipeline stops at the
    check of the service date. *)
Lemma undocumented_not_pending :
  total_amount
    (with_service_date (at_hour 2023 2 9 12)
       (undocumented (with_amount 600 valid_claim))) = 600%float
  /\ description
       (with_service_date (at_hour 2023 2 9 12)
          (undocumented (with_amount 600 valid_claim))) = None
  /\ diagnosis_codes
       (with_service_date (at_hour 2023 2 9 12)
          (undocumented (with_amount 600 valid_claim))) = Some []
  /\ procedure_codes
       (with_service_date (at_hour 2023 2 9 12)
          (undocumented (with_amount 600 valid_claim))) = Some []
  /\ provider_id
       (with_service_date (at_hour 2023 2 9 12)
          (undocumented (with_amount 600 valid_claim))) = None
  /\ fst (check_documentation 0%nat
            (fresh_world [with_service_date (at_hour 2023 2 9 12)
                            (undocumented (with_amount 600 valid_claim))]))
     = 0.1%float
  /\ fst (evaluate_claim (H := noon_2024_03_15) 0%nat
            (fresh_world [with_service_date (at_hour 2023 2 9 12)
                            (undocumented (with_amount 600 valid_claim))]))
     = (REJECTED, ["Service date is outside acceptable range"%string], 1.0%float).
Proof. repeat split; reflexivity. Qed.

(** The batch of the scenario: five complete claims of 500 to 900 for
    five patients, given to a fresh engine. *)
Lemma process_batch_summary_witness :
  approved (fst (process_batch (H := noon_2024_03_15) [0; 1; 2; 3; 4]%nat
                   (fresh_world batch_claims))) = 5%nat
  /\ total (fst (process_batch (H := noon_2024_03_15) [0; 1; 2; 3; 4]%nat
                   (fresh_world batch_claims))) = 5%nat.
Proof.
  destruct (process_batch_summary (H := noon_2024_03_15) [0; 1; 2; 3; 4]%nat
              (fresh_world batch_claims))
    as (Htotal & _ & _ & _ & _ & _ & _ & _ & _ & Happroved).
  split; [|exact Htotal].
  apply Happroved.
  - repeat constructor; intros n; reflexivity.
  - apply (bool_decide_unpack _). vm_compute. exact I.
  - repeat constructor; apply not_elem_of_empty.
Defined.


(** C5: the checksum over the ten digits of [1234567893] is 46, so the Luhn
    check fails and the validator rejects the identifier with the checksum
    error, as it does [1234567890], whose checksum is 43; an identifier
    whose checksum is a multiple of ten, such as [1234567897], is
    accepted. *)
Theorem luhn_rejects_1234567893 :
  ClaimValidator._luhn_check "1234567893" = Some false
  /\ ClaimValidator.validate_provider_npi "1234567893"
     = Some (false, Some "Invalid NPI checksum"%string)
  /\ ClaimValidator._luhn_check "1234567890" = Some false
  /\ ClaimValidator.validate_provider_npi "1234567890"
     = Some (false, Some "Invalid NPI checksum"%string)
  /\ ClaimValidator.validate_provider_npi "1234567897" = Some (true, None).
Proof. repeat apply conj; reflexivity. Qed.

(** C8: a record created with a total amount of 0.004 passes the checks of
    the amount, which come before the rounding, and stores 0.0, which is not
    positive. *)
Theorem create_stores_zero_amount :
  (0 <? 0.004)%float = true
  /\ Schema.field_total_amount 0.004 = Schema.Valid 0%float
  /\ (exists c,
        Schema.create (at_hour 2024 3 15 12) (with_amount 0.004 valid_claim) = inr c
        /\ total_amount c = 0%float
        /\ (0 <? total_amount c)%float = false
        /\ ClaimRules.all_required_fields c = false).
Proof.
  split; [reflexivity|]. split; [reflexivity|].
  eexists. split; [reflexivity|]. repeat apply conj; reflexivity.
Qed.

(** C9: on 2024-02-29 the date-range validator raises instead of returning
    a pair, whatever the range it is given as long as the start does not
    come after the end: the day does not exist ten years earlier. *)
Theorem validate_date_range_raises_on_leap_day :
  forall (start_date end_date : datetime) (w : World),
    (end_date <? start_date) = false ->
    fst (ClaimValidator.validate_date_range (H := noon_2024_02_29)
           start_date end_date w)
    = None.
Proof.
  intros start_date end_date w Hle.
  unfold ClaimValidator.validate_date_range. rewrite Hle.
  reflexivity.
Qed.

Lemma validate_date_range_raises_on_leap_day_witness :
  fst (ClaimValidator.validate_date_range (H := noon_2024_02_29)
         (at_hour 2024 2 1 0) (at_hour 2024 2 28 0) (fresh_world []))
  = None.
Proof.
  apply (validate_date_range_raises_on_leap_day
           (at_hour 2024 2 1 0) (at_hour 2024 2 28 0) (fresh_world [])).
  reflexivity.
Defined.

End Scenarios.

Section FloatOrder.

(** [x < y] excludes [y <= x] and [y < x]. *)
Lemma ltb_not_geb (x y : float) :
  (x <? y)%float = true -> (y <=? x)%float = false.
Proof.
  rewrite FloatAxioms.leb_spec, FloatAxioms.ltb_spec. unfold SFleb, SFltb.
  rewrite (SFcompare_swap (Prim2SF x) (Prim2SF y)).
  destruct (SFcompare (Prim2SF x) (Prim2SF y)) as [[ | | ]|];
    cbn [option_map CompOpp]; congruence.
Qed.

Lemma ltb_not_gtb (x y : float) :
  (x <? y)%float = true -> (y <? x)%float = false.
Proof.
  rewrite !FloatAxioms.ltb_spec. unfold SFltb.
  rewrite (SFcompare_swap (Prim2SF x) (Prim2SF y)).
  destruct (SFcompare (Prim2SF x) (Prim2SF y)) as [[ | | ]|];
    cbn [option_map CompOpp]; congruence.
Qed.

End FloatOrder.

Section EngineMore.

Context `{PyRuntime}.
Import ClaimRules DecisionEngine Pipeline.



Ltac split_score c :=
  unfold documentation_score, description_points, diagnosis_points,
    procedure_points, provider_points, amount_points;
  destruct (has_description c), (has_codes (diagnosis_codes c)),
    (has_codes (procedure_codes c)), (has_provider_id c),
    (5000 <? total_amount c)%float.

(** X2: the confidence goes with the status: a rejection comes with
    confidence 1.0 and a single reason, [PENDING_INFO] with a confidence
    below 0.5, an approval with a confidence above 0.8 on an amount below
    1000, and [UNDER_REVIEW] with a confidence of at least 0.35. *)
Theorem confidence_by_status claim w :
  (status_of (fst (evaluate_claim claim w)) = REJECTED ->
   confidence_of (fst (evaluate_claim claim w)) = 1.0%float
   /\ length (reasons_of (fst (evaluate_claim claim w))) = 1%nat)
  /\ (status_of (fst (evaluate_claim claim w)) = PENDING_INFO ->
      (confidence_of (fst (evaluate_claim claim w)) <? 0.5)%float = true)
  /\ (status_of (fst (evaluate_claim claim w)) = APPROVED ->
      (0.8 <? confidence_of (fst (evaluate_claim claim w)))%float = true
      /\ (total_amount (heap w claim) <? 1000)%float = true)
  /\ (status_of (fst (evaluate_claim claim w)) = UNDER_REVIEW ->
      (0.35 <=? confidence_of (fst (evaluate_claim claim w)))%float = true).
Proof.
  rewrite evaluate_claim_decision.
  unfold decision_of, decide_claim, status_of, confidence_of, reasons_of,
    duplicate_confidence.
  destruct (basic_info_ok _); cbn [negb fst snd];
    [|repeat apply conj; intros; try discriminate; reflexivity].
  destruct (amount_ok _); cbn [negb fst snd];
    [|repeat apply conj; intros; try discriminate; split; reflexivity].
  destruct (service_date_ok _ _); cbn [negb fst snd];
    [|repeat apply conj; intros; try discriminate; split; reflexivity].
  destruct (total_amount (heap w claim) <? 1000)%float;
    destruct (bool_decide _); split_score (heap w claim);
    repeat apply conj; intros Hst; try discriminate Hst;
    try reflexivity; try (split; reflexivity).
Qed.

(** X3: a claim whose key is already in the ledger is never approved;
    when it passes the three leading checks its decision carries the
    duplicate notice and a confidence of at most 0.7. *)
Theorem known_key_never_approved claim w :
  claim_key (heap w claim) ∈ processed_claims w ->
  status_of (fst (evaluate_claim claim w)) <> APPROVED
  /\ (fst (validate_basic_info claim w) = true ->
      fst (check_amount_limit claim w) = true ->
      fst (check_service_date claim w) = true ->
      DUPLICATE_REASON ∈ reasons_of (fst (evaluate_claim claim w))
      /\ (confidence_of (fst (evaluate_claim claim w)) <=? 0.7)%float = true).
Proof.
  intros Hin.
  rewrite evaluate_claim_decision, validate_basic_info_run,
    check_amount_limit_run, check_service_date_run. cbn [fst].
  unfold decision_of, decide_claim, status_of, confidence_of, reasons_of,
    duplicate_confidence, duplicate_reasons.
  rewrite (bool_decide_eq_true_2 _ Hin).
  destruct (basic_info_ok _); cbn [negb fst snd];
    [|split; [discriminate|intros; discriminate]].
  destruct (amount_ok _); cbn [negb fst snd];
    [|split; [discriminate|intros; discriminate]].
  destruct (service_date_ok _ _); cbn [negb fst snd];
    [|split; [discriminate|intros; discriminate]].
  destruct (total_amount (heap w claim) <? 1000)%float;
    split_score (heap w claim);
    (split; [discriminate | intros _ _ _; split; [apply elem_of_cons; now left | reflexivity]]).
Qed.

(** X4: an approved claim has a description of more than ten
    characters, a diagnosis code and a procedure code, and a key that was
    not in the ledger before and is in it afterwards; its confidence is 0.9
    or 1.0 and its only reason is the approval. *)
Theorem approved_means_documented claim w :
  status_of (fst (evaluate_claim claim w)) = APPROVED ->
  has_description (heap w claim) = true
  /\ has_codes (diagnosis_codes (heap w claim)) = true
  /\ has_codes (procedure_codes (heap w claim)) = true
  /\ (claim_key (heap w claim) ∉ processed_claims w)
  /\ (claim_key (heap w claim) ∈ processed_claims (snd (evaluate_claim claim w)))
  /\ (confidence_of (fst (evaluate_claim claim w)) = 0.9%float
      \/ confidence_of (fst (evaluate_claim claim w)) = 1.0%float)
  /\ reasons_of (fst (evaluate_claim claim w))
     = ["Auto-approved: All criteria met"%string].
Proof.
  rewrite evaluate_claim_decision, evaluate_claim_state.
  unfold decision_of, state_after, decide_claim, status_of, confidence_of,
    reasons_of, duplicate_confidence, duplicate_reasons.
  destruct (basic_info_ok _); cbn [negb fst snd]; [|discriminate].
  destruct (amount_ok _); cbn [negb fst snd]; [|discriminate].
  destruct (service_date_ok _ _); cbn [negb fst snd]; [|discriminate].
  destruct (decide _) as [Hin|Hout].
  - rewrite (bool_decide_eq_true_2 _ Hin).
    destruct (total_amount (heap w claim) <? 1000)%float;
      split_score (heap w claim); discriminate.
  - rewrite (bool_decide_eq_false_2 _ Hout).
    assert (Hrec : claim_key (heap w claim)
              ∈ processed_claims (record_key (claim_key (heap w claim)) (tick w))).
    { cbn [processed_claims record_key]. apply elem_of_union_l, elem_of_singleton.
      reflexivity. }
    destruct (total_amount (heap w claim) <? 1000)%float;
      split_score (heap w claim); intros Hst; try discriminate Hst;
      (repeat apply conj; try reflexivity; try assumption;
       first [left; reflexivity | right; reflexivity]).
Qed.


Lemma batch_details_app l1 : forall l2 w,
  batch_details (l1 ++ l2) w
  = (fst (batch_details l1 w) ++ fst (batch_details l2 (snd (batch_details l1 w))),
     snd (batch_details l2 (snd (batch_details l1 w)))).
Proof.
  induction l1 as [|claim rest IH]; intros l2 w.
  - cbn. now destruct (batch_details l2 w).
  - cbn [app batch_details]. rewrite IH.
    destruct (batch_details rest (state_after claim w)) as [ds w1].
    reflexivity.
Qed.

Lemma count_status_app st l1 l2 :
  count_status st (l1 ++ l2) = (count_status st l1 + count_status st l2)%nat.
Proof. unfold count_status. now rewrite List.filter_app, length_app. Qed.

(** X6: a batch made of two batches is the first batch followed by the
    second one run in the state the first leaves: the details are those of
    the first followed by those of the second, and [total] and the four
    counters add up. *)
Theorem process_batch_app l1 l2 w :
  snd (process_batch (l1 ++ l2) w)
  = snd (process_batch l2 (snd (process_batch l1 w)))
  /\ details (fst (process_batch (l1 ++ l2) w))
     = details (fst (process_batch l1 w))
       ++ details (fst (process_batch l2 (snd (process_batch l1 w))))
  /\ total (fst (process_batch (l1 ++ l2) w))
     = (total (fst (process_batch l1 w))
        + total (fst (process_batch l2 (snd (process_batch l1 w)))))%nat
  /\ approved (fst (process_batch (l1 ++ l2) w))
     = (approved (fst (process_batch l1 w))
        + approved (fst (process_batch l2 (snd (process_batch l1 w)))))%nat
  /\ rejected (fst (process_batch (l1 ++ l2) w))
     = (rejected (fst (process_batch l1 w))
        + rejected (fst (process_batch l2 (snd (process_batch l1 w)))))%nat
  /\ under_review (fst (process_batch (l1 ++ l2) w))
     = (under_review (fst (process_batch l1 w))
        + under_review (fst (process_batch l2 (snd (process_batch l1 w)))))%nat
  /\ pending_info (fst (process_batch (l1 ++ l2) w))
     = (pending_info (fst (process_batch l1 w))
        + pending_info (fst (process_batch l2 (snd (process_batch l1 w)))))%nat.
Proof.
  rewrite !process_batch_run.
  cbn [fst snd total approved rejected under_review pending_info details].
  rewrite batch_details_app. cbn [fst snd].
  rewrite !count_status_app, length_app.
  repeat apply conj; reflexivity.
Qed.

Lemma batch_details_heap claims : forall w,
  heap (snd (batch_details claims w)) = heap w.
Proof.
  induction claims as [|claim rest IH]; intros w; [reflexivity|].
  cbn [batch_details]. specialize (IH (state_after claim w)).
  destruct (batch_details rest _) as [ds w']. cbn [snd] in *.
  now rewrite IH, state_after_heap.
Qed.

Lemma state_after_history claim w :
  decision_history (state_after claim w) = decision_history w.
Proof.
  unfold state_after.
  destruct (basic_info_ok _); cbn [negb]; [|reflexivity].
  destruct (amount_ok _); cbn [negb]; [|reflexivity].
  destruct (service_date_ok _ _); cbn [negb]; [|reflexivity].
  destruct (decide _); reflexivity.
Qed.

Lemma state_after_ledger_upper claim w :
  processed_claims (state_after claim w)
  ⊆ {[claim_key (heap w claim)]} ∪ processed_claims w.
Proof.
  unfold state_after.
  destruct (basic_info_ok _); cbn [negb]; [|apply union_subseteq_r].
  destruct (amount_ok _); cbn [negb]; [|apply union_subseteq_r].
  destruct (service_date_ok _ _); cbn [negb]; [|apply union_subseteq_r].
  destruct (decide _); [apply union_subseteq_r|reflexivity].
Qed.

Lemma state_after_clock claim w :
  (clock_reads w <= clock_reads (state_after claim w) <= S (clock_reads w))%nat.
Proof.
  unfold state_after.
  destruct (basic_info_ok _); cbn [negb]; [|lia].
  destruct (amount_ok _); cbn [negb]; [|lia].
  destruct (service_date_ok _ _); cbn [negb]; [|cbn; lia].
  destruct (decide _); cbn; lia.
Qed.

Lemma batch_details_frame claims : forall w,
  decision_history (snd (batch_details claims w)) = decision_history w
  /\ processed_claims (snd (batch_details claims w))
     ⊆ list_to_set (map (fun claim => claim_key (heap w claim)) claims)
       ∪ processed_claims w
  /\ (clock_reads w <= clock_reads (snd (batch_details claims w))
      <= clock_reads w + length claims)%nat.
Proof.
  induction claims as [|claim rest IH]; intros w.
  - cbn. split; [reflexivity|]. split; [apply union_subseteq_r | lia].
  - cbn [batch_details]. specialize (IH (state_after claim w)).
    destruct (batch_details rest _) as [ds w']. cbn [snd] in *.
    destruct IH as (Hh & Hl & Hc).
    rewrite state_after_heap in Hl.
    pose proof (state_after_ledger_upper claim w) as Hup.
    pose proof (state_after_clock claim w) as Hck.
    split; [now rewrite Hh, state_after_history|].
    split; [|cbn [length]; lia].
    cbn [map list_to_set].
    intros k Hk. apply Hl in Hk.
    apply elem_of_union in Hk as [Hk|Hk].
    + apply elem_of_union_l, elem_of_union_r, Hk.
    + apply Hup in Hk. apply elem_of_union in Hk as [Hk|Hk].
      * apply elem_of_union_l, elem_of_union_l, Hk.
      * apply elem_of_union_r, Hk.
Qed.

(** X7: a batch leaves the claim objects and the history of the engine
    as they were; it takes no key out of the ledger, records no key other
    than those of its claims, and reads the clock at most once per claim. *)
Theorem process_batch_frame claims w :
  heap (snd (process_batch claims w)) = heap w
  /\ decision_history (snd (process_batch claims w)) = decision_history w
  /\ processed_claims w ⊆ processed_claims (snd (process_batch claims w))
  /\ processed_claims (snd (process_batch claims w))
     ⊆ list_to_set (map (fun claim => claim_key (heap w claim)) claims)
       ∪ processed_claims w
  /\ (clock_reads w <= clock_reads (snd (process_batch claims w))
      <= clock_reads w + length claims)%nat.
Proof.
  rewrite process_batch_run. cbn [snd].
  destruct (batch_details_frame claims w) as (Hh & Hl & Hc).
  repeat apply conj; try assumption.
  - apply batch_details_heap.
  - apply batch_details_ledger.
  - apply Hc.
  - apply Hc.
Qed.

Lemma requires_manual_review_run claim w :
  requires_manual_review claim w
  = if (AUTO_APPROVE_THRESHOLD <? total_amount (heap w claim))%float then (true, w)
    else if (documentation_score (heap w claim) <? MIN_DOCUMENTATION_SCORE)%float
         then (true, w)
         else if decide (claim_key (heap w claim) ∈ processed_claims w) then (true, w)
              else (false, record_key (claim_key (heap w claim)) w).
Proof.
  unfold requires_manual_review, bind, load, ret.
  destruct (_ <? _)%float; [reflexivity|].
  rewrite check_documentation_run.
  destruct (_ <? _)%float; [reflexivity|].
  rewrite check_duplicate_run.
  destruct (decide _); reflexivity.
Qed.

(** X8: [requires_manual_review] asks for a review of every claim whose
    key is in the ledger.  So its second call on a claim always answers
    true, as does a call after [check_duplicate]; and when it answers
    false the claim has been recorded, so that [check_duplicate] then
    reports a duplicate. *)
Theorem requires_manual_review_second_call claim w :
  fst (requires_manual_review claim (snd (requires_manual_review claim w))) = true
  /\ (claim_key (heap w claim) ∈ processed_claims w ->
      fst (requires_manual_review claim w) = true)
  /\ fst (requires_manual_review claim (snd (check_duplicate claim w))) = true
  /\ (fst (requires_manual_review claim w) = false ->
      fst (check_duplicate claim (snd (requires_manual_review claim w))) = true).
Proof.
  assert (Hknown : forall w', heap w' = heap w ->
            claim_key (heap w claim) ∈ processed_claims w' ->
            fst (requires_manual_review claim w') = true).
  { intros w' Hh Hin. rewrite requires_manual_review_run, Hh.
    destruct (_ <? _)%float; [reflexivity|].
    destruct (_ <? _)%float; [reflexivity|].
    destruct (decide _); [reflexivity|contradiction]. }
  assert (Hrec : claim_key (heap w claim)
            ∈ processed_claims (record_key (claim_key (heap w claim)) w)).
  { cbn [processed_claims record_key]. apply elem_of_union_l, elem_of_singleton.
    reflexivity. }
  repeat apply conj.
  - rewrite (requires_manual_review_run claim w).
    destruct (AUTO_APPROVE_THRESHOLD <? total_amount (heap w claim))%float eqn:Hamt.
    { cbn [snd]. rewrite requires_manual_review_run, Hamt. reflexivity. }
    destruct (documentation_score (heap w claim) <? MIN_DOCUMENTATION_SCORE)%float
      eqn:Hdoc.
    { cbn [snd]. rewrite requires_manual_review_run, Hamt, Hdoc. reflexivity. }
    destruct (decide _) as [Hin|Hout]; cbn [snd].
    + now apply Hknown.
    + now apply Hknown.
  - now apply Hknown.
  - rewrite check_duplicate_run.
    destruct (decide _) as [Hin|Hout]; cbn [snd]; now apply Hknown.
  - rewrite requires_manual_review_run.
    destruct (_ <? _)%float; [discriminate|].
    destruct (_ <? _)%float; [discriminate|].
    destruct (decide _) as [Hin|Hout]; [discriminate|]. intros _. cbn [snd].
    rewrite check_duplicate_run.
    change (heap (record_key (claim_key (heap w claim)) w)) with (heap w).
    destruct (decide _); [reflexivity|contradiction].
Qed.

(** X9: [requires_manual_review] answers false exactly when the amount
    does not exceed the threshold, the documentation score is not below the
    minimum and the key is not in the ledger; it records the key exactly
    then, and changes nothing else (it does not read the clock). *)
Theorem requires_manual_review_frame claim w :
  heap (snd (requires_manual_review claim w)) = heap w
  /\ decision_history (snd (requires_manual_review claim w)) = decision_history w
  /\ clock_reads (snd (requires_manual_review claim w)) = clock_reads w
  /\ processed_claims (snd (requires_manual_review claim w))
     = (if fst (requires_manual_review claim w) then processed_claims w
        else {[claim_key (heap w claim)]} ∪ processed_claims w)
  /\ (fst (requires_manual_review claim w) = false <->
      (AUTO_APPROVE_THRESHOLD <? total_amount (heap w claim))%float = false
      /\ (fst (check_documentation claim w) <? MIN_DOCUMENTATION_SCORE)%float = false
      /\ claim_key (heap w claim) ∉ processed_claims w).
Proof.
  rewrite requires_manual_review_run, check_documentation_run. cbn [fst].
  destruct (AUTO_APPROVE_THRESHOLD <? total_amount (heap w claim))%float;
    [cbn; intuition congruence|].
  destruct (documentation_score (heap w claim) <? MIN_DOCUMENTATION_SCORE)%float;
    [cbn; intuition congruence|].
  destruct (decide _) as [Hin|Hout]; cbn; intuition congruence.
Qed.

(** X5: whatever [evaluate_claim] approves, [requires_manual_review],
    asked in the same state, does not send to manual review. *)
Theorem approved_needs_no_review claim w :
  status_of (fst (evaluate_claim claim w)) = APPROVED ->
  fst (requires_manual_review claim w) = false.
Proof.
  rewrite evaluate_claim_decision, requires_manual_review_run.
  unfold decision_of, decide_claim, status_of, duplicate_confidence,
    AUTO_APPROVE_THRESHOLD, MIN_DOCUMENTATION_SCORE.
  destruct (basic_info_ok _); cbn [negb fst snd]; [|discriminate].
  destruct (amount_ok _); cbn [negb fst snd]; [|discriminate].
  destruct (service_date_ok _ _); cbn [negb fst snd]; [|discriminate].
  destruct (documentation_score (heap w claim) <? 0.5)%float; [discriminate|].
  destruct (total_amount (heap w claim) <? 1000)%float eqn:Hlow;
    [|discriminate].
  rewrite (ltb_not_gtb _ _ Hlow).
  destruct (decide _) as [Hin|Hout]; [|reflexivity].
  rewrite (bool_decide_eq_true_2 _ Hin).
  unfold documentation_score, description_points, diagnosis_points,
    procedure_points, provider_points, amount_points.
  destruct (has_description _), (has_codes (diagnosis_codes _)),
    (has_codes (procedure_codes _)), (has_provider_id _),
    (5000 <? total_amount _)%float; discriminate.
Qed.

End EngineMore.

Section EngineWitnesses.

Import ClaimRules DecisionEngine Pipeline Examples.

(** The claim of the fixtures, evaluated a second time. *)
Lemma known_key_never_approved_witness :
  status_of (fst (evaluate_claim (H := noon_2024_03_15) 0%nat
                    (snd (evaluate_claim (H := noon_2024_03_15) 0%nat
                            (fresh_world [valid_claim])))))
  = UNDER_REVIEW
  /\ (confidence_of (fst (evaluate_claim (H := noon_2024_03_15) 0%nat
                           (snd (evaluate_claim (H := noon_2024_03_15) 0%nat
                                   (fresh_world [valid_claim])))))
      <=? 0.7)%float = true.
Proof.
  assert (Hin : claim_key (H := noon_2024_03_15) valid_claim
                ∈ processed_claims
                    (snd (evaluate_claim (H := noon_2024_03_15) 0%nat
                            (fresh_world [valid_claim])))).
  { apply (bool_decide_unpack _). vm_compute. exact I. }
  destruct (known_key_never_approved (H := noon_2024_03_15) 0%nat
              (snd (evaluate_claim (H := noon_2024_03_15) 0%nat
                      (fresh_world [valid_claim]))) Hin)
    as [_ Hflag].
  destruct Hflag as [_ Hconf]; try reflexivity.
  split; [reflexivity | exact Hconf].
Defined.

(** The claim of the fixtures, evaluated by a fresh engine. *)
Lemma approved_means_documented_witness :
  has_description valid_claim = true
  /\ confidence_of (fst (evaluate_claim (H := noon_2024_03_15) 0%nat
                           (fresh_world [valid_claim]))) = 1.0%float.
Proof.
  destruct (approved_means_documented (H := noon_2024_03_15) 0%nat
              (fresh_world [valid_claim]) eq_refl)
    as (Hd & _ & _ & _ & _ & _ & _).
  split; [exact Hd | reflexivity].
Defined.

Lemma approved_needs_no_review_witness :
  fst (requires_manual_review (H := noon_2024_03_15) 0%nat
         (fresh_world [valid_claim])) = false.
Proof.
  apply (approved_needs_no_review (H := noon_2024_03_15) 0%nat
           (fresh_world [valid_claim])).
  reflexivity.
Defined.

End EngineWitnesses.

Section Luhn.

Import ClaimValidator LuhnSpec.

Lemma sum_from (l : list Z) : forall a, fold_left Z.add l a = a + sum l.
Proof.
  unfold sum. induction l as [|x l IH]; intros a; cbn [fold_left]; [lia|].
  rewrite (IH (a + x)), (IH (0 + x)). lia.
Qed.

Lemma sum_cons x l : sum (x :: l) = x + sum l.
Proof. unfold sum at 1. cbn [fold_left]. rewrite sum_from. lia. Qed.

Lemma doubled_from (l : list Z) : forall a,
  fold_left (fun checksum d => checksum + doubled d) l a
  = a + fold_left (fun checksum d => checksum + doubled d) l 0.
Proof.
  induction l as [|x l IH]; intros a; cbn [fold_left]; [lia|].
  rewrite (IH (a + doubled x)), (IH (0 + doubled x)). lia.
Qed.

Lemma doubled_cons x l :
  fold_left (fun checksum d => checksum + doubled d) (x :: l) 0
  = doubled x + fold_left (fun checksum d => checksum + doubled d) l 0.
Proof. cbn [fold_left]. rewrite doubled_from. lia. Qed.

Lemma every_other_cons {A} (x : A) (l : list A) :
  every_other (x :: l) = x :: every_other (tail l).
Proof. destruct l; reflexivity. Qed.

(** Both slices of a list, taken together, are the weighted sum. *)
Lemma slices_weighted (l : list Z) :
  sum (every_other l)
  + fold_left (fun checksum d => checksum + doubled d) (every_other (tail l)) 0
  = weighted false l
  /\ sum (every_other (tail l))
     + fold_left (fun checksum d => checksum + doubled d) (every_other l) 0
     = weighted true l.
Proof.
  induction l as [|x l [IHf IHt]]; [split; reflexivity|].
  cbn [tail weighted negb]. rewrite every_other_cons, sum_cons, doubled_cons.
  split; lia.
Qed.

Lemma checksum_weighted (digits : list Z) :
  checksum digits = weighted false (rev digits).
Proof.
  unfold checksum. rewrite doubled_from.
  exact (proj1 (slices_weighted (rev digits))).
Qed.

Lemma luhn_check_checksum (number : string) :
  _luhn_check number
  = option_map (fun digits => checksum digits mod 10 =? 0) (digits_of_str number).
Proof. unfold _luhn_check. destruct (digits_of_str number); reflexivity. Qed.

Lemma weighted_app (p q : list Z) : forall dbl,
  weighted dbl (p ++ q)
  = weighted dbl p + weighted (if Nat.even (length p) then dbl else negb dbl) q.
Proof.
  induction p as [|x p IH]; intros dbl; [cbn; lia|].
  cbn [app weighted length]. rewrite IH.
  rewrite Nat.even_succ, <- Nat.negb_even.
  destruct (Nat.even (length p)), dbl; cbn [negb]; lia.
Qed.

Lemma doubled_values d :
  is_digit d ->
  doubled d = if d <? 5 then 2 * d else 2 * d - 9.
Proof.
  intros [Hlo Hhi].
  assert (Hd : d = 0 \/ d = 1 \/ d = 2 \/ d = 3 \/ d = 4 \/ d = 5 \/ d = 6
               \/ d = 7 \/ d = 8 \/ d = 9) by lia.
  destruct Hd as [->|[->|[->|[->|[->|[->|[->|[->|[->| ->]]]]]]]]]; reflexivity.
Qed.

(** Two different digits weigh differently modulo ten, doubled or not. *)
Lemma weights_differ (dbl : bool) (a b : Z) :
  is_digit a -> is_digit b -> a <> b ->
  ((if dbl then doubled a else a) - (if dbl then doubled b else b)) mod 10 <> 0.
Proof.
  intros Ha Hb Hne. destruct dbl.
  - rewrite (doubled_values a Ha), (doubled_values b Hb).
    destruct Ha, Hb.
    destruct (a <? 5) eqn:Ea, (b <? 5) eqn:Eb;
      [apply Z.ltb_lt in Ea, Eb | apply Z.ltb_lt in Ea; apply Z.ltb_ge in Eb
       | apply Z.ltb_ge in Ea; apply Z.ltb_lt in Eb | apply Z.ltb_ge in Ea, Eb];
      intros Hmod; apply Z.mod_divide in Hmod; try lia;
      destruct Hmod as [k Hk]; lia.
  - destruct Ha, Hb. intros Hmod. apply Z.mod_divide in Hmod; [|lia].
    destruct Hmod as [k Hk]. lia.
Qed.


Lemma append_cons (a : ascii) (s t : string) :
  String a s +:+ t = String a (s +:+ t).
Proof. reflexivity. Qed.

Lemma digits_of_str_cons a s :
  digits_of_str (String a s)
  = match int_of_char a, digits_of_str s with
    | Some d, Some ds => Some (d :: ds)
    | _, _ => None
    end.
Proof. reflexivity. Qed.

Lemma int_of_char_digit a d : int_of_char a = Some d -> is_digit d.
Proof.
  unfold int_of_char, PyStr.isdigit, is_digit.
  destruct (_ && _) eqn:E; [|discriminate]. intros [= <-].
  apply andb_true_iff in E as [E1 E2].
  apply Nat.leb_le in E1, E2. lia.
Qed.

Lemma int_of_char_isdigit a :
  PyStr.isdigit a = true <-> exists d, int_of_char a = Some d.
Proof.
  unfold int_of_char. destruct (PyStr.isdigit a); split;
    try discriminate; eauto.
  intros [d Hd]. discriminate Hd.
Qed.

Lemma int_of_char_inj a b d :
  int_of_char a = Some d -> int_of_char b = Some d -> a = b.
Proof.
  unfold int_of_char.
  destruct (PyStr.isdigit a), (PyStr.isdigit b); try discriminate.
  intros [= Ha] [= Hb].
  assert (Hn : nat_of_ascii a = nat_of_ascii b) by lia.
  rewrite <- (ascii_nat_embedding a), <- (ascii_nat_embedding b). now rewrite Hn.
Qed.

Lemma digits_of_str_app s : forall t,
  digits_of_str (s +:+ t)
  = match digits_of_str s, digits_of_str t with
    | Some ds, Some dt => Some (ds ++ dt)
    | _, _ => None
    end.
Proof.
  induction s as [|a s IH]; intros t.
  - change (EmptyString +:+ t) with t. cbn [digits_of_str].
    now destruct (digits_of_str t).
  - rewrite append_cons, !digits_of_str_cons, IH.
    destruct (int_of_char a), (digits_of_str s), (digits_of_str t); reflexivity.
Qed.

Lemma digits_of_str_digits s : forall ds,
  digits_of_str s = Some ds -> Forall is_digit ds.
Proof.
  induction s as [|a s IH]; intros ds.
  - intros [= <-]. constructor.
  - rewrite digits_of_str_cons.
    destruct (int_of_char a) as [d|] eqn:Ha; [|discriminate].
    destruct (digits_of_str s) as [ds'|]; [|discriminate].
    intros [= <-]. constructor; [eapply int_of_char_digit; eassumption | now apply IH].
Qed.

Lemma digits_of_str_forallb s :
  PyStr.forallb PyStr.isdigit s = true <-> exists ds, digits_of_str s = Some ds.
Proof.
  induction s as [|a s IH].
  - split; [eexists; reflexivity | reflexivity].
  - cbn [PyStr.forallb]. rewrite digits_of_str_cons, andb_true_iff, IH,
      int_of_char_isdigit.
    split.
    + intros [[d ->] [ds ->]]. eauto.
    + destruct (int_of_char a); [|intros [? [=]]].
      destruct (digits_of_str s); [|intros [? [=]]]. eauto.
Qed.

Lemma digits_of_str_length s : forall ds,
  digits_of_str s = Some ds -> length ds = String.length s.
Proof.
  induction s as [|a s IH]; intros ds.
  - now intros [= <-].
  - rewrite digits_of_str_cons.
    destruct (int_of_char a); [|discriminate].
    destruct (digits_of_str s) as [ds'|]; [|discriminate].
    intros [= <-]. cbn. f_equal. now apply IH.
Qed.

(** Replacing one digit of a number changes its checksum modulo ten. *)
Lemma checksum_one_digit (p q : list Z) (a b : Z) :
  is_digit a -> is_digit b -> a <> b ->
  (checksum (p ++ a :: q) - checksum (p ++ b :: q)) mod 10 <> 0.
Proof.
  intros Ha Hb Hne.
  rewrite !checksum_weighted, !rev_app_distr. cbn [rev].
  rewrite <- !app_assoc. cbn [app].
  rewrite !weighted_app. cbn [weighted].
  set (dbl := if Nat.even (length (rev q)) then false else negb false).
  replace (weighted false (rev q) + ((if dbl then doubled a else a) + weighted (negb dbl) (rev p))
           - (weighted false (rev q) + ((if dbl then doubled b else b) + weighted (negb dbl) (rev p))))
    with ((if dbl then doubled a else a) - (if dbl then doubled b else b)) by lia.
  now apply weights_differ.
Qed.

(** X10: the Luhn check detects every single wrong digit: replacing one
    digit of a number that passes by another digit gives a number that
    fails. *)
Theorem luhn_detects_single_digit_error (pre post : string) (a b : ascii) :
  _luhn_check (pre +:+ String a post) = Some true ->
  PyStr.isdigit b = true ->
  a <> b ->
  _luhn_check (pre +:+ String b post) = Some false.
Proof.
  rewrite !luhn_check_checksum, !digits_of_str_app, !digits_of_str_cons.
  intros Hok Hb Hne.
  apply int_of_char_isdigit in Hb as [db Hdb]. rewrite Hdb.
  destruct (digits_of_str pre) as [p|] eqn:Hp; [|discriminate].
  destruct (int_of_char a) as [da|] eqn:Hda; [|discriminate].
  destruct (digits_of_str post) as [q|] eqn:Hq; [|discriminate].
  cbn [option_map] in *. injection Hok as Hok. apply Z.eqb_eq in Hok.
  f_equal. apply Z.eqb_neq. intros Hbad.
  assert (Hne' : da <> db).
  { intros ->. apply Hne. eapply int_of_char_inj; eassumption. }
  apply (checksum_one_digit p q da db);
    [eapply int_of_char_digit; eassumption
    | eapply int_of_char_digit; eassumption | assumption |].
  rewrite Zminus_mod, Hok, Hbad. reflexivity.
Qed.


Lemma int_of_digit_char d : is_digit d -> int_of_char (digit_char d) = Some d.
Proof.
  intros [Hlo Hhi].
  assert (Hd : d = 0 \/ d = 1 \/ d = 2 \/ d = 3 \/ d = 4 \/ d = 5 \/ d = 6
               \/ d = 7 \/ d = 8 \/ d = 9) by lia.
  destruct Hd as [->|[->|[->|[->|[->|[->|[->|[->|[->| ->]]]]]]]]]; reflexivity.
Qed.

(** X11: every string of digits has exactly one check digit: one last
    character that makes the whole pass the Luhn check. *)
Theorem luhn_check_digit (body : string) :
  PyStr.forallb PyStr.isdigit body = true ->
  exists c : ascii,
    PyStr.isdigit c = true
    /\ _luhn_check (body +:+ String c "") = Some true
    /\ (forall c' : ascii,
          _luhn_check (body +:+ String c' "") = Some true -> c' = c).
Proof.
  intros Hbody. apply digits_of_str_forallb in Hbody as [p Hp].
  set (k := weighted true (rev p)).
  assert (Hd : is_digit ((- k) mod 10)).
  { unfold is_digit. pose proof (Z.mod_pos_bound (- k) 10). lia. }
  assert (Hvalid : _luhn_check (body +:+ String (digit_char ((- k) mod 10)) "")
                   = Some true).
  { rewrite luhn_check_checksum, digits_of_str_app, Hp, digits_of_str_cons,
      (int_of_digit_char _ Hd).
    cbn [digits_of_str option_map]. f_equal. apply Z.eqb_eq.
    rewrite checksum_weighted, rev_app_distr. cbn [rev app weighted negb].
    fold k. rewrite Zplus_mod_idemp_l.
    replace (- k + k) with 0 by lia. reflexivity. }
  exists (digit_char ((- k) mod 10)).
  split; [apply int_of_char_isdigit; eauto using int_of_digit_char|].
  split; [exact Hvalid|].
  intros c' Hc'.
  destruct (ascii_dec c' (digit_char ((- k) mod 10))) as [Heq|Hne]; [exact Heq|].
  exfalso.
  assert (Hdig : PyStr.isdigit (digit_char ((- k) mod 10)) = true)
    by (apply int_of_char_isdigit; eauto using int_of_digit_char).
  pose proof (luhn_detects_single_digit_error body "" c'
                (digit_char ((- k) mod 10)) Hc' Hdig Hne) as Hfalse.
  congruence.
Qed.

Lemma filter_app (p : ascii -> bool) (s : string) : forall t,
  PyStr.filter p (s +:+ t) = PyStr.filter p s +:+ PyStr.filter p t.
Proof.
  induction s as [|a s IH]; intros t; [reflexivity|].
  rewrite append_cons. cbn [PyStr.filter]. rewrite IH.
  destruct (p a); reflexivity.
Qed.

Lemma filter_forallb (p : ascii -> bool) (s : string) :
  PyStr.forallb p (PyStr.filter p s) = true.
Proof.
  induction s as [|a s IH]; [reflexivity|].
  cbn [PyStr.filter]. destruct (p a) eqn:E; [|exact IH].
  cbn [PyStr.forallb]. now rewrite E, IH.
Qed.

Lemma filter_all (p : ascii -> bool) (s : string) :
  PyStr.forallb p s = true -> PyStr.filter p s = s.
Proof.
  induction s as [|a s IH]; [reflexivity|].
  cbn [PyStr.forallb PyStr.filter]. intros [Ha Hs]%andb_true_iff.
  now rewrite Ha, IH.
Qed.

Lemma filter_idem (p : ascii -> bool) (s : string) :
  PyStr.filter p (PyStr.filter p s) = PyStr.filter p s.
Proof. apply filter_all, filter_forallb. Qed.

Lemma length_append (s t : string) :
  String.length (s +:+ t) = (String.length s + String.length t)%nat.
Proof.
  induction s as [|a s IH]; [reflexivity|].
  rewrite append_cons. cbn [String.length]. now rewrite IH.
Qed.

Lemma forallb_append (p : ascii -> bool) (s t : string) :
  PyStr.forallb p (s +:+ t) = PyStr.forallb p s && PyStr.forallb p t.
Proof.
  induction s as [|a s IH]; [reflexivity|].
  rewrite append_cons. cbn [PyStr.forallb]. rewrite IH. now rewrite andb_assoc.
Qed.

Lemma digit_kept a : PyStr.isdigit a = true -> kept a = true.
Proof.
  intros Hd. unfold kept, space_or_hyphen. apply negb_true_iff, orb_false_iff.
  split.
  - unfold PyStr.isdigit, PyStr.isspace in *.
    apply andb_true_iff in Hd as [H1 H2]. apply Nat.leb_le in H1, H2.
    repeat (apply orb_false_iff; split);
      first [ apply andb_false_iff; left; apply Nat.leb_gt; lia
            | apply andb_false_iff; right; apply Nat.leb_gt; lia
            | apply Nat.eqb_neq; lia ].
  - destruct (Ascii.eqb a "-") eqn:E; [|reflexivity].
    apply Ascii.eqb_eq in E. subst a. discriminate Hd.
Qed.

Lemma validate_provider_npi_run (npi : string) :
  validate_provider_npi npi
  = if negb (PyStr.truthy npi) then Some (true, None)
    else if negb (ten_digits (PyStr.filter kept npi)) then
           Some (false, Some "NPI must be exactly 10 digits"%string)
         else
           Some (match digits_of_str (PyStr.filter kept npi) with
                 | Some digits =>
                     if checksum digits mod 10 =? 0 then (true, None)
                     else (false, Some "Invalid NPI checksum"%string)
                 | None => (true, None)
                 end).
Proof.
  unfold validate_provider_npi. fold kept.
  destruct (negb (PyStr.truthy npi)); [reflexivity|].
  destruct (ten_digits _) eqn:Hten; cbn [negb]; [|reflexivity].
  apply andb_true_iff in Hten as [_ Hdigits].
  apply digits_of_str_forallb in Hdigits as [ds Hds].
  rewrite luhn_check_checksum, Hds. cbn [option_map].
  destruct (_ =? 0); reflexivity.
Qed.

(** X12: [validate_provider_npi] never raises (the digits are only
    converted once the identifier is known to be ten digits) and has three
    possible results: accepted, wrong length, wrong checksum. *)
Theorem validate_provider_npi_total (npi : string) :
  validate_provider_npi npi = Some (true, None)
  \/ validate_provider_npi npi
     = Some (false, Some "NPI must be exactly 10 digits"%string)
  \/ validate_provider_npi npi = Some (false, Some "Invalid NPI checksum"%string).
Proof.
  rewrite validate_provider_npi_run.
  destruct (negb (PyStr.truthy npi)); [now left|].
  destruct (negb (ten_digits _)); [right; now left|].
  destruct (digits_of_str _); [|now left].
  destruct (_ =? 0); [now left | right; now right].
Qed.

(** X13: white space and hyphens do not count: as long as something is
    left of it, an identifier is judged as the identifier without them.
    One made of separators alone is refused for its length, although the
    empty identifier is accepted. *)
Theorem validate_provider_npi_separators (npi : string) :
  (PyStr.filter kept npi <> ""%string ->
   validate_provider_npi npi = validate_provider_npi (PyStr.filter kept npi))
  /\ (npi <> ""%string -> PyStr.filter kept npi = ""%string ->
      validate_provider_npi npi
      = Some (false, Some "NPI must be exactly 10 digits"%string))
  /\ validate_provider_npi "" = Some (true, None).
Proof.
  repeat apply conj; [| |reflexivity].
  - intros Hne. rewrite !validate_provider_npi_run, filter_idem.
    assert (Hnpi : PyStr.truthy npi = true).
    { destruct npi; [contradiction Hne; reflexivity | reflexivity]. }
    assert (Hclean : PyStr.truthy (PyStr.filter kept npi) = true).
    { destruct (PyStr.filter kept npi); [contradiction Hne; reflexivity | reflexivity]. }
    now rewrite Hnpi, Hclean.
  - intros Hne Hempty. rewrite validate_provider_npi_run, Hempty.
    destruct npi; [contradiction Hne; reflexivity | reflexivity].
Qed.

(** X14: one wrong digit in an accepted identifier, separators or not,
    makes the validator refuse it for its checksum. *)
Theorem validate_provider_npi_wrong_digit (pre post : string) (a b : ascii) :
  validate_provider_npi (pre +:+ String a post) = Some (true, None) ->
  PyStr.isdigit a = true ->
  PyStr.isdigit b = true ->
  a <> b ->
  validate_provider_npi (pre +:+ String b post)
  = Some (false, Some "Invalid NPI checksum"%string).
Proof.
  intros Hok Ha Hb Hne.
  unfold validate_provider_npi in *. fold kept in *.
  assert (Ht : forall c, PyStr.truthy (pre +:+ String c post) = true).
  { intros c. destruct pre; reflexivity. }
  rewrite Ht in *. cbn [negb] in *.
  assert (Hf : forall c, PyStr.isdigit c = true ->
            PyStr.filter kept (pre +:+ String c post)
            = PyStr.filter kept pre +:+ String c (PyStr.filter kept post)).
  { intros c Hc. rewrite filter_app. cbn [PyStr.filter].
    now rewrite (digit_kept c Hc). }
  rewrite (Hf a Ha) in Hok. rewrite (Hf b Hb).
  assert (Hten : ten_digits (PyStr.filter kept pre +:+ String b (PyStr.filter kept post))
                 = ten_digits (PyStr.filter kept pre +:+ String a (PyStr.filter kept post))).
  { unfold ten_digits. rewrite !length_append, !forallb_append.
    cbn [String.length PyStr.forallb]. now rewrite Ha, Hb. }
  rewrite Hten.
  destruct (ten_digits _); cbn [negb] in *; [|discriminate].
  destruct (_luhn_check (_ +:+ String a _)) as [[|]|] eqn:Hluhn;
    cbn [negb] in Hok; try discriminate.
  now rewrite (luhn_detects_single_digit_error _ _ a b Hluhn Hb Hne).
Qed.

End Luhn.

Section LuhnWitnesses.

Import ClaimValidator LuhnSpec.

Lemma luhn_detects_single_digit_error_witness :
  _luhn_check "1234567807" = Some false.
Proof.
  apply (luhn_detects_single_digit_error "12345678" "7" "9" "0");
    [reflexivity | reflexivity | discriminate].
Defined.

Lemma luhn_check_digit_witness :
  exists c : ascii,
    PyStr.isdigit c = true
    /\ _luhn_check ("123456789" +:+ String c "") = Some true
    /\ (forall c' : ascii,
          _luhn_check ("123456789" +:+ String c' "") = Some true -> c' = c).
Proof. apply (luhn_check_digit "123456789"). reflexivity. Defined.

Lemma validate_provider_npi_separators_witness :
  validate_provider_npi "1234-567 897" = validate_provider_npi "1234567897"
  /\ validate_provider_npi " - "
     = Some (false, Some "NPI must be exactly 10 digits"%string).
Proof.
  destruct (validate_provider_npi_separators "1234-567 897") as (Hsame & _ & _).
  destruct (validate_provider_npi_separators " - ") as (_ & Hblank & _).
  split; [apply Hsame; discriminate | apply Hblank; [discriminate | reflexivity]].
Defined.

Lemma validate_provider_npi_wrong_digit_witness :
  validate_provider_npi "1234-567 807"
  = Some (false, Some "Invalid NPI checksum"%string).
Proof.
  apply (validate_provider_npi_wrong_digit "1234-567 8" "7" "9" "0");
    [reflexivity | reflexivity | reflexivity | discriminate].
Defined.

End LuhnWitnesses.

Section FloatTotal.

Lemma SFcompare_nan_r (a : spec_float) : SFcompare a S754_nan = None.
Proof. destruct a; reflexivity. Qed.

Lemma SFcompare_defined (a b : spec_float) :
  a <> S754_nan -> b <> S754_nan -> exists c, SFcompare a b = Some c.
Proof.
  intros Ha Hb.
  destruct a as [sa|sa| |sa ma ea], b as [sb|sb| |sb mb eb];
    try contradiction; cbn [SFcompare]; eauto.
Qed.

(** A float that compares with something is a number. *)
Lemma leb_number_r (x y : float) :
  (x <=? y)%float = true -> Prim2SF y <> S754_nan.
Proof.
  rewrite FloatAxioms.leb_spec. unfold SFleb. intros Hle Hnan.
  rewrite Hnan, SFcompare_nan_r in Hle. discriminate.
Qed.

Lemma leb_number_l (x y : float) :
  (x <=? y)%float = true -> Prim2SF x <> S754_nan.
Proof.
  rewrite FloatAxioms.leb_spec. unfold SFleb. intros Hle Hnan.
  rewrite Hnan in Hle. discriminate.
Qed.

(** Between two numbers, [x < y] failing means [y <= x]. *)
Lemma not_ltb_geb (x y : float) :
  Prim2SF x <> S754_nan -> Prim2SF y <> S754_nan ->
  (x <? y)%float = false -> (y <=? x)%float = true.
Proof.
  intros Hx Hy. rewrite FloatAxioms.leb_spec, FloatAxioms.ltb_spec.
  unfold SFleb, SFltb. rewrite (SFcompare_swap (Prim2SF x) (Prim2SF y)).
  destruct (SFcompare_defined _ _ Hx Hy) as [c ->].
  destruct c; cbn [option_map CompOpp]; congruence.
Qed.

(** What is at least a half is at least zero. *)
Lemma half_leb_zero_leb (v : float) :
  (0.5 <=? v)%float = true -> (0 <=? v)%float = true.
Proof.
  rewrite !FloatAxioms.leb_spec. unfold SFleb.
  remember (Prim2SF 0.5) as h eqn:Eh. vm_compute in Eh. subst h.
  remember (Prim2SF 0) as z eqn:Ez. vm_compute in Ez. subst z.
  destruct (Prim2SF v) as [s|s| |s m e]; cbn [SFcompare];
    try destruct s; try discriminate; reflexivity.
Qed.

End FloatTotal.

Section Creation.

Import Schema CustomClaim Examples.

Lemma field_str_valid (lo hi : nat) (v : string) :
  field_str lo hi v = Valid v
  \/ (exists msg, field_str lo hi v = Invalid msg).
Proof.
  unfold field_str.
  destruct (_ <? lo)%nat; [right; eauto|].
  destruct (hi <? _)%nat; [right; eauto | now left].
Qed.

Lemma field_str_bounds (lo hi : nat) (v : string) :
  field_str lo hi v = Valid v <-> (lo <= String.length v <= hi)%nat.
Proof.
  unfold field_str.
  destruct (Nat.ltb_spec (String.length v) lo);
    [split; [discriminate | lia]|].
  destruct (Nat.ltb_spec hi (String.length v));
    [split; [discriminate | lia]|].
  split; [lia | reflexivity].
Qed.

Lemma field_total_amount_valid (v : float) :
  (exists r, field_total_amount v = Valid r)
  <-> (0 <? v)%float = true /\ (1000000 <? v)%float = false.
Proof.
  unfold field_total_amount, validate_amount.
  destruct (0 <? v)%float eqn:Hpos;
    [|split; [intros [r [=]] | intros [[=] _]]].
  rewrite (ltb_not_geb _ _ Hpos).
  destruct (1000000 <? v)%float;
    [split; [intros [r [=]] | intros [_ [=]]] | split; eauto].
Qed.

Lemma field_total_amount_value (v r : float) :
  field_total_amount v = Valid r -> r = PyFloat.round2 v.
Proof.
  unfold field_total_amount, validate_amount.
  destruct (0 <? v)%float; [|discriminate].
  destruct (v <=? 0)%float; [discriminate|].
  destruct (1000000 <? v)%float; [discriminate|]. now intros [= <-].
Qed.

(** X15: a record is created exactly from values whose patient name has 1
    to 200 characters, whose service date is not later than the reading of
    the clock, whose amount is positive and at most 1000000, and whose
    description, when there is one, has at most 1000 characters; the record
    then holds the values given, the amount rounded to two decimals. *)
Theorem create_succeeds_iff (now : datetime) (raw c : BaseClaim) :
  create now raw = inr c
  <-> ((1 <= String.length (patient_name raw) <= 200)%nat
       /\ service_date raw <= now
       /\ (0 <? total_amount raw)%float = true
       /\ (1000000 <? total_amount raw)%float = false
       /\ (forall d, description raw = Some d -> (String.length d <= 1000)%nat)
       /\ c = with_amount (PyFloat.round2 (total_amount raw)) raw).
Proof.
  unfold create, with_amount.
  pose proof (field_str_bounds 1 200 (patient_name raw)) as Hname.
  pose proof (field_total_amount_valid (total_amount raw)) as Hamt.
  pose proof (field_total_amount_value (total_amount raw)) as Hval.
  destruct (field_str_valid 1 200 (patient_name raw)) as [En | [m En]];
    rewrite En in *; cbn [errors_of value_or app].
  2: { split; [discriminate|]. intros (Hn & _). apply Hname in Hn. discriminate. }
  unfold validate_service_date.
  destruct (Z.ltb_spec now (service_date raw)) as [Hfut|Hpast];
    cbn [errors_of value_or app].
  { split; [discriminate | lia]. }
  destruct (field_total_amount (total_amount raw)) as [r|m] eqn:Ea;
    cbn [errors_of value_or app].
  2: { split; [discriminate|]. intros (_ & _ & H1 & H2 & _).
       destruct (proj2 Hamt (conj H1 H2)) as [r [=]]. }
  destruct (proj1 Hamt (ex_intro _ r eq_refl)) as [H1 H2].
  rewrite (Hval r eq_refl).
  destruct (description raw) as [d|] eqn:Ed; cbn [errors_of value_or].
  - pose proof (field_str_bounds 0 1000 d) as Hdesc.
    destruct (field_str_valid 0 1000 d) as [Edv | [m Edv]]; rewrite Edv in *;
      cbn [errors_of value_or].
    + split.
      * intros [= <-]. repeat apply conj; try assumption; try reflexivity;
          try (apply Hname; reflexivity).
        intros d' [= <-]. apply Hdesc. reflexivity.
      * intros (_ & _ & _ & _ & _ & ->). reflexivity.
    + split; [discriminate|]. intros (_ & _ & _ & _ & Hd & _).
      assert (Hok : @Invalid string m = Valid d)
        by (apply Hdesc; split; [lia | now apply Hd]).
      discriminate Hok.
  - split.
    + intros [= <-]. repeat apply conj; try assumption; try reflexivity;
        try (apply Hname; reflexivity).
      discriminate.
    + intros (_ & _ & _ & _ & _ & ->). reflexivity.
Qed.

(** X17: an extraction confidence is accepted exactly when it lies between
    0.5 and 1, bounds included, and is stored as it is; the declared lower
    bound 0 is never the one that counts. *)
Theorem extraction_confidence_range (v : float) :
  (field_extraction_confidence v = Valid v
   <-> (0.5 <=? v)%float = true /\ (v <=? 1)%float = true)
  /\ (forall r, field_extraction_confidence v = Valid r -> r = v).
Proof.
  unfold field_extraction_confidence, validate_confidence. split.
  - split.
    + destruct (0 <=? v)%float eqn:H0; cbn [negb]; [|discriminate].
      destruct (v <=? 1)%float eqn:H1; cbn [negb]; [|discriminate].
      destruct (v <? 0.5)%float eqn:Hh; [discriminate|]. intros _.
      split; [|reflexivity].
      apply not_ltb_geb; [eapply leb_number_r; exact H0 | | exact Hh].
      remember (Prim2SF 0.5) as h eqn:Eh. vm_compute in Eh. subst h. discriminate.
    + intros [Hh H1]. rewrite (half_leb_zero_leb v Hh), H1. cbn [negb].
      now rewrite (leb_not_gtb _ _ Hh).
  - intros r. destruct (negb (0 <=? v)%float); [discriminate|].
    destruct (negb (v <=? 1)%float); [discriminate|].
    destruct (v <? 0.5)%float; [discriminate|]. now intros [= <-].
Qed.

End Creation.

Section CreatedClaims.

Context `{PyRuntime}.
Import Schema ClaimRules DecisionEngine Pipeline Examples.

(** X16: a record created when the clock read [created] and checked at a
    later reading cannot fail the check of the service date for a date in
    the future: the check passes exactly when the service date is not more
    than 365 days old. *)
Theorem created_claim_service_date (created : datetime) (raw : BaseClaim)
    (claim : ref) (w : World) :
  create created raw = inr (heap w claim) ->
  created <= fst (utcnow w) ->
  fst (check_service_date claim w)
  = negb (service_date (heap w claim)
          <? fst (utcnow w) - timedelta_days MAX_SERVICE_AGE_DAYS).
Proof.
  intros Hc Hlater. apply create_succeeds_iff in Hc as (_ & Hdate & _ & _ & _ & Heq).
  rewrite check_service_date_run. cbn [fst]. unfold service_date_ok, now_at.
  cbn [utcnow fst] in *.
  assert (Hsd : service_date (heap w claim) = service_date raw)
    by (rewrite Heq; reflexivity).
  rewrite Hsd.
  destruct (Z.ltb_spec (UNIX_EPOCH + Z.of_N (clock_us (clock_reads w)))
              (service_date raw)); [lia | reflexivity].
Qed.

End CreatedClaims.

Section CreationWitnesses.

Import Schema ClaimRules DecisionEngine Pipeline Examples.

(** The claim of the fixtures, created at noon on 2024-03-15 and checked at
    the same reading of the clock. *)
Lemma created_claim_service_date_witness :
  fst (check_service_date (H := noon_2024_03_15) 0%nat (fresh_world [valid_claim]))
  = true.
Proof.
  rewrite (created_claim_service_date (H := noon_2024_03_15)
             (at_hour 2024 3 15 12) valid_claim 0%nat (fresh_world [valid_claim]));
    [reflexivity | reflexivity | cbn; lia].
Defined.

End CreationWitnesses.

Section RegexCorrect.

Import Regex.
Context {A : Type}.
Implicit Types (r s : re A) (x y : list A) (a : A).

Lemma lang_void_inv x : lang (@Void A) x -> False.
Proof. inversion 1. Qed.

Lemma lang_eps_inv x : lang (@Eps A) x -> x = [].
Proof. now inversion 1. Qed.

Lemma lang_class_inv (p : A -> bool) x :
  lang (Class p) x -> exists a, x = [a] /\ p a = true.
Proof. inversion 1; subst; eauto. Qed.

Lemma lang_cat_inv r s x :
  lang (Cat r s) x -> exists y z, x = y ++ z /\ lang r y /\ lang s z.
Proof. inversion 1; subst; eauto. Qed.

Lemma lang_alt_inv r s x : lang (Alt r s) x -> lang r x \/ lang s x.
Proof. inversion 1; subst; auto. Qed.

Lemma lang_star_inv r x :
  lang (Star r) x ->
  x = [] \/ exists y z, x = y ++ z /\ lang r y /\ lang (Star r) z.
Proof. inversion 1; subst; [now left | right; eauto]. Qed.

Lemma nullable_lang r : nullable r = true <-> lang r [].
Proof.
  induction r as [| |p|r IHr s IHs|r IHr s IHs|r IHr]; cbn [nullable].
  - split; [discriminate | intros H; destruct (lang_void_inv _ H)].
  - split; [constructor | reflexivity].
  - split; [discriminate|].
    intros H. apply lang_class_inv in H as (a & Ha & _). discriminate.
  - rewrite andb_true_iff, IHr, IHs. split.
    + intros [Hr Hs]. exact (lang_cat r s [] [] Hr Hs).
    + intros H. apply lang_cat_inv in H as (y & z & Heq & Hy & Hz).
      symmetry in Heq. apply app_eq_nil in Heq as [-> ->]. now split.
  - rewrite orb_true_iff, IHr, IHs. split.
    + intros [Hr|Hs]; [now apply lang_alt_l | now apply lang_alt_r].
    + apply lang_alt_inv.
  - split; [constructor | reflexivity].
Qed.

(** A string of [r*] that starts with [a] starts with a string of [r] that
    starts with [a]. *)
Lemma lang_star_head r a x :
  lang (Star r) (a :: x) ->
  exists y z, x = y ++ z /\ lang r (a :: y) /\ lang (Star r) z.
Proof.
  intros H. remember (Star r) as q eqn:Eq. remember (a :: x) as w eqn:Ew.
  revert x Ew.
  induction H as [| | | | | |r' u v Hu _ Hv IH]; intros t Ew;
    try discriminate.
  injection Eq as ->.
  destruct u as [|b u].
  - cbn in Ew. now apply IH.
  - cbn in Ew. injection Ew as -> <-. eauto.
Qed.

Lemma deriv_cat_lang r s a x :
  (forall y, lang (deriv a r) y <-> lang r (a :: y)) ->
  lang (Cat (deriv a r) s) x
  <-> exists y z, x = y ++ z /\ lang r (a :: y) /\ lang s z.
Proof.
  intros IHr. split.
  - intros H. apply lang_cat_inv in H as (y & z & -> & Hy & Hz).
    exists y, z. rewrite <- IHr. auto.
  - intros (y & z & -> & Hy & Hz). constructor; [now apply IHr | assumption].
Qed.

Lemma deriv_lang r : forall a x, lang (deriv a r) x <-> lang r (a :: x).
Proof.
  induction r as [| |p|r IHr s IHs|r IHr s IHs|r IHr]; intros a x; cbn [deriv].
  - split; intros H; destruct (lang_void_inv _ H).
  - split; intros H; [destruct (lang_void_inv _ H)|].
    apply lang_eps_inv in H. discriminate.
  - destruct (p a) eqn:Hp.
    + split.
      * intros H. apply lang_eps_inv in H. subst x. now constructor.
      * intros H. apply lang_class_inv in H as (b & [= -> ->] & _). constructor.
    + split; [intros H; destruct (lang_void_inv _ H)|].
      intros H. apply lang_class_inv in H as (b & [= -> ->] & Hb). congruence.
  - pose proof (deriv_cat_lang r s a x (IHr a)) as Hcat.
    destruct (nullable r) eqn:Hn.
    + split.
      * intros H. apply lang_alt_inv in H as [Hl|Hr].
        -- apply Hcat in Hl as (y & z & -> & Hy & Hz).
           exact (lang_cat r s (a :: y) z Hy Hz).
        -- apply IHs in Hr. apply nullable_lang in Hn.
           exact (lang_cat r s [] (a :: x) Hn Hr).
      * intros H. apply lang_cat_inv in H as (u & v & Heq & Hu & Hv).
        destruct u as [|b u].
        -- cbn in Heq. subst v. apply lang_alt_r. now apply IHs.
        -- cbn in Heq. injection Heq as <- ->.
           apply lang_alt_l, Hcat. eauto.
    + rewrite Hcat. split.
      * intros (y & z & -> & Hy & Hz). exact (lang_cat r s (a :: y) z Hy Hz).
      * intros H. apply lang_cat_inv in H as (u & v & Heq & Hu & Hv).
        destruct u as [|b u].
        -- apply nullable_lang in Hu. congruence.
        -- cbn in Heq. injection Heq as <- ->. eauto.
  - split; intros H; apply lang_alt_inv in H as [H|H];
      first [apply lang_alt_l; now apply IHr | apply lang_alt_r; now apply IHs].
  - split.
    + intros H. apply lang_cat_inv in H as (y & z & -> & Hy & Hz).
      apply IHr in Hy. exact (lang_star_cons r (a :: y) z Hy Hz).
    + intros H. apply lang_star_head in H as (y & z & -> & Hy & Hz).
      constructor; [now apply IHr | assumption].
Qed.

(** The matcher decides the language of the pattern. *)
Lemma matches_lang r x : matches r x = true <-> lang r x.
Proof.
  revert r. induction x as [|a x IH]; intros r; cbn [matches].
  - apply nullable_lang.
  - rewrite IH. apply deriv_lang.
Qed.

Lemma lang_opt r x : lang (Opt r) x <-> x = [] \/ lang r x.
Proof.
  unfold Opt. split.
  - intros H. apply lang_alt_inv in H as [H|H]; [left; now apply lang_eps_inv | now right].
  - intros [-> | H]; [apply lang_alt_l; constructor | now apply lang_alt_r].
Qed.

Lemma lang_cat_iff r s x :
  lang (Cat r s) x <-> exists y z, x = y ++ z /\ lang r y /\ lang s z.
Proof.
  split; [apply lang_cat_inv|]. intros (y & z & -> & Hy & Hz). now constructor.
Qed.

Lemma lang_class_iff (p : A -> bool) x :
  lang (Class p) x <-> exists a, x = [a] /\ p a = true.
Proof.
  split; [apply lang_class_inv|]. intros (a & -> & Ha). now constructor.
Qed.

(** The strings of [c*], [c+], [c{n}], [c{0,n}], [c{m,n}] and [c{n,}] for a
    class [c]: the strings of characters of the class of the right
    length. *)
Lemma lang_star_class (p : A -> bool) x :
  lang (Star (Class p)) x <-> forallb p x = true.
Proof.
  split.
  - intros H. remember (Star (Class p)) as q eqn:Eq.
    induction H as [| | | | | |r' u v Hu _ Hv IH]; try discriminate; [reflexivity|].
    injection Eq as ->. apply lang_class_inv in Hu as (a & -> & Ha).
    cbn. now rewrite Ha, IH.
  - induction x as [|a x IH]; [constructor|].
    cbn [forallb]. intros [Ha Hx]%andb_true_iff.
    exact (lang_star_cons (Class p) [a] x (lang_class p a Ha) (IH Hx)).
Qed.

Lemma lang_repeat_class (p : A -> bool) n : forall x,
  lang (Repeat n (Class p)) x <-> length x = n /\ forallb p x = true.
Proof.
  induction n as [|n IH]; intros x; cbn [Repeat].
  - split.
    + intros H. apply lang_eps_inv in H. subst x. now split.
    + intros [Hl _]. destruct x; [constructor | discriminate].
  - rewrite lang_cat_iff. split.
    + intros (y & z & -> & Hy & Hz). apply lang_class_inv in Hy as (a & -> & Ha).
      apply IH in Hz as [Hl Hz]. cbn. now rewrite Hl, Ha, Hz.
    + intros [Hl Hx]. destruct x as [|a x]; [discriminate|].
      cbn in Hl, Hx. apply andb_true_iff in Hx as [Ha Hx].
      exists [a], x. split; [reflexivity|]. split; [now constructor|].
      apply IH. split; [lia | assumption].
Qed.

Lemma lang_upto_class (p : A -> bool) n : forall x,
  lang (Upto n (Class p)) x <-> (length x <= n)%nat /\ forallb p x = true.
Proof.
  induction n as [|n IH]; intros x; cbn [Upto].
  - split.
    + intros H. apply lang_eps_inv in H. subst x. now split.
    + intros [Hl _]. destruct x; [constructor | cbn in Hl; lia].
  - rewrite lang_opt, lang_cat_iff. split.
    + intros [-> | (y & z & -> & Hy & Hz)]; [cbn; split; [lia | reflexivity]|].
      apply lang_class_inv in Hy as (a & -> & Ha).
      apply IH in Hz as [Hl Hz]. cbn. rewrite Ha, Hz. split; [lia | reflexivity].
    + intros [Hl Hx]. destruct x as [|a x]; [now left | right].
      cbn in Hl, Hx. apply andb_true_iff in Hx as [Ha Hx].
      exists [a], x. split; [reflexivity|]. split; [now constructor|].
      apply IH. split; [lia | assumption].
Qed.

Lemma lang_between_class (p : A -> bool) m n x :
  (m <= n)%nat ->
  lang (Between m n (Class p)) x
  <-> (m <= length x <= n)%nat /\ forallb p x = true.
Proof.
  intros Hmn. unfold Between. rewrite lang_cat_iff. split.
  - intros (y & z & -> & Hy & Hz).
    apply lang_repeat_class in Hy as [Hly Hy].
    apply lang_upto_class in Hz as [Hlz Hz].
    rewrite length_app, forallb_app, Hy, Hz. split; [lia | reflexivity].
  - intros [Hl Hx]. exists (firstn m x), (skipn m x).
    rewrite <- (firstn_skipn m x) in Hx. rewrite forallb_app in Hx.
    apply andb_true_iff in Hx as [H1 H2].
    split; [now rewrite firstn_skipn|]. split.
    + apply lang_repeat_class. split; [|assumption].
      rewrite length_firstn. lia.
    + apply lang_upto_class. split; [|assumption].
      rewrite length_skipn. lia.
Qed.

Lemma lang_plus_class (p : A -> bool) x :
  lang (Plus (Class p)) x <-> x <> [] /\ forallb p x = true.
Proof.
  unfold Plus. rewrite lang_cat_iff. split.
  - intros (y & z & -> & Hy & Hz). apply lang_class_inv in Hy as (a & -> & Ha).
    apply lang_star_class in Hz. cbn. rewrite Ha, Hz. split; [discriminate | reflexivity].
  - intros [Hne Hx]. destruct x as [|a x]; [contradiction|].
    cbn in Hx. apply andb_true_iff in Hx as [Ha Hx].
    exists [a], x. split; [reflexivity|]. split; [now constructor|].
    now apply lang_star_class.
Qed.

Lemma lang_atleast_class (p : A -> bool) n x :
  lang (AtLeast n (Class p)) x <-> (n <= length x)%nat /\ forallb p x = true.
Proof.
  unfold AtLeast. rewrite lang_cat_iff. split.
  - intros (y & z & -> & Hy & Hz).
    apply lang_repeat_class in Hy as [Hly Hy]. apply lang_star_class in Hz.
    rewrite length_app, forallb_app, Hy, Hz. split; [lia | reflexivity].
  - intros [Hl Hx]. exists (firstn n x), (skipn n x).
    rewrite <- (firstn_skipn n x) in Hx. rewrite forallb_app in Hx.
    apply andb_true_iff in Hx as [H1 H2].
    split; [now rewrite firstn_skipn|]. split.
    + apply lang_repeat_class. split; [|assumption]. rewrite length_firstn. lia.
    + now apply lang_star_class.
Qed.

Lemma before_final_newline_iff (nl : A -> bool) x y :
  before_final_newline nl x = Some y <-> exists c, x = y ++ [c] /\ nl c = true.
Proof.
  unfold before_final_newline. split.
  - destruct (rev x) as [|c rest] eqn:Hrev; [discriminate|].
    destruct (nl c) eqn:Hc; [|discriminate]. intros [= <-].
    exists c. split; [|assumption].
    rewrite <- (rev_involutive x), Hrev. reflexivity.
  - intros (c & -> & Hc). rewrite rev_app_distr. cbn. rewrite Hc.
    now rewrite rev_involutive.
Qed.

(** An anchored match: the pattern takes the string, or the string less a
    final line feed. *)
Lemma match_anchored_iff (nl : A -> bool) r x :
  match_anchored nl r x = true
  <-> exists body,
        lang r body /\ (x = body \/ exists c, x = body ++ [c] /\ nl c = true).
Proof.
  unfold match_anchored. rewrite orb_true_iff, matches_lang. split.
  - intros [H|H]; [exists x; auto|].
    destruct (before_final_newline nl x) as [y|] eqn:Hy; [|discriminate].
    apply matches_lang in H. apply before_final_newline_iff in Hy.
    exists y. auto.
  - intros (body & Hb & [-> | Hc]); [now left | right].
    apply before_final_newline_iff in Hc. rewrite Hc. now apply matches_lang.
Qed.

End RegexCorrect.

Section FormatValidators.

Import Regex PyText Formats.

Lemma is_newline_iff c : is_newline c = true <-> c = LINE_FEED.
Proof. unfold is_newline. apply N.eqb_eq. Qed.

Lemma anchored_up_to_newline (r : re N) (x : list N) :
  match_anchored is_newline r x = true
  <-> exists body, lang r body /\ up_to_newline body x.
Proof.
  rewrite match_anchored_iff. unfold up_to_newline. split.
  - intros (body & Hb & [-> | (c & -> & Hc)]); exists body; split; auto.
    right. apply is_newline_iff in Hc. now subst c.
  - intros (body & Hb & [-> | ->]); exists body; split; auto.
    right. exists LINE_FEED. split; reflexivity.
Qed.

Lemma code_points_nil s : code_points s = [] <-> s = ""%string.
Proof. destruct s; split; try discriminate; reflexivity. Qed.

Lemma upper_nil l : upper l = [] <-> l = [].
Proof.
  split; [|now intros ->]. destruct l as [|c l]; [reflexivity|].
  unfold upper. cbn [flat_map]. unfold upper_point.
  repeat match goal with |- context [if ?b then _ else _] => destruct b end;
    discriminate.
Qed.

Lemma truthy_iff s : PyStr.truthy s = true <-> s <> ""%string.
Proof. destruct s; split; try discriminate; try reflexivity. now intros []. Qed.

Lemma up_to_newline_nonempty body x : body <> [] -> up_to_newline body x -> x <> [].
Proof.
  intros Hb [-> | ->]; [assumption|]. destruct body; [contradiction | discriminate].
Qed.

(** X18: [validate_procedure_code] accepts exactly the codes made of five
    digits, and the same followed by one line feed (which the [$] of the
    pattern lets through). *)
Theorem validate_procedure_code_accepts (code : string) :
  validate_procedure_code code = (true, None)
  <-> exists body,
        up_to_newline body (code_points code)
        /\ length body = 5%nat /\ forallb is_digit body = true.
Proof.
  unfold validate_procedure_code, CPT.
  destruct (PyStr.truthy code) eqn:Ht; cbn [negb].
  - destruct (match_anchored _ _ _) eqn:Hm; cbn [negb].
    + apply anchored_up_to_newline in Hm as (body & Hb & Hu).
      apply lang_repeat_class in Hb. split; [eauto | reflexivity].
    + split; [discriminate|]. intros (body & Hu & Hb).
      assert (Hyes : match_anchored is_newline (Repeat 5 (Class is_digit))
                       (code_points code) = true).
      { apply anchored_up_to_newline. exists body. split; [|assumption].
        now apply lang_repeat_class. }
      congruence.
  - split; [discriminate|]. intros (body & Hu & Hl & _).
    destruct code; [|discriminate]. destruct Hu as [Hu|Hu];
      destruct body; discriminate.
Qed.

(** X19: [validate_diagnosis_code] accepts exactly the codes that, in
    capitals, are a letter from A to Z and two digits, then possibly a dot
    and one to four digits, then possibly one line feed. *)
Theorem validate_diagnosis_code_accepts (code : string) :
  validate_diagnosis_code code = (true, None)
  <-> exists letter d1 d2 rest,
        up_to_newline (letter :: d1 :: d2 :: rest) (upper (code_points code))
        /\ is_upper letter = true /\ is_digit d1 = true /\ is_digit d2 = true
        /\ (rest = []
            \/ exists ds, rest = N_of_ascii "." :: ds
                          /\ (1 <= length ds <= 4)%nat
                          /\ forallb is_digit ds = true).
Proof.
  assert (Hlang : forall x,
    lang ICD10 x
    <-> exists letter d1 d2 rest,
          x = letter :: d1 :: d2 :: rest
          /\ is_upper letter = true /\ is_digit d1 = true /\ is_digit d2 = true
          /\ (rest = []
              \/ exists ds, rest = N_of_ascii "." :: ds
                            /\ (1 <= length ds <= 4)%nat
                            /\ forallb is_digit ds = true)).
  { intros x. unfold ICD10. split.
    - intros H. apply lang_cat_inv in H as (l & x1 & -> & Hl & H).
      apply lang_class_inv in Hl as (letter & -> & Hletter).
      apply lang_cat_inv in H as (dd & rest & -> & Hdd & Hrest).
      apply lang_repeat_class in Hdd as [Hlen Hdd].
      destruct dd as [|d1 [|d2 [|? ?]]]; try discriminate.
      cbn in Hdd. apply andb_true_iff in Hdd as [Hd1 Hd2].
      rewrite andb_true_r in Hd2.
      exists letter, d1, d2, rest. repeat (split; [first [reflexivity | assumption]|]).
      apply lang_opt in Hrest as [-> | Hrest]; [now left | right].
      apply lang_cat_inv in Hrest as (dot & ds & -> & Hdot & Hds).
      apply lang_class_inv in Hdot as (c & -> & Hc).
      apply N.eqb_eq in Hc. subst c.
      apply lang_between_class in Hds; [|lia]. exists ds. now split.
    - intros (letter & d1 & d2 & rest & -> & Hletter & Hd1 & Hd2 & Hrest).
      apply (lang_cat _ _ [letter] (d1 :: d2 :: rest)); [now constructor|].
      apply (lang_cat _ _ [d1; d2] rest).
      + apply lang_repeat_class. cbn. now rewrite Hd1, Hd2.
      + apply lang_opt. destruct Hrest as [-> | (ds & -> & Hl & Hds)]; [now left | right].
        apply (lang_cat _ _ [N_of_ascii "."] ds).
        * constructor. apply N.eqb_refl.
        * apply lang_between_class; [lia | now split]. }
  unfold validate_diagnosis_code.
  destruct (PyStr.truthy code) eqn:Ht; cbn [negb].
  - destruct (match_anchored _ _ _) eqn:Hm; cbn [negb].
    + apply anchored_up_to_newline in Hm as (body & Hb & Hu).
      apply Hlang in Hb as (letter & d1 & d2 & rest & -> & Hrest).
      split; [intros _; exists letter, d1, d2, rest; now split | reflexivity].
    + split; [discriminate|].
      intros (letter & d1 & d2 & rest & Hu & Hrest).
      assert (Hyes : match_anchored is_newline ICD10 (upper (code_points code)) = true).
      { apply anchored_up_to_newline. exists (letter :: d1 :: d2 :: rest).
        split; [|assumption]. apply Hlang. exists letter, d1, d2, rest. now split. }
      congruence.
  - split; [discriminate|]. intros (letter & d1 & d2 & rest & Hu & _).
    destruct code; [|discriminate]. destruct Hu as [Hu|Hu]; discriminate.
Qed.

(** X20: [validate_patient_id] accepts exactly the identifiers of 6 to 20
    characters that are not blank and that, in capitals, are letters from A
    to Z, digits and hyphens, possibly followed by one line feed. *)
Theorem validate_patient_id_accepts (patient_id : string) :
  validate_patient_id patient_id = (true, None)
  <-> (6 <= String.length patient_id <= 20)%nat
      /\ PyStr.strip patient_id <> ""%string
      /\ exists body,
           up_to_newline body (upper (code_points patient_id))
           /\ body <> [] /\ forallb id_char body = true.
Proof.
  unfold validate_patient_id, PATIENT_ID.
  assert (Hstrip : Nat.eqb (String.length (PyStr.strip patient_id)) 0 = false
                   <-> PyStr.strip patient_id <> ""%string).
  { destruct (PyStr.strip patient_id); split; try discriminate; try reflexivity.
    now intros []. }
  destruct (PyStr.truthy patient_id) eqn:Ht; cbn [negb orb].
  2: { split; [discriminate|]. intros (_ & Hs & _).
       destruct patient_id; [now contradiction Hs | discriminate]. }
  destruct (Nat.eqb (String.length (PyStr.strip patient_id)) 0) eqn:Hs.
  { split; [discriminate|]. intros (_ & Hne & _). apply Hstrip in Hne. discriminate. }
  destruct (Nat.ltb_spec (String.length patient_id) 6); cbn [orb];
    [split; [discriminate | lia]|].
  destruct (Nat.ltb_spec 20 (String.length patient_id)); cbn [orb];
    [split; [discriminate | lia]|].
  destruct (match_anchored _ _ _) eqn:Hm; cbn [negb].
  - apply anchored_up_to_newline in Hm as (body & Hb & Hu).
    apply lang_plus_class in Hb as [Hne Hb].
    split; [intros _|reflexivity].
    split; [lia|]. split; [now apply Hstrip|]. eauto.
  - split; [discriminate|]. intros (_ & _ & body & Hu & Hne & Hb).
    assert (Hyes : match_anchored is_newline (Plus (Class id_char))
                     (upper (code_points patient_id)) = true).
    { apply anchored_up_to_newline. exists body. split; [|assumption].
      now apply lang_plus_class. }
    congruence.
Qed.

Lemma ltb_nan_l (y : float) : (nan <? y)%float = false.
Proof. rewrite FloatAxioms.ltb_spec. reflexivity. Qed.

Lemma ltb_nan_r (x : float) : (x <? nan)%float = false.
Proof.
  rewrite FloatAxioms.ltb_spec. unfold SFltb.
  change (Prim2SF nan) with S754_nan. now rewrite SFcompare_nan_r.
Qed.

Lemma eqb_number_r (x y : float) : (x =? y)%float = true -> Prim2SF y <> S754_nan.
Proof.
  rewrite FloatAxioms.eqb_spec. unfold SFeqb. intros He Hnan.
  rewrite Hnan, SFcompare_nan_r in He. discriminate.
Qed.

Context `{PyRuntime}.

(** X21: with its default bounds [validate_amount] accepts exactly the
    amounts from 0.01 to 1000000 that rounding to two decimals leaves as
    they are; and whatever the bounds, the amount that is not a number is
    refused for its decimals. *)
Theorem validate_amount_accepts (amount : float) (min_amount max_amount : number) :
  (validate_amount amount DEFAULT_MIN_AMOUNT DEFAULT_MAX_AMOUNT = (true, None)
   <-> (0.01 <=? amount)%float = true
       /\ (amount <=? 1000000)%float = true
       /\ (PyFloat.round2 amount =? amount)%float = true)
  /\ validate_amount nan min_amount max_amount
     = (false, Some "Amount can have at most 2 decimal places"%string).
Proof.
  split.
  - unfold validate_amount, DEFAULT_MIN_AMOUNT, DEFAULT_MAX_AMOUNT, number_value.
    change (of_uint63 (Uint63.of_Z 1000000)) with 1000000%float.
    split.
    + destruct (amount <? 0.01)%float eqn:Hlo; [discriminate|].
      destruct (1000000 <? amount)%float eqn:Hhi; [discriminate|].
      destruct (PyFloat.round2 amount =? amount)%float eqn:Hr; [|discriminate].
      intros _. pose proof (eqb_number_r _ _ Hr) as Hn.
      repeat split.
      * apply not_ltb_geb; [assumption | vm_compute; discriminate | assumption].
      * apply not_ltb_geb; [vm_compute; discriminate | assumption | assumption].
    + intros (Hlo & Hhi & Hr).
      rewrite (leb_not_gtb _ _ Hlo), (leb_not_gtb _ _ Hhi), Hr. reflexivity.
  - unfold validate_amount. now rewrite ltb_nan_l, ltb_nan_r.
Qed.









End FormatValidators.

Section TextHelpers.

Import Regex Helpers TextSpec.

Lemma chars_filter (p : ascii -> bool) (s : string) :
  PyStr.chars (PyStr.filter p s) = List.filter p (PyStr.chars s).
Proof.
  induction s as [|a s IH]; [reflexivity|].
  cbn [PyStr.filter PyStr.chars List.filter]. destruct (p a); cbn [PyStr.chars]; now rewrite IH.
Qed.

Lemma chars_forallb (p : ascii -> bool) (s : string) :
  forallb p (PyStr.chars s) = PyStr.forallb p s.
Proof.
  induction s as [|a s IH]; [reflexivity|].
  cbn [PyStr.forallb PyStr.chars forallb]. now rewrite IH.
Qed.

(** X23: [validate_phone] looks at the number without its separators
    (white space, hyphens, parentheses, dots), wherever they stand, and
    accepts it exactly when what is left is 10 to 15 digits, possibly after
    one [+]. *)
Theorem validate_phone_accepts (phone : string) :
  let cleaned := PyStr.filter (fun a => negb (phone_separator a)) phone in
  validate_phone phone = validate_phone cleaned
  /\ (validate_phone phone = true
      <-> exists digits,
            (PyStr.chars cleaned = digits \/ PyStr.chars cleaned = "+"%char :: digits)
            /\ (10 <= length digits <= 15)%nat
            /\ forallb PyStr.isdigit digits = true).
Proof.
  intros cleaned. split.
  - unfold validate_phone. fold cleaned. subst cleaned. now rewrite filter_idem.
  - unfold validate_phone. fold cleaned.
    assert (Hlang : forall x,
      lang PHONE x
      <-> exists digits, (x = digits \/ x = "+"%char :: digits)
                         /\ (10 <= length digits <= 15)%nat
                         /\ forallb PyStr.isdigit digits = true).
    { intros x. unfold PHONE. rewrite lang_cat_iff. split.
      - intros (sign & digits & -> & Hsign & Hdigits).
        apply lang_between_class in Hdigits; [|lia].
        exists digits. split; [|assumption].
        apply lang_opt in Hsign as [-> | Hsign]; [now left | right].
        apply lang_class_inv in Hsign as (c & -> & Hc).
        apply Ascii.eqb_eq in Hc. now subst c.
      - intros (digits & [-> | ->] & Hdigits).
        + exists [], digits. repeat split; [apply lang_opt; now left|].
          apply lang_between_class; [lia | assumption].
        + exists ["+"%char], digits. repeat split.
          * apply lang_opt. right. constructor. reflexivity.
          * apply lang_between_class; [lia | assumption]. }
    rewrite match_anchored_iff. split.
    + intros (body & Hbody & [Hx | (c & Hx & Hc)]).
      * apply Hlang in Hbody. now rewrite Hx.
      * exfalso.
        assert (Hin : In c (PyStr.chars cleaned)).
        { rewrite Hx. apply in_or_app. right. now left. }
        subst cleaned. rewrite chars_filter in Hin.
        apply filter_In in Hin as [_ Hsep].
        apply Ascii.eqb_eq in Hc. subst c. discriminate Hsep.
    + intros Hdigits. exists (PyStr.chars cleaned). split; [now apply Hlang | now left].
Qed.

(** X24: [validate_email] accepts exactly the addresses made of a local
    part, [@], a domain, a dot and two letters or more, each part of its own
    characters and not empty, possibly followed by one line feed; so an
    accepted address has one [@] only. *)
Theorem validate_email_accepts (email : string) :
  (validate_email email = true
   <-> exists local domain tld,
         let body := local ++ "@"%char :: domain ++ "."%char :: tld in
         (PyStr.chars email = body \/ PyStr.chars email = body ++ [LINE_FEED])
         /\ local <> [] /\ forallb local_char local = true
         /\ domain <> [] /\ forallb domain_char domain = true
         /\ (2 <= length tld)%nat /\ forallb isalpha tld = true)
  /\ (validate_email email = true ->
      count_occ ascii_dec (PyStr.chars email) "@"%char = 1%nat).
Proof.
  assert (Hlang : forall x,
    lang EMAIL x
    <-> exists local domain tld,
          x = local ++ "@"%char :: domain ++ "."%char :: tld
          /\ local <> [] /\ forallb local_char local = true
          /\ domain <> [] /\ forallb domain_char domain = true
          /\ (2 <= length tld)%nat /\ forallb isalpha tld = true).
  { intros x. unfold EMAIL. split.
    - intros H. apply lang_cat_inv in H as (local & x1 & -> & Hlocal & H).
      apply lang_plus_class in Hlocal as [Hl1 Hl2].
      apply lang_cat_inv in H as (at_ & x2 & -> & Hat & H).
      apply lang_class_inv in Hat as (c & -> & Hc).
      apply Ascii.eqb_eq in Hc. subst c.
      apply lang_cat_inv in H as (domain & x3 & -> & Hdomain & H).
      apply lang_plus_class in Hdomain as [Hd1 Hd2].
      apply lang_cat_inv in H as (dot & tld & -> & Hdot & Htld).
      apply lang_class_inv in Hdot as (c & -> & Hc).
      apply Ascii.eqb_eq in Hc. subst c.
      apply lang_atleast_class in Htld as [Ht1 Ht2].
      exists local, domain, tld. now repeat split.
    - intros (local & domain & tld & -> & Hl1 & Hl2 & Hd1 & Hd2 & Ht1 & Ht2).
      apply lang_cat; [now apply lang_plus_class|].
      apply (lang_cat _ _ ["@"%char]); [now constructor|].
      apply lang_cat; [now apply lang_plus_class|].
      apply (lang_cat _ _ ["."%char]); [now constructor|].
      now apply lang_atleast_class. }
  assert (Hiff : validate_email email = true
   <-> exists local domain tld,
         let body := local ++ "@"%char :: domain ++ "."%char :: tld in
         (PyStr.chars email = body \/ PyStr.chars email = body ++ [LINE_FEED])
         /\ local <> [] /\ forallb local_char local = true
         /\ domain <> [] /\ forallb domain_char domain = true
         /\ (2 <= length tld)%nat /\ forallb isalpha tld = true).
  { unfold validate_email. rewrite match_anchored_iff. split.
    - intros (body & Hbody & Hends).
      apply Hlang in Hbody as (local & domain & tld & -> & Hparts).
      exists local, domain, tld. cbv zeta. split; [|assumption].
      destruct Hends as [Hx | (c & Hx & Hc)]; [now left | right].
      apply Ascii.eqb_eq in Hc. now subst c.
    - intros (local & domain & tld & Hends & Hparts). cbv zeta in Hends.
      exists (local ++ "@"%char :: domain ++ "."%char :: tld). split.
      + apply Hlang. exists local, domain, tld. now split.
      + destruct Hends as [Hx | Hx]; [now left | right].
        exists LINE_FEED. split; [assumption | reflexivity]. }
  split; [exact Hiff|].
  intros Hok. apply Hiff in Hok
    as (local & domain & tld & Hends & _ & Hl & _ & Hd & _ & Ht).
  cbv zeta in Hends.
  assert (Hnone : forall (p : ascii -> bool) l,
            p "@"%char = false -> forallb p l = true ->
            count_occ ascii_dec l "@"%char = 0%nat).
  { intros p l Hp Hall. apply count_occ_not_In. intros Hin.
    rewrite forallb_forall in Hall. apply Hall in Hin. congruence. }
  assert (Hbody : count_occ ascii_dec
                    (local ++ "@"%char :: domain ++ "."%char :: tld) "@"%char = 1%nat).
  { rewrite count_occ_app, count_occ_cons_eq by reflexivity.
    rewrite count_occ_app, count_occ_cons_neq by discriminate.
    rewrite (Hnone local_char local), (Hnone domain_char domain),
      (Hnone isalpha tld) by (reflexivity || assumption).
    reflexivity. }
  destruct Hends as [-> | ->]; [exact Hbody|].
  rewrite count_occ_app, Hbody. reflexivity.
Qed.

(** *** [sanitize_text] *)

Lemma remove_tags_keep (a : ascii) (rest : string) :
  Ascii.eqb a "<" = false ->
  remove_tags (String a rest) = String a (remove_tags rest).
Proof. intros Ha. cbn [remove_tags]. now rewrite Ha. Qed.

(** What [remove_tags] does at a [<]. *)
Lemma remove_tags_open (rest : string) :
  remove_tags (String "<" rest)
  = if starts_with (is_char ">") rest then String "<" (remove_tags rest)
    else match after_close rest with
         | Some rest' => remove_tags rest'
         | None => String "<" (remove_tags rest)
         end.
Proof.
  destruct rest as [|b inside]; [reflexivity|].
  assert (Estep :
    remove_tags (String "<" (String b inside))
    = if Ascii.eqb b ">" then String "<" (remove_tags (String b inside))
      else (fix close (t : string) : string :=
              match t with
              | EmptyString => String "<" (remove_tags (String b inside))
              | String c t' => if Ascii.eqb c ">" then remove_tags t' else close t'
              end) inside) by reflexivity.
  rewrite Estep. clear Estep. cbn [starts_with after_close]. unfold is_char.
  destruct (Ascii.eqb b ">") eqn:Hb; [reflexivity|].
  generalize (String "<" (remove_tags (String b inside))). intros kept.
  induction inside as [|c t IH]; [reflexivity|].
  cbn [after_close]. destruct (Ascii.eqb c ">"); [reflexivity | exact IH].
Qed.

Lemma after_close_none (s : string) :
  after_close s = None <-> mentions ">" s = false.
Proof.
  induction s as [|a s IH]; [split; reflexivity|].
  cbn [after_close mentions]. destruct (Ascii.eqb a ">"); cbn [orb]; [|exact IH].
  split; discriminate.
Qed.

Lemma after_close_some (s rest : string) :
  after_close s = Some rest ->
  (String.length rest < String.length s)%nat
  /\ forall c, mentions c rest = true -> mentions c s = true.
Proof.
  revert rest. induction s as [|a s IH]; intros rest; [discriminate|].
  cbn [after_close mentions String.length]. destruct (Ascii.eqb a ">").
  - intros [= ->]. split; [lia|]. intros c ->. apply orb_true_r.
  - intros Hs. apply IH in Hs as [Hlen Hin]. split; [lia|].
    intros c Hc. rewrite (Hin c Hc). apply orb_true_r.
Qed.

Lemma starts_with_close (s : string) :
  starts_with (is_char ">") s = true -> exists s', s = String ">" s'.
Proof.
  destruct s as [|a s']; [discriminate|]. cbn [starts_with]. unfold is_char.
  intros Ha. apply Ascii.eqb_eq in Ha. subst a. now exists s'.
Qed.

(** [remove_tags] brings in no character. *)
Lemma remove_tags_mentions (c : ascii) (n : nat) : forall s,
  (String.length s <= n)%nat ->
  mentions c (remove_tags s) = true -> mentions c s = true.
Proof.
  induction n as [|n IH]; intros [|a rest]; cbn [String.length]; intros Hlen;
    try (intros H; exact H); try lia.
  destruct (Ascii.eqb a "<") eqn:Ha.
  - apply Ascii.eqb_eq in Ha. subst a. rewrite remove_tags_open.
    assert (Hkept : mentions c (String "<" (remove_tags rest)) = true ->
                    mentions c (String "<" rest) = true).
    { cbn [mentions]. intros [->|Hc]%orb_true_iff; [reflexivity|].
      rewrite (IH rest) by (assumption || lia). apply orb_true_r. }
    destruct (starts_with _ rest); [exact Hkept|].
    destruct (after_close rest) as [rest'|] eqn:Hclose; [|exact Hkept].
    apply after_close_some in Hclose as [Hshort Hin]. intros Hc.
    cbn [mentions]. rewrite (Hin c); [apply orb_true_r|].
    apply IH; [lia | assumption].
  - rewrite remove_tags_keep by assumption. cbn [mentions].
    intros [->|Hc]%orb_true_iff; [reflexivity|].
    rewrite (IH rest) by (assumption || lia). apply orb_true_r.
Qed.

Lemma remove_tags_tagless_upto (n : nat) : forall s,
  (String.length s <= n)%nat -> tagless (remove_tags s) = true.
Proof.
  induction n as [|n IH]; intros [|a rest]; cbn [String.length]; intros Hlen;
    try reflexivity; try lia.
  destruct (Ascii.eqb a "<") eqn:Ha.
  - apply Ascii.eqb_eq in Ha. subst a. rewrite remove_tags_open.
    destruct (starts_with _ rest) eqn:Hstart.
    + cbn [tagless]. rewrite IH by lia.
      apply starts_with_close in Hstart as [rest' ->].
      rewrite remove_tags_keep by reflexivity. reflexivity.
    + destruct (after_close rest) as [rest'|] eqn:Hclose.
      * apply after_close_some in Hclose as [Hshort _]. apply IH. lia.
      * cbn [tagless]. rewrite IH by lia.
        apply after_close_none in Hclose.
        destruct (mentions ">" (remove_tags rest)) eqn:Hm.
        -- apply (remove_tags_mentions _ n) in Hm; [congruence | lia].
        -- now rewrite orb_true_r.
  - rewrite remove_tags_keep by assumption. cbn [tagless].
    rewrite Ha, IH by lia. reflexivity.
Qed.

Lemma remove_tags_tagless (s : string) : tagless (remove_tags s) = true.
Proof. now apply (remove_tags_tagless_upto (String.length s)). Qed.

Lemma remove_tags_fixed (s : string) : tagless s = true -> remove_tags s = s.
Proof.
  induction s as [|a s IH]; [reflexivity|].
  cbn [tagless]. intros [Ha Hs]%andb_true_iff.
  destruct (Ascii.eqb a "<") eqn:Ea.
  - apply Ascii.eqb_eq in Ea. subst a. rewrite remove_tags_open, (IH Hs).
    cbn [negb orb] in Ha. destruct (starts_with _ s); [reflexivity|].
    cbn [orb] in Ha. apply negb_true_iff, after_close_none in Ha.
    now rewrite Ha.
  - rewrite remove_tags_keep by assumption. now rewrite (IH Hs).
Qed.

Lemma not_space_open_close (a : ascii) :
  PyStr.isspace a = true -> Ascii.eqb a "<" = false /\ Ascii.eqb a ">" = false.
Proof.
  intros Hs. split.
  - destruct (Ascii.eqb a "<") eqn:E; [|reflexivity].
    apply Ascii.eqb_eq in E. subst a. discriminate Hs.
  - destruct (Ascii.eqb a ">") eqn:E; [|reflexivity].
    apply Ascii.eqb_eq in E. subst a. discriminate Hs.
Qed.

Lemma collapse_spaces_mentions_close (s : string) : forall in_run,
  mentions ">" (collapse_spaces in_run s) = true -> mentions ">" s = true.
Proof.
  induction s as [|a s IH]; intros in_run; [intros H; exact H|].
  cbn [collapse_spaces mentions].
  destruct (PyStr.isspace a) eqn:Hs.
  - destruct in_run; cbn [mentions]; intros H.
    + rewrite (IH true H). apply orb_true_r.
    + cbn [orb] in H. change (Ascii.eqb " " ">") with false in H. cbn [orb] in H.
      rewrite (IH true H). apply orb_true_r.
  - cbn [mentions]. intros [->|H]%orb_true_iff; [reflexivity|].
    rewrite (IH false H). apply orb_true_r.
Qed.

Lemma collapse_spaces_starts_close (s : string) (in_run : bool) :
  starts_with (is_char ">") s = true ->
  starts_with (is_char ">") (collapse_spaces in_run s) = true.
Proof.
  intros [s' ->]%starts_with_close. reflexivity.
Qed.

Lemma collapse_spaces_tagless (s : string) : forall in_run,
  tagless s = true -> tagless (collapse_spaces in_run s) = true.
Proof.
  induction s as [|a s IH]; intros in_run; [reflexivity|].
  cbn [tagless collapse_spaces]. intros [Ha Hs]%andb_true_iff.
  destruct (PyStr.isspace a) eqn:Hspace.
  - destruct in_run; [now apply IH|]. cbn [tagless]. now rewrite IH.
  - cbn [tagless]. rewrite IH by assumption. rewrite andb_true_r.
    destruct (Ascii.eqb a "<"); [|reflexivity]. cbn [negb orb] in *.
    apply orb_true_iff in Ha as [Ha|Ha].
    + now rewrite collapse_spaces_starts_close.
    + destruct (mentions ">" (collapse_spaces false s)) eqn:Hm.
      * apply collapse_spaces_mentions_close in Hm. rewrite Hm in Ha. discriminate.
      * apply orb_true_r.
Qed.

Lemma collapse_spaces_single_spaced (s : string) : forall in_run,
  single_spaced (collapse_spaces in_run s) = true
  /\ starts_with PyStr.isspace (collapse_spaces true s) = false.
Proof.
  induction s as [|a s IH]; intros in_run; [split; reflexivity|].
  cbn [collapse_spaces]. destruct (PyStr.isspace a) eqn:Hspace.
  - split; [|apply (IH true)]. destruct in_run; [apply (IH true)|].
    cbn [single_spaced]. destruct (IH true) as [-> ->]. reflexivity.
  - split.
    + cbn [single_spaced]. rewrite Hspace. now destruct (IH false) as [-> _].
    + cbn [starts_with]. exact Hspace.
Qed.

Lemma collapse_spaces_fixed (s : string) : forall in_run,
  single_spaced s = true ->
  in_run = false \/ starts_with PyStr.isspace s = false ->
  collapse_spaces in_run s = s.
Proof.
  induction s as [|a s IH]; intros in_run; [reflexivity|].
  cbn [single_spaced collapse_spaces starts_with].
  intros [Ha Hs]%andb_true_iff Hrun.
  destruct (PyStr.isspace a) eqn:Hspace.
  - destruct Hrun as [-> | Hrun]; [|discriminate]. cbn [negb orb] in Ha.
    apply andb_true_iff in Ha as [Ha Hnext].
    apply Ascii.eqb_eq in Ha. subst a.
    apply negb_true_iff in Hnext. rewrite (IH true) by auto. reflexivity.
  - rewrite (IH false) by auto. reflexivity.
Qed.

Lemma lstrip_keeps (P : string -> bool) (s : string) :
  (forall a s', P (String a s') = true -> P s' = true) ->
  P s = true -> P (PyStr.lstrip s) = true.
Proof.
  intros Hsuffix. induction s as [|a s IH]; [intros H; exact H|].
  cbn [PyStr.lstrip]. destruct (PyStr.isspace a); [|intros H; exact H].
  intros H. apply IH. now apply (Hsuffix a).
Qed.

Lemma lstrip_starts (s : string) :
  starts_with PyStr.isspace (PyStr.lstrip s) = false.
Proof.
  induction s as [|a s IH]; [reflexivity|].
  cbn [PyStr.lstrip]. destruct (PyStr.isspace a) eqn:Ha; [exact IH | exact Ha].
Qed.

Lemma lstrip_fixed (s : string) :
  starts_with PyStr.isspace s = false -> PyStr.lstrip s = s.
Proof. destruct s as [|a s]; [reflexivity|]. cbn. now intros ->. Qed.

Lemma rstrip_cons (a : ascii) (s : string) :
  PyStr.rstrip (String a s)
  = match PyStr.rstrip s with
    | EmptyString => if PyStr.isspace a then EmptyString else String a EmptyString
    | r => String a r
    end.
Proof. reflexivity. Qed.

Lemma rstrip_mentions (c : ascii) (s : string) :
  mentions c (PyStr.rstrip s) = true -> mentions c s = true.
Proof.
  induction s as [|a s IH]; [intros H; exact H|].
  rewrite rstrip_cons. cbn [mentions]. destruct (PyStr.rstrip s) as [|b r].
  - destruct (PyStr.isspace a); [discriminate|]. cbn [mentions].
    rewrite orb_false_r. now intros ->.
  - cbn [mentions] in *. intros [->|H]%orb_true_iff; [reflexivity|].
    rewrite (IH H). apply orb_true_r.
Qed.

(** What [rstrip] leaves starts as the string does. *)
Lemma rstrip_starts (p : ascii -> bool) (s : string) :
  starts_with p (PyStr.rstrip s) = true -> starts_with p s = true.
Proof.
  destruct s as [|a s]; [intros H; exact H|].
  rewrite rstrip_cons. cbn [starts_with]. destruct (PyStr.rstrip s).
  - now destruct (PyStr.isspace a).
  - intros H; exact H.
Qed.

Lemma rstrip_starts_close (s : string) :
  starts_with (is_char ">") s = true ->
  starts_with (is_char ">") (PyStr.rstrip s) = true.
Proof.
  intros [s' ->]%starts_with_close. rewrite rstrip_cons.
  now destruct (PyStr.rstrip s').
Qed.

Lemma rstrip_tagless (s : string) :
  tagless s = true -> tagless (PyStr.rstrip s) = true.
Proof.
  induction s as [|a s IH]; [reflexivity|].
  cbn [tagless]. intros [Ha Hs]%andb_true_iff. rewrite rstrip_cons.
  specialize (IH Hs).
  destruct (PyStr.rstrip s) as [|b r] eqn:Hr.
  - destruct (PyStr.isspace a); [reflexivity|]. cbn. now rewrite orb_true_r.
  - change (tagless (String a (String b r)))
      with ((negb (Ascii.eqb a "<") || starts_with (is_char ">") (String b r)
             || negb (mentions ">" (String b r))) && tagless (String b r)).
    rewrite IH, andb_true_r. rewrite <- Hr.
    destruct (Ascii.eqb a "<"); [|reflexivity]. cbn [negb orb] in *.
    apply orb_true_iff in Ha as [Ha|Ha].
    + now rewrite rstrip_starts_close.
    + destruct (mentions ">" (PyStr.rstrip s)) eqn:Hm.
      * apply rstrip_mentions in Hm. rewrite Hm in Ha. discriminate.
      * apply orb_true_r.
Qed.

Lemma rstrip_single_spaced (s : string) :
  single_spaced s = true -> single_spaced (PyStr.rstrip s) = true.
Proof.
  induction s as [|a s IH]; [reflexivity|].
  cbn [single_spaced]. intros [Ha Hs]%andb_true_iff. rewrite rstrip_cons.
  specialize (IH Hs).
  destruct (PyStr.rstrip s) as [|b r] eqn:Hr.
  - destruct (PyStr.isspace a) eqn:Hspace; [reflexivity|].
    cbn. now rewrite Hspace.
  - change (single_spaced (String a (String b r)))
      with ((negb (PyStr.isspace a)
             || (Ascii.eqb a " " && negb (starts_with PyStr.isspace (String b r))))
            && single_spaced (String b r)).
    rewrite IH, andb_true_r. rewrite <- Hr.
    destruct (PyStr.isspace a); [|reflexivity]. cbn [negb orb] in *.
    apply andb_true_iff in Ha as [-> Hnext]. cbn [andb].
    destruct (starts_with PyStr.isspace (PyStr.rstrip s)) eqn:Hstart; [|reflexivity].
    apply rstrip_starts in Hstart. rewrite Hstart in Hnext. discriminate.
Qed.

Lemma rstrip_ends (s : string) :
  ends_with PyStr.isspace (PyStr.rstrip s) = false.
Proof.
  induction s as [|a s IH]; [reflexivity|].
  rewrite rstrip_cons. destruct (PyStr.rstrip s) as [|b r].
  - destruct (PyStr.isspace a) eqn:Ha; [reflexivity | exact Ha].
  - exact IH.
Qed.

Lemma rstrip_keeps_start (s : string) :
  starts_with PyStr.isspace s = false ->
  starts_with PyStr.isspace (PyStr.rstrip s) = false.
Proof.
  intros Hs. destruct (starts_with PyStr.isspace (PyStr.rstrip s)) eqn:H; [|reflexivity].
  apply rstrip_starts in H. congruence.
Qed.

Lemma rstrip_fixed (s : string) :
  ends_with PyStr.isspace s = false -> PyStr.rstrip s = s.
Proof.
  induction s as [|a s IH]; [reflexivity|].
  rewrite rstrip_cons. destruct s as [|b r].
  - cbn. now intros ->.
  - intros H. change (ends_with PyStr.isspace (String b r) = false) in H.
    now rewrite (IH H).
Qed.

(** The four properties of a text that [sanitize_text] leaves alone. *)
Lemma sanitize_text_clean (text : string) :
  tagless (sanitize_text text) = true
  /\ single_spaced (sanitize_text text) = true
  /\ starts_with PyStr.isspace (sanitize_text text) = false
  /\ ends_with PyStr.isspace (sanitize_text text) = false.
Proof.
  unfold sanitize_text, PyStr.strip.
  set (t := collapse_spaces false (remove_tags text)).
  assert (Ht : tagless t = true)
    by apply collapse_spaces_tagless, remove_tags_tagless.
  assert (Hs : single_spaced t = true) by apply collapse_spaces_single_spaced.
  repeat split.
  - apply rstrip_tagless, lstrip_keeps; [|exact Ht].
    intros a s'. cbn [tagless]. now intros [_ H]%andb_true_iff.
  - apply rstrip_single_spaced, lstrip_keeps; [|exact Hs].
    intros a s'. cbn [single_spaced]. now intros [_ H]%andb_true_iff.
  - apply rstrip_keeps_start, lstrip_starts.
  - apply rstrip_ends.
Qed.

Lemma sanitize_text_fixed (text : string) :
  tagless text = true -> single_spaced text = true ->
  starts_with PyStr.isspace text = false -> ends_with PyStr.isspace text = false ->
  sanitize_text text = text.
Proof.
  intros Ht Hs Hstart Hend. unfold sanitize_text, PyStr.strip.
  rewrite remove_tags_fixed, collapse_spaces_fixed, lstrip_fixed, rstrip_fixed; auto.
Qed.

(** X25: [sanitize_text] leaves a text as it is exactly when the text has
    no tag, no white space other than single spaces, and no space at
    either end; its result is such a text, so that sanitizing twice is
    sanitizing once. *)
Theorem sanitize_text_idempotent (text : string) :
  (sanitize_text text = text
   <-> tagless text = true /\ single_spaced text = true
       /\ starts_with PyStr.isspace text = false
       /\ ends_with PyStr.isspace text = false)
  /\ sanitize_text (sanitize_text text) = sanitize_text text.
Proof.
  split.
  - split.
    + intros <-. apply sanitize_text_clean.
    + intros (Ht & Hs & Hstart & Hend). now apply sanitize_text_fixed.
  - destruct (sanitize_text_clean text) as (Ht & Hs & Hstart & Hend).
    now apply sanitize_text_fixed.
Qed.

Lemma mentions_app (c : ascii) (s t : string) :
  mentions c (s +:+ t) = mentions c s || mentions c t.
Proof.
  induction s as [|a s IH]; [reflexivity|].
  rewrite append_cons. cbn [mentions]. now rewrite IH, orb_assoc.
Qed.

Lemma tagless_app (pre s : string) : tagless (pre +:+ s) = true -> tagless s = true.
Proof.
  induction pre as [|a pre IH]; [intros H; exact H|].
  rewrite append_cons. cbn [tagless]. intros [_ H]%andb_true_iff. now apply IH.
Qed.

Lemma single_spaced_app (pre s : string) :
  single_spaced (pre +:+ s) = true -> single_spaced s = true.
Proof.
  induction pre as [|a pre IH]; [intros H; exact H|].
  rewrite append_cons. cbn [single_spaced]. intros [_ H]%andb_true_iff. now apply IH.
Qed.

Lemma ends_with_cons (p : ascii -> bool) (b : ascii) (s : string) :
  s <> ""%string -> ends_with p (String b s) = ends_with p s.
Proof. destruct s; [now intros [] | reflexivity]. Qed.

Lemma ends_with_app_one (p : ascii -> bool) (pre : string) (a : ascii) :
  ends_with p (pre +:+ String a "") = p a.
Proof.
  induction pre as [|b pre IH]; [reflexivity|].
  rewrite append_cons, ends_with_cons; [exact IH|]. now destruct pre.
Qed.

Lemma ends_with_last (p : ascii -> bool) (s : string) :
  ends_with p s = true -> exists pre b, s = pre +:+ String b "" /\ p b = true.
Proof.
  induction s as [|a s IH]; [discriminate|].
  destruct s as [|a' s'].
  - cbn. intros Ha. now exists ""%string, a.
  - rewrite ends_with_cons by discriminate. intros H.
    destruct (IH H) as (pre & b & -> & Hb).
    exists (String a pre), b. now rewrite append_cons.
Qed.

(** X26: the result of [sanitize_text] holds no tag: where it has a [<]
    and a later [>], either nothing stands between them or another [>]
    does. *)
Theorem sanitize_text_no_tag (text pre inside post : string) :
  sanitize_text text = pre +:+ String "<" (inside +:+ String ">" post) ->
  inside = ""%string \/ mentions ">" inside = true.
Proof.
  intros Hr. destruct (sanitize_text_clean text) as (Ht & _).
  rewrite Hr in Ht. apply tagless_app in Ht. cbn [tagless] in Ht.
  apply andb_true_iff in Ht as [Ht _]. cbn [negb orb] in Ht.
  destruct inside as [|c inside]; [now left | right].
  rewrite append_cons in Ht. cbn [starts_with mentions] in *. unfold is_char in Ht.
  destruct (Ascii.eqb c ">"); [reflexivity|]. cbn [orb] in *.
  rewrite mentions_app in Ht. cbn [mentions] in Ht.
  rewrite orb_true_r in Ht. discriminate.
Qed.

(** X27: every white-space character of the result of [sanitize_text] is a
    space that stands between two characters that are not white space. *)
Theorem sanitize_text_spacing (text pre post : string) (a : ascii) :
  sanitize_text text = pre +:+ String a post ->
  PyStr.isspace a = true ->
  a = " "%char
  /\ pre <> ""%string /\ ends_with PyStr.isspace pre = false
  /\ post <> ""%string /\ starts_with PyStr.isspace post = false.
Proof.
  intros Hr Ha. destruct (sanitize_text_clean text) as (_ & Hs & Hstart & Hend).
  rewrite Hr in Hs, Hstart, Hend.
  pose proof (single_spaced_app _ _ Hs) as Hhere. cbn [single_spaced] in Hhere.
  rewrite Ha in Hhere. cbn [negb orb] in Hhere.
  apply andb_true_iff in Hhere as [[Hsp Hnext]%andb_true_iff _].
  apply Ascii.eqb_eq in Hsp. apply negb_true_iff in Hnext.
  repeat split; try assumption.
  - intros ->. change (PyStr.isspace a = false) in Hstart. congruence.
  - destruct (ends_with PyStr.isspace pre) eqn:Hpre; [|reflexivity].
    apply ends_with_last in Hpre as (pre' & b & -> & Hb).
    rewrite append_assoc, append_cons in Hs. apply single_spaced_app in Hs.
    change (""%string +:+ String a post) with (String a post) in Hs.
    cbn [single_spaced starts_with] in Hs.
    rewrite Hb, Ha in Hs. cbn in Hs. rewrite andb_false_r in Hs. discriminate.
  - intros ->. rewrite ends_with_app_one in Hend. congruence.
Qed.

End TextHelpers.

Section TextWitnesses.

Import Helpers TextSpec.

Lemma sanitize_text_no_tag_witness :
  sanitize_text "<>>" = "" +:+ String "<" (">" +:+ String ">" "")
  /\ (">"%string = ""%string \/ mentions ">" ">" = true).
Proof.
  split; [reflexivity|].
  apply (sanitize_text_no_tag "<>>" "" ">" ""). reflexivity.
Defined.

Lemma sanitize_text_spacing_witness :
  sanitize_text "<b>a</b>  b " = "a" +:+ String " " "b"
  /\ " "%char = " "%char
  /\ "a"%string <> ""%string /\ ends_with PyStr.isspace "a" = false
  /\ "b"%string <> ""%string /\ starts_with PyStr.isspace "b" = false.
Proof.
  split; [reflexivity|].
  apply (sanitize_text_spacing "<b>a</b>  b " "a" "b" " "); reflexivity.
Defined.

End TextWitnesses.

Section Explanation.

Context `{PyRuntime}.
Import ClaimRules DecisionEngine Pipeline.

(** The text of a decision with one reason, and with two. *)
Lemma render_one st reason confidence :
  render (st, [reason], confidence)
  = "Claim Decision: " +:+ upper (status_value st) +:+ "
Confidence Score: " +:+ float_pct confidence +:+ "

Reasons:
1. " +:+ reason +:+ "
".
Proof.
  unfold render. cbn [explanation_loop]. rewrite !append_assoc. reflexivity.
Qed.

Lemma render_two st first second confidence :
  render (st, [first; second], confidence)
  = "Claim Decision: " +:+ upper (status_value st) +:+ "
Confidence Score: " +:+ float_pct confidence +:+ "

Reasons:
1. " +:+ first +:+ "
2. " +:+ second +:+ "
".
Proof.
  unfold render. cbn [explanation_loop]. rewrite !append_assoc. reflexivity.
Qed.

Ltac by_documentation c :=
  unfold documentation_score, description_points, diagnosis_points,
    procedure_points, provider_points, amount_points;
  destruct (has_description c), (has_codes (diagnosis_codes c)),
    (has_codes (procedure_codes c)), (has_provider_id c),
    (5000 <? total_amount c)%float.

Ltac explained final :=
  exists final;
  split; [discriminate|];
  cbv zeta; cbn [fst snd];
  first [left; split; [reflexivity|]; rewrite ?append_assoc; reflexivity
        | right; split; [reflexivity|]; rewrite ?append_assoc; reflexivity].

(** X28: [get_decision_explanation] is an evaluation: it leaves the state
    [evaluate_claim] leaves, and its text is that of the decision
    [evaluate_claim] returns: a heading with the name of its status in
    capitals and its confidence as a percentage, then its reasons, numbered:
    the reason of the decision as line 1, or the duplicate notice as line 1
    and the reason as line 2. *)
Theorem get_decision_explanation_text claim w :
  snd (get_decision_explanation claim w) = snd (evaluate_claim claim w)
  /\ exists final,
       final <> DUPLICATE_REASON
       /\ let heading :=
            "Claim Decision: "
            +:+ Explanation.status_name (status_of (fst (evaluate_claim claim w)))
            +:+ "
Confidence Score: "
            +:+ float_pct (confidence_of (fst (evaluate_claim claim w))) +:+ "

Reasons:
" in
          (reasons_of (fst (evaluate_claim claim w)) = [final]
           /\ fst (get_decision_explanation claim w)
              = heading +:+ "1. " +:+ final +:+ "
")
          \/ (reasons_of (fst (evaluate_claim claim w)) = [DUPLICATE_REASON; final]
              /\ fst (get_decision_explanation claim w)
                 = heading +:+ "1. Potential duplicate claim detected
2. " +:+ final +:+ "
").
Proof.
  rewrite get_decision_explanation_run, evaluate_claim_run. cbn [fst snd].
  split; [reflexivity|].
  unfold decision_of, decide_claim, confidence_of, status_of, reasons_of,
    duplicate_reasons.
  destruct (basic_info_ok _); cbn [negb];
    [|rewrite render_one;
      explained "Missing or invalid basic information"%string].
  destruct (amount_ok _); cbn [negb];
    [|rewrite render_one;
      explained (amount_reason (float_str (total_amount (heap w claim))))].
  destruct (service_date_ok _ _); cbn [negb];
    [|rewrite render_one;
      explained "Service date is outside acceptable range"%string].
  destruct (bool_decide _); cbn [app].
  - destruct (_ <? 0.5)%float; [|destruct (_ && _)]; rewrite render_two.
    + explained "Insufficient documentation provided"%string.
    + explained "Auto-approved: All criteria met"%string.
    + explained "Requires manual review"%string.
  - destruct (_ <? 0.5)%float; [|destruct (_ && _)]; rewrite render_one.
    + explained "Insufficient documentation provided"%string.
    + explained "Auto-approved: All criteria met"%string.
    + explained "Requires manual review"%string.
Qed.

(** X29: the explanation of a claim that [evaluate_claim] has just
    approved never shows the approval: the key is in the ledger by then, so
    the text is that of a review for a duplicate, at seven tenths of the
    documentation score, or that of a rejection when the service date has
    become too old in the meantime. *)
Theorem explanation_after_approval claim w :
  status_of (fst (evaluate_claim claim w)) = APPROVED ->
  fst (get_decision_explanation claim (snd (evaluate_claim claim w)))
  = "Claim Decision: UNDER_REVIEW
Confidence Score: "
    +:+ float_pct (1.0 * 0.7 * documentation_score (heap w claim)) +:+ "

Reasons:
1. Potential duplicate claim detected
2. Requires manual review
"
  \/ fst (get_decision_explanation claim (snd (evaluate_claim claim w)))
     = "Claim Decision: REJECTED
Confidence Score: " +:+ float_pct 1.0 +:+ "

Reasons:
1. Service date is outside acceptable range
".
Proof.
  rewrite get_decision_explanation_run, evaluate_claim_run. cbn [fst snd].
  unfold decision_of at 1, state_after, decide_claim, status_of.
  destruct (basic_info_ok (heap w claim)) eqn:Hbasic; cbn [negb fst];
    [|discriminate].
  destruct (amount_ok (heap w claim)) eqn:Hamount; cbn [negb fst];
    [|discriminate].
  destruct (service_date_ok (now_at w) (heap w claim)); cbn [negb fst];
    [|discriminate].
  destruct (documentation_score (heap w claim) <? 0.5)%float eqn:Hdoc;
    [discriminate|].
  case_decide as Hkey.
  - rewrite (bool_decide_eq_true_2 _ Hkey). unfold duplicate_confidence.
    intros Happroved. exfalso. revert Happroved.
    destruct (total_amount (heap w claim) <? 1000)%float; cbn [andb fst];
      [|discriminate].
    by_documentation (heap w claim); discriminate.
  - intros _. unfold decision_of, decide_claim.
    change (heap (record_key _ (tick w))) with (heap w).
    rewrite Hbasic, Hamount. cbn [negb].
    destruct (service_date_ok _ (heap w claim)); cbn [negb];
      [|right; now rewrite render_one].
    rewrite Hdoc.
    assert (Hin : claim_key (heap w claim)
                  ∈ processed_claims (record_key (claim_key (heap w claim)) (tick w))).
    { cbn. set_solver. }
    rewrite (bool_decide_eq_true_2 _ Hin).
    unfold duplicate_confidence, duplicate_reasons. cbn [app].
    assert (Hlow : (0.8 <? 1.0 * 0.7 * documentation_score (heap w claim))%float
                   = false).
    { clear. by_documentation (heap w claim); reflexivity. }
    rewrite Hlow, andb_false_r. left. now rewrite render_two.
Qed.

End Explanation.

Section ExplanationWitnesses.

Import ClaimRules DecisionEngine Pipeline Examples.

(** The claim of the fixtures, explained after its approval. *)
Lemma explanation_after_approval_witness :
  status_of (fst (evaluate_claim (H := noon_2024_03_15) 0%nat
                    (fresh_world [valid_claim]))) = APPROVED
  /\ (fst (get_decision_explanation (H := noon_2024_03_15) 0%nat
             (snd (evaluate_claim (H := noon_2024_03_15) 0%nat
                     (fresh_world [valid_claim]))))
      = "Claim Decision: UNDER_REVIEW
Confidence Score: "
        +:+ float_pct (PyRuntime := noon_2024_03_15)
              (1.0 * 0.7 * documentation_score valid_claim) +:+ "

Reasons:
1. Potential duplicate claim detected
2. Requires manual review
"
      \/ fst (get_decision_explanation (H := noon_2024_03_15) 0%nat
                (snd (evaluate_claim (H := noon_2024_03_15) 0%nat
                        (fresh_world [valid_claim]))))
         = "Claim Decision: REJECTED
Confidence Score: " +:+ float_pct (PyRuntime := noon_2024_03_15) 1.0 +:+ "

Reasons:
1. Service date is outside acceptable range
").
Proof.
  split; [reflexivity|].
  apply (explanation_after_approval (H := noon_2024_03_15) 0%nat
           (fresh_world [valid_claim])).
  reflexivity.
Defined.

End ExplanationWitnesses.

Section MergeDicts.

Import Dicts.
Context {A : Type}.
Implicit Types (d : dict A) (v : value A) (key k : string).

Lemma mem_iff k (l : list string) : mem k l = true <-> In k l.
Proof.
  unfold mem. rewrite existsb_exists. split.
  - intros (x & Hin & Heq). apply String.eqb_eq in Heq. now subst x.
  - intros Hin. exists k. split; [assumption | apply String.eqb_refl].
Qed.

Lemma get_none k d : ~ In k (keys d) -> get k d = None.
Proof.
  induction d as [|key v rest IH] using dict_ind; [reflexivity|].
  cbn [keys get In]. intros Hk.
  destruct (String.eqb_spec key k) as [->|_]; [tauto|]. apply IH. tauto.
Qed.

Lemma get_set_same k v d : get k (set k v d) = Some v.
Proof.
  induction d as [|key x rest IH]; cbn [set get].
  - now rewrite String.eqb_refl.
  - destruct (String.eqb key k) eqn:E; cbn [get]; rewrite E; [reflexivity | exact IH].
Qed.

Lemma get_set_other k key v d : key <> k -> get k (set key v d) = get k d.
Proof.
  intros Hne. induction d as [|key' x rest IH]; cbn [set get].
  - destruct (String.eqb_spec key k); [contradiction | reflexivity].
  - destruct (String.eqb_spec key' key) as [->|Hk]; cbn [get].
    + destruct (String.eqb_spec key k); [contradiction | reflexivity].
    + destruct (String.eqb key' k); [reflexivity | exact IH].
Qed.

Lemma keys_set key v d :
  keys (set key v d) = if mem key (keys d) then keys d else keys d ++ [key].
Proof.
  induction d as [|k x rest IH]; [reflexivity|].
  cbn [set keys]. unfold mem in *. cbn [existsb].
  rewrite (String.eqb_sym key k).
  destruct (String.eqb k key); cbn [orb keys]; [reflexivity|].
  rewrite IH. now destruct (existsb _ _).
Qed.

Lemma mem_app_one k key (l : list string) :
  k <> key -> mem k (l ++ [key]) = mem k l.
Proof.
  intros Hne. unfold mem. rewrite existsb_app. cbn [existsb].
  destruct (String.eqb_spec k key); [contradiction|]. now rewrite !orb_false_r.
Qed.

(** One turn of the loop sets the key of the item, to the merge of the two
    values when both are dictionaries and to the value of the item
    otherwise. *)
Lemma merge_dicts_item d1 key v rest :
  merge_dicts d1 (Item key v rest)
  = merge_dicts
      (set key
         match get key d1, v with
         | Some (Dict a), Dict b => Dict (merge_dicts a b)
         | _, _ => v
         end d1)
      rest.
Proof.
  cbn [merge_dicts]. destruct (get key d1) as [[x|a]|], v as [y|b]; reflexivity.
Qed.

(** X30: [merge_dicts] is a deep merge that keeps the order of insertion:
    the keys of the result are those of [dict1], in their order, followed by
    the keys that only [dict2] has, in theirs; a key of [dict2] holds the
    merge of the two values when both are dictionaries and the value of
    [dict2] otherwise, and the other keys hold what they hold in [dict1]. *)
Theorem merge_dicts_items d1 d2 :
  List.NoDup (keys d2) ->
  keys (merge_dicts d1 d2)
  = keys d1 ++ List.filter (fun k => negb (mem k (keys d1))) (keys d2)
  /\ forall k,
       get k (merge_dicts d1 d2)
       = match get k d2 with
         | None => get k d1
         | Some v2 =>
             match get k d1, v2 with
             | Some (Dict a), Dict b => Some (Dict (merge_dicts a b))
             | _, _ => Some v2
             end
         end.
Proof.
  revert d1. induction d2 as [|key v rest IH]; intros d1 Hnodup.
  - cbn [merge_dicts keys List.filter get]. rewrite app_nil_r. now split.
  - cbn [keys] in Hnodup. apply NoDup_cons_iff in Hnodup as [Hnew Hnodup].
    rewrite merge_dicts_item.
    set (merged := match get key d1, v with
                   | Some (Dict a), Dict b => Dict (merge_dicts a b)
                   | _, _ => v
                   end).
    destruct (IH (set key merged d1) Hnodup) as [Hkeys Hget]. split.
    + rewrite Hkeys, keys_set. cbn [keys List.filter].
      destruct (mem key (keys d1)) eqn:Hmem; cbn [negb]; [reflexivity|].
      rewrite <- app_assoc. cbn [app]. do 2 f_equal.
      apply filter_ext_in. intros k Hk. rewrite mem_app_one; [reflexivity|].
      now intros ->.
    + intros k. rewrite Hget. cbn [get].
      destruct (String.eqb_spec key k) as [<-|Hne].
      * rewrite (get_none key rest Hnew), get_set_same. subst merged.
        destruct (get key d1) as [[x|a]|], v as [y|b]; reflexivity.
      * now rewrite get_set_other.
Qed.

End MergeDicts.

Section MergeDictsWitnesses.

Import Dicts.

(** Two settings with a dictionary each under the same key. *)
Lemma merge_dicts_items_witness :
  List.NoDup (keys (Item "limits" (Dict (Item "max" (Leaf 2) Empty))
                 (Item "name" (Leaf 3) Empty)))
  /\ keys (merge_dicts
             (Item "debug" (Leaf 0)
                (Item "limits" (Dict (Item "min" (Leaf 1) Empty)) Empty))
             (Item "limits" (Dict (Item "max" (Leaf 2) Empty))
                (Item "name" (Leaf 3) Empty)))
     = ["debug"; "limits"; "name"]%string
  /\ get "limits"
       (merge_dicts
          (Item "debug" (Leaf 0)
             (Item "limits" (Dict (Item "min" (Leaf 1) Empty)) Empty))
          (Item "limits" (Dict (Item "max" (Leaf 2) Empty))
             (Item "name" (Leaf 3) Empty)))
     = Some (Dict (Item "min" (Leaf 1) (Item "max" (Leaf 2) Empty))).
Proof.
  assert (Hnodup : List.NoDup (keys (Item "limits" (Dict (Item "max" (Leaf 2) Empty))
                                  (Item "name" (Leaf 3) Empty)))).
  { cbn [keys]. repeat constructor; cbn [In]; intuition discriminate. }
  split; [exact Hnodup|].
  destruct (merge_dicts_items
              (Item "debug" (Leaf 0)
                 (Item "limits" (Dict (Item "min" (Leaf 1) Empty)) Empty))
              _ Hnodup) as [Hkeys Hget].
  split; [rewrite Hkeys; reflexivity | rewrite Hget; reflexivity].
Defined.

End MergeDictsWitnesses.
